(** * Asset lifecycle enforcement: state machine, SeqID manager, engine

    A shallow embedding of [core/state_machine.py], [core/seqid_manager.py]
    and [core/enforcement_engine.py], followed by the properties of the
    enforcement core.

    The baseline engine ([core/baseline_engine.py]), the attack cases
    ([attacks/attack_cases.py]), the attack script
    ([experiments/run_attacks.py]) and the stream injectors
    ([simulators/attack_injector.py]) are embedded after them, with their
    properties at the end.

    Conventions of the embedding.
    - A [datetime] is an integer count of microseconds ([Z]) from
      1970-01-01T00:00:00 UTC, between [datetime.min] and [datetime.max]; a
      [timedelta] is a count of microseconds.  Building a [timedelta] of more
      than 999999999 days, or adding past [datetime.max], raises
      OverflowError as it does in Python.  Python integers are unbounded, so
      [seq_id] and the counter are plain [Z].
    - A [str] is given by the bytes of its UTF-8 encoding (a lone surrogate
      by its three-byte form), so that a string literal of the source is the
      same literal here; the characters that [str.strip()] removes are the
      Unicode ones, each under its encoding.
    - Every read of the wall clock ([datetime.now]) is an explicit argument of
      the function that performs it: the value the clock shows at that read.
    - Python dictionaries are [gmap]s; a method that mutates [self] is a
      function [SE] from the object's state to a result (or an exception) and
      the state it leaves.  Engine handlers moreover list the calls they make
      on the FSM and on the manager, in program order ([EM]).
    - A [float] is a rational number [Q]; only order comparisons are made on
      it (NaN and infinities are outside the model).
    - [datetime.isoformat()] is kept symbolic ([WallIso t]). *)

From Stdlib Require Import ZArith QArith Lia Sorted.
From stdpp Require Import base gmap strings list pretty.

Open Scope string_scope.
Open Scope Z_scope.

(** ** Exceptions and stateful methods *)

(** The exceptions the code raises; the message of an OverflowError differs
    between the places that raise it and is left out. *)
Inductive PyError : Type :=
| ValueError (msg : string)
| OverflowError.

Inductive Outcome (A : Type) : Type :=
| Returned (a : A)
| Raised (e : PyError).
Arguments Returned {A} a.
Arguments Raised {A} e.

(** A method of an object whose state has type [S]: it yields a value or
    raises, and leaves the object in a (possibly mutated) state either way. *)
Definition SE (S A : Type) : Type := S -> Outcome A * S.

(** ** core/state_machine.py *)

Module state_machine.

Inductive AssetState : Type :=
| UNREGISTERED | RFID_VERIFIED | SEQ_BOUND | XRF_VERIFIED | SLOT_BOUND | STORED.

Inductive EventType : Type :=
| RFID_READ | SEQ_ASSIGNED | XRF_REPORT_ACCEPTED | SLOT_ASSIGNED
| STORAGE_CONFIRMED | SLOT_MOTION | TAMPER.

#[global] Instance AssetState_eq_dec : EqDecision AssetState.
Proof. solve_decision. Defined.
#[global] Instance EventType_eq_dec : EqDecision EventType.
Proof. solve_decision. Defined.

(** The [.value] of the two string enums. *)
Definition state_value (s : AssetState) : string :=
  match s with
  | UNREGISTERED => "UNREGISTERED"
  | RFID_VERIFIED => "RFID_VERIFIED"
  | SEQ_BOUND => "SEQ_BOUND"
  | XRF_VERIFIED => "XRF_VERIFIED"
  | SLOT_BOUND => "SLOT_BOUND"
  | STORED => "STORED"
  end.

Definition event_value (e : EventType) : string :=
  match e with
  | RFID_READ => "RFID_READ"
  | SEQ_ASSIGNED => "SEQ_ASSIGNED"
  | XRF_REPORT_ACCEPTED => "XRF_REPORT_ACCEPTED"
  | SLOT_ASSIGNED => "SLOT_ASSIGNED"
  | STORAGE_CONFIRMED => "STORAGE_CONFIRMED"
  | SLOT_MOTION => "SLOT_MOTION"
  | TAMPER => "TAMPER"
  end.

(** Allowed transitions: (current_state, event) -> next_state.  The dict
    literal, in source order; its keys are pairwise distinct. *)
Definition _ALLOWED : list ((AssetState * EventType) * AssetState) :=
  [ ((UNREGISTERED, RFID_READ), RFID_VERIFIED);
    ((RFID_VERIFIED, SEQ_ASSIGNED), SEQ_BOUND);
    ((SEQ_BOUND, XRF_REPORT_ACCEPTED), XRF_VERIFIED);
    ((XRF_VERIFIED, SLOT_ASSIGNED), SLOT_BOUND);
    ((SLOT_BOUND, STORAGE_CONFIRMED), STORED) ].

(** [d.get(key)] on a dict literal given as its item list. *)
Fixpoint dict_get {K V} `{EqDecision K} (d : list (K * V)) (key : K) : option V :=
  match d with
  | [] => None
  | (k, v) :: d' => if decide (k = key) then Some v else dict_get d' key
  end.

Definition _NON_TRANSITION_EVENTS : list EventType := [SLOT_MOTION; TAMPER].

Record TransitionResult : Type := {
  accepted : bool;
  prev_state : AssetState;
  event : EventType;
  next_state : AssetState;
  reason : string
}.

(** The object state of an [AssetLifecycleFSM]. *)
Record AssetLifecycleFSM : Type := { _state : AssetState }.

(** [AssetLifecycleFSM()] with the default initial state. *)
Definition new_fsm : AssetLifecycleFSM := {| _state := UNREGISTERED |}.

Definition state (fsm : AssetLifecycleFSM) : AssetState := _state fsm.

(** [allowed_transitions()]: a copy of the table. *)
Definition allowed_transitions : list ((AssetState * EventType) * AssetState) :=
  _ALLOWED.

Definition can_apply (ev : EventType) (fsm : AssetLifecycleFSM) : bool :=
  if bool_decide (ev ∈ _NON_TRANSITION_EVENTS) then true
  else bool_decide (is_Some (dict_get _ALLOWED (_state fsm, ev))).

Definition apply (ev : EventType) : SE AssetLifecycleFSM TransitionResult :=
  fun fsm =>
    let prev := _state fsm in
    if bool_decide (ev ∈ _NON_TRANSITION_EVENTS) then
      (Returned {| accepted := true; prev_state := prev; event := ev;
                   next_state := prev;
                   reason := "NON_TRANSITION_EVENT_ACCEPTED" |}, fsm)
    else
      match dict_get _ALLOWED (prev, ev) with
      | None =>
          (Returned {| accepted := false; prev_state := prev; event := ev;
                       next_state := prev;
                       reason := "ILLEGAL_TRANSITION:" ++ state_value prev
                                   ++ "->" ++ event_value ev |}, fsm)
      | Some nxt =>
          (Returned {| accepted := true; prev_state := prev; event := ev;
                       next_state := nxt; reason := "STATE_ADVANCED" |},
           {| _state := nxt |})
      end.

End state_machine.

(** ** core/seqid_manager.py *)

Module seqid_manager.

Abbreviation datetime := Z (only parsing).
Abbreviation timedelta := Z (only parsing).

(** [datetime.min] and [datetime.max], and the integers that are a
    [datetime]. *)
Definition datetime_min : datetime := -62135596800000000.
Definition datetime_max : datetime := 253402300799999999.

Definition is_datetime (t : Z) : bool :=
  (datetime_min <=? t) && (t <=? datetime_max).

(** [t + d] for a [datetime] and a [timedelta]: OverflowError (date value
    out of range) when the sum is not a [datetime]. *)
Definition datetime_add (t : datetime) (d : timedelta) : Outcome datetime :=
  if is_datetime (t + d) then Returned (t + d) else Raised OverflowError.

(** [timedelta(minutes=n)], in microseconds: OverflowError when it comes to
    more than 999999999 days either way. *)
Definition timedelta_minutes (n : Z) : Outcome timedelta :=
  if (-999999999 <=? n / 1440) && (n / 1440 <=? 999999999)
  then Returned (n * 60000000)
  else Raised OverflowError.

Record SeqBinding : Type := {
  uid : string;
  seq_id : Z;
  issued_at : datetime;
  expires_at : datetime;
  used : bool
}.

#[global] Instance SeqBinding_eq_dec : EqDecision SeqBinding.
Proof. solve_decision. Defined.

Record SeqIdManager : Type := {
  _counter : Z;
  _validity : timedelta;
  _by_uid : gmap string SeqBinding;
  _by_seq : gmap Z SeqBinding
}.

(** The code points for which [str.isspace] holds, which [str.strip()]
    removes: TAB, LF, VT, FF, CR, the separators FS, GS, RS, US, the space,
    NEL, the no-break space, and the space and line separators from U+1680
    on. *)
Definition WHITESPACE : list Z :=
  [ 0x9; 0xA; 0xB; 0xC; 0xD; 0x1C; 0x1D; 0x1E; 0x1F; 0x20; 0x85; 0xA0;
    0x1680; 0x2000; 0x2001; 0x2002; 0x2003; 0x2004; 0x2005; 0x2006; 0x2007;
    0x2008; 0x2009; 0x200A; 0x2028; 0x2029; 0x202F; 0x205F; 0x3000 ].

Definition byte (n : Z) : Ascii.ascii := Ascii.ascii_of_N (Z.to_N n).

(** The UTF-8 encoding of a code point. *)
Definition utf8 (c : Z) : string :=
  if c <? 0x80 then String (byte c) EmptyString
  else if c <? 0x800 then
    String (byte (0xC0 + c / 64))
      (String (byte (0x80 + c mod 64)) EmptyString)
  else if c <? 0x10000 then
    String (byte (0xE0 + c / 4096))
      (String (byte (0x80 + (c / 64) mod 64))
         (String (byte (0x80 + c mod 64)) EmptyString))
  else
    String (byte (0xF0 + c / 262144))
      (String (byte (0x80 + (c / 4096) mod 64))
         (String (byte (0x80 + (c / 64) mod 64))
            (String (byte (0x80 + c mod 64)) EmptyString))).

(** [s] without the prefix [p], if it starts with [p]. *)
Fixpoint drop_prefix (p s : string) : option string :=
  match p, s with
  | EmptyString, _ => Some s
  | String a p', String b s' =>
      if Ascii.eqb a b then drop_prefix p' s' else None
  | String _ _, EmptyString => None
  end.

(** [s] without its first character, when [s] starts with one of the
    characters whose byte sequences are listed. *)
Definition drop_first (chars : list string) (s : string) : option string :=
  head (omap (fun c => drop_prefix c s) chars).

(** Leading characters dropped for as long as they are among those listed;
    each step takes at least one byte off, so the length of the string
    bounds the number of steps. *)
Fixpoint drop_leading (n : nat) (chars : list string) (s : string) : string :=
  match n with
  | O => s
  | S n' => match drop_first chars s with
            | Some s' => drop_leading n' chars s'
            | None => s
            end
  end.

Definition lstrip (s : string) : string :=
  drop_leading (String.length s) (map utf8 WHITESPACE) s.

Fixpoint str_rev (s : string) : string :=
  match s with
  | EmptyString => EmptyString
  | String c s' => str_rev s' ++ String c EmptyString
  end.

(** Trailing whitespace is leading whitespace of the reversed bytes, each
    character's bytes being reversed with them. *)
Definition rstrip (s : string) : string :=
  let r := str_rev s in
  str_rev (drop_leading (String.length r)
             (map (fun c => str_rev (utf8 c)) WHITESPACE) r).

(** [s.strip()] *)
Definition strip (s : string) : string := rstrip (lstrip s).

(** Truth value of a [str]: false exactly for the empty string. *)
Definition str_truthy (s : string) : bool :=
  match s with EmptyString => false | _ => true end.

(** [SeqIdManager(start_counter, validity_minutes)] *)
Definition __init__ (start_counter validity_minutes : Z) : Outcome SeqIdManager :=
  if start_counter <? 1 then Raised (ValueError "start_counter must be >= 1")
  else if validity_minutes <? 1 then Raised (ValueError "validity_minutes must be >= 1")
  else
    match timedelta_minutes validity_minutes with
    | Raised x => Raised x
    | Returned validity =>
        Returned {| _counter := start_counter;
                    _validity := validity;
                    _by_uid := ∅;
                    _by_seq := ∅ |}
    end.

(** [now or self.now_utc()]: a [datetime] is always truthy, so the clock
    reading [wall] is used exactly when no time was passed. *)
Definition now_or (now : option datetime) (wall : datetime) : datetime :=
  match now with Some t => t | None => wall end.

Definition is_expired (binding : SeqBinding) (now : option datetime)
    (wall : datetime) : bool :=
  let t := now_or now wall in
  expires_at binding <? t.

Definition get_by_uid (u : string) (m : SeqIdManager) : option SeqBinding :=
  _by_uid m !! u.

Definition get_by_seq (s : Z) (m : SeqIdManager) : option SeqBinding :=
  _by_seq m !! s.

(** [issue(uid, issued_at)]; [wall] is what [now_utc()] returns if it is
    called.  The counter is advanced before the expiry time is computed, so
    an OverflowError there leaves it advanced, with no binding stored. *)
Definition issue (u : string) (at_ : option datetime) (wall : datetime)
    : SE SeqIdManager SeqBinding :=
  fun m =>
    if negb (str_truthy u) || negb (str_truthy (strip u)) then
      (Raised (ValueError "uid must be non-empty"), m)
    else
      let t0 := now_or at_ wall in
      let existing := _by_uid m !! u in
      let fresh :=
        let seq := _counter m in
        let m1 := {| _counter := _counter m + 1;
                     _validity := _validity m;
                     _by_uid := _by_uid m;
                     _by_seq := _by_seq m |} in
        match datetime_add t0 (_validity m) with
        | Raised x => (Raised x, m1)
        | Returned expires =>
            let binding := {| uid := u; seq_id := seq; issued_at := t0;
                              expires_at := expires; used := false |} in
            (Returned binding,
             {| _counter := _counter m1;
                _validity := _validity m1;
                _by_uid := <[u := binding]> (_by_uid m1);
                _by_seq := <[seq := binding]> (_by_seq m1) |})
        end in
      match existing with
      | Some b =>
          if negb (is_expired b (Some t0) wall) && negb (used b)
          then (Returned b, m)
          else fresh
      | None => fresh
      end.

(** [validate(uid, seq_id, now)] *)
Definition validate (u : string) (s : Z) (now : option datetime)
    (wall : datetime) : SE SeqIdManager string :=
  fun m =>
    let t := now_or now wall in
    match _by_uid m !! u with
    | None => (Returned "NO_BINDING_FOR_UID", m)
    | Some b =>
        if negb (seq_id b =? s) then (Returned "SEQ_MISMATCH", m)
        else if is_expired b (Some t) wall then (Returned "EXPIRED", m)
        else if used b then (Returned "ALREADY_USED", m)
        else (Returned "OK", m)
    end.

(** [mark_used(uid, seq_id)] *)
Definition mark_used (u : string) (s : Z) : SE SeqIdManager string :=
  fun m =>
    match _by_uid m !! u with
    | None => (Returned "NOT_FOUND", m)
    | Some b =>
        if negb (seq_id b =? s) then (Returned "SEQ_MISMATCH", m)
        else
          let used_binding := {| uid := uid b; seq_id := seq_id b;
                                 issued_at := issued_at b;
                                 expires_at := expires_at b; used := true |} in
          (Returned "OK",
           {| _counter := _counter m;
              _validity := _validity m;
              _by_uid := <[u := used_binding]> (_by_uid m);
              _by_seq := <[s := used_binding]> (_by_seq m) |})
    end.

End seqid_manager.

(** ** core/enforcement_engine.py *)

Module enforcement_engine.
Import state_machine seqid_manager.

Inductive Decision : Type := ACCEPT | REJECT | ALERT.

#[global] Instance Decision_eq_dec : EqDecision Decision.
Proof. solve_decision. Defined.

(** An ISO-8601 timestamp string: either the text the caller passed, or the
    [isoformat()] of a wall-clock reading. *)
Inductive IsoStamp : Type :=
| Supplied (s : string)
| WallIso (t : datetime).

(** The values stored in a decision's [details] dict. *)
Inductive Value : Type :=
| VStr (s : string)
| VInt (z : Z)
| VFloat (q : Q)
| VBool (b : bool)
| VStamp (t : IsoStamp).

Record EnforcementDecision : Type := {
  decision : Decision;
  reason : string;
  asset_id : string;
  prev_state : AssetState;
  next_state : AssetState;
  event : EventType;
  timestamp_utc : IsoStamp;
  details : list (string * Value)
}.

(** The recognised keys of the [thresholds] dict; [None] is an absent key. *)
Record Thresholds : Type := {
  purity_min_percent : option Q;
  scan_duration_min_seconds : option Z;
  contact_required : option bool
}.

Definition no_thresholds : Thresholds :=
  {| purity_min_percent := None; scan_duration_min_seconds := None;
     contact_required := None |}.

(** The object state of the engine: its SeqID manager and one FSM per uid. *)
Record AssetLifecycleEnforcementEngine : Type := {
  seq : SeqIdManager;
  _fsms : gmap string AssetLifecycleFSM
}.

(** [AssetLifecycleEnforcementEngine(seq_manager)] *)
Definition __init__ (seq_manager : SeqIdManager) : AssetLifecycleEnforcementEngine :=
  {| seq := seq_manager; _fsms := ∅ |}.

(** What the wall clock shows at the reads one handler call can make: on
    entry ([ts_utc or self._now_iso()]), inside the SeqID manager
    ([now_utc()]), and when the decision is stamped ([self._now_iso()]). *)
Record WallClock : Type := {
  at_entry : datetime;
  at_seq : datetime;
  at_stamp : datetime
}.

(** [ts_utc or self._now_iso()] *)
Definition ts_or (ts_utc : option string) (wall : datetime) : IsoStamp :=
  match ts_utc with
  | Some s => if str_truthy s then Supplied s else WallIso wall
  | None => WallIso wall
  end.

(** A reference to the FSM object stored under a uid. *)
Abbreviation FsmRef := string (only parsing).

(** The calls a handler makes on its collaborators, in program order. *)
Inductive Step : Type :=
| ReadState (r : FsmRef)                     (* fsm.state *)
| CallApply (r : FsmRef) (ev : EventType)    (* fsm.apply(ev) *)
| CallIssue (u : string)                     (* self.seq.issue(u) *)
| CallValidate (u : string) (s : Z)          (* self.seq.validate(u, s) *)
| CallMarkUsed (u : string) (s : Z).         (* self.seq.mark_used(u, s) *)

(** An engine method: from the engine's state to a result or an exception,
    the state it leaves, and the collaborator calls it made on the way. *)
Definition EM (A : Type) : Type :=
  AssetLifecycleEnforcementEngine ->
  Outcome A * AssetLifecycleEnforcementEngine * list Step.

Definition ret {A} (a : A) : EM A := fun e => (Returned a, e, []).

Definition bind {A B} (c : EM A) (k : A -> EM B) : EM B :=
  fun e => match c e with
           | (Returned a, e1, t1) =>
               let '(r, e2, t2) := k a e1 in (r, e2, (t1 ++ t2)%list)
           | (Raised x, e1, t1) => (Raised x, e1, t1)
           end.

Declare Scope em_scope.
Delimit Scope em_scope with em.
Notation "x <- c ;; k" := (bind c (fun x => k))
  (at level 100, c at next level, right associativity) : em_scope.
Notation "c ;; k" := (bind c (fun _ => k))
  (at level 100, right associativity) : em_scope.

(** Run a method of the shared manager object. *)
Definition on_seq {A} (call : Step) (c : SE SeqIdManager A) : EM A :=
  fun e => let '(r, m') := c (seq e) in
           (r, {| seq := m'; _fsms := _fsms e |}, [call]).

(** Run a method of the FSM object behind a reference; the object is shared
    with the [_fsms] dict, so its mutation is visible there. *)
Definition on_fsm {A} (r : FsmRef) (call : Step) (c : SE AssetLifecycleFSM A)
    : EM A :=
  fun e => let '(a, f') := c (default new_fsm (_fsms e !! r)) in
           (a, {| seq := seq e; _fsms := <[r := f']> (_fsms e) |}, [call]).

(** [fsm.state] *)
Definition fsm_state (r : FsmRef) : EM AssetState :=
  fun e => (Returned (state (default new_fsm (_fsms e !! r))), e, [ReadState r]).

Definition _get_fsm (u : string) : EM FsmRef :=
  fun e => match _fsms e !! u with
           | None => (Returned u,
                      {| seq := seq e; _fsms := <[u := new_fsm]> (_fsms e) |}, [])
           | Some _ => (Returned u, e, [])
           end.

Definition _accept (stamp : datetime) (u : string) (tr : TransitionResult)
    (dt : list (string * Value)) : EnforcementDecision :=
  {| decision := ACCEPT; reason := state_machine.reason tr; asset_id := u;
     prev_state := state_machine.prev_state tr;
     next_state := state_machine.next_state tr;
     event := state_machine.event tr;
     timestamp_utc := WallIso stamp; details := dt |}.

Definition _reject (stamp : datetime) (u : string) (tr : TransitionResult)
    (rsn : string) (dt : list (string * Value)) : EnforcementDecision :=
  {| decision := REJECT; reason := rsn; asset_id := u;
     prev_state := state_machine.prev_state tr;
     next_state := state_machine.next_state tr;
     event := state_machine.event tr;
     timestamp_utc := WallIso stamp; details := dt |}.

Definition _reject_simple (stamp : datetime) (u : string) (prev : AssetState)
    (ev : EventType) (rsn : string) (dt : list (string * Value))
    : EnforcementDecision :=
  {| decision := REJECT; reason := rsn; asset_id := u;
     prev_state := prev; next_state := prev; event := ev;
     timestamp_utc := WallIso stamp; details := dt |}.

Definition Qltb (x y : Q) : bool := negb (Qle_bool y x).

Open Scope em_scope.

Definition handle_rfid_read (w : WallClock) (u gateway_id : string)
    (ts_utc : option string) : EM EnforcementDecision :=
  fsm <- _get_fsm u ;;
  let t := ts_or ts_utc (at_entry w) in
  tr <- on_fsm fsm (CallApply fsm RFID_READ) (apply RFID_READ) ;;
  if negb (accepted tr) then
    ret (_reject (at_stamp w) u tr (state_machine.reason tr)
           [("gateway_id", VStr gateway_id)])
  else
    ret (_accept (at_stamp w) u tr [("gateway_id", VStr gateway_id)]).

Definition handle_seq_request (w : WallClock) (u : string)
    (ts_utc : option string) : EM EnforcementDecision :=
  fsm <- _get_fsm u ;;
  let t := ts_or ts_utc (at_entry w) in
  st <- fsm_state fsm ;;
  if negb (bool_decide (st = RFID_VERIFIED)) then
    st' <- fsm_state fsm ;;
    ret (_reject_simple (at_stamp w) u st' SEQ_ASSIGNED
           "STATE_NOT_RFID_VERIFIED" [("ts", VStamp t)])
  else
    binding <- on_seq (CallIssue u) (issue u None (at_seq w)) ;;
    tr <- on_fsm fsm (CallApply fsm SEQ_ASSIGNED) (apply SEQ_ASSIGNED) ;;
    if negb (accepted tr) then
      ret (_reject (at_stamp w) u tr (state_machine.reason tr)
             [("seq_id", VInt (seq_id binding));
              ("expires_at", VStamp (WallIso (expires_at binding)))])
    else
      ret {| decision := ACCEPT; reason := "SEQ_ISSUED"; asset_id := u;
             prev_state := state_machine.prev_state tr;
             next_state := state_machine.next_state tr;
             event := SEQ_ASSIGNED; timestamp_utc := t;
             details := [("seq_id", VInt (seq_id binding));
                         ("issued_at", VStamp (WallIso (issued_at binding)));
                         ("expires_at", VStamp (WallIso (expires_at binding)))] |}.

Definition handle_xrf_report (w : WallClock) (u : string) (s : Z) (purity : Q)
    (scan_duration_s : Z) (contact_ok : bool) (pc_id : string)
    (ts_utc : option string) (thresholds : option Thresholds)
    : EM EnforcementDecision :=
  fsm <- _get_fsm u ;;
  let t := ts_or ts_utc (at_entry w) in
  st <- fsm_state fsm ;;
  if negb (bool_decide (st = SEQ_BOUND)) then
    st' <- fsm_state fsm ;;
    ret (_reject_simple (at_stamp w) u st' XRF_REPORT_ACCEPTED
           "STATE_NOT_SEQ_BOUND" [("pc_id", VStr pc_id)])
  else
    (* 1) Validate SeqID *)
    seq_status <- on_seq (CallValidate u s) (validate u s None (at_seq w)) ;;
    if negb (String.eqb seq_status "OK") then
      st' <- fsm_state fsm ;;
      ret (_reject_simple (at_stamp w) u st' XRF_REPORT_ACCEPTED
             ("SEQ_INVALID:" ++ seq_status)
             [("pc_id", VStr pc_id); ("seq_id", VInt s)])
    else
      (* 2) Sanity checks *)
      let th := default no_thresholds thresholds in
      let purity_min := default (99 # 1)%Q (purity_min_percent th) in
      let scan_min := default 8 (scan_duration_min_seconds th) in
      let contact_req := default true (contact_required th) in
      if Qltb purity purity_min then
        st' <- fsm_state fsm ;;
        ret (_reject_simple (at_stamp w) u st' XRF_REPORT_ACCEPTED
               "SANITY_FAIL:PURITY_TOO_LOW"
               [("purity", VFloat purity); ("purity_min", VFloat purity_min);
                ("pc_id", VStr pc_id)])
      else if scan_duration_s <? scan_min then
        st' <- fsm_state fsm ;;
        ret (_reject_simple (at_stamp w) u st' XRF_REPORT_ACCEPTED
               "SANITY_FAIL:SCAN_TOO_SHORT"
               [("scan_duration_s", VInt scan_duration_s);
                ("scan_min", VInt scan_min); ("pc_id", VStr pc_id)])
      else if contact_req && negb contact_ok then
        st' <- fsm_state fsm ;;
        ret (_reject_simple (at_stamp w) u st' XRF_REPORT_ACCEPTED
               "SANITY_FAIL:CONTACT_NOT_OK"
               [("contact_ok", VBool contact_ok); ("pc_id", VStr pc_id)])
      else
        (* 3) Advance state *)
        tr <- on_fsm fsm (CallApply fsm XRF_REPORT_ACCEPTED) (apply XRF_REPORT_ACCEPTED) ;;
        if negb (accepted tr) then
          ret (_reject (at_stamp w) u tr (state_machine.reason tr)
                 [("pc_id", VStr pc_id)])
        else
          (* 4) Mark SeqID used (one-time) *)
          on_seq (CallMarkUsed u s) (mark_used u s) ;;
          ret (_accept (at_stamp w) u tr
                 [("pc_id", VStr pc_id); ("seq_id", VInt s);
                  ("purity", VFloat purity);
                  ("scan_duration_s", VInt scan_duration_s);
                  ("contact_ok", VBool contact_ok)]).

Definition handle_slot_assigned (w : WallClock) (u slot_id : string)
    (ts_utc : option string) : EM EnforcementDecision :=
  fsm <- _get_fsm u ;;
  let t := ts_or ts_utc (at_entry w) in
  st <- fsm_state fsm ;;
  if negb (bool_decide (st = XRF_VERIFIED)) then
    st' <- fsm_state fsm ;;
    ret (_reject_simple (at_stamp w) u st' SLOT_ASSIGNED
           "STATE_NOT_XRF_VERIFIED" [("slot_id", VStr slot_id)])
  else
    tr <- on_fsm fsm (CallApply fsm SLOT_ASSIGNED) (apply SLOT_ASSIGNED) ;;
    if negb (accepted tr) then
      ret (_reject (at_stamp w) u tr (state_machine.reason tr)
             [("slot_id", VStr slot_id)])
    else
      ret (_accept (at_stamp w) u tr [("slot_id", VStr slot_id)]).

Definition handle_storage_confirmed (w : WallClock) (u slot_id : string)
    (ts_utc : option string) : EM EnforcementDecision :=
  fsm <- _get_fsm u ;;
  let t := ts_or ts_utc (at_entry w) in
  st <- fsm_state fsm ;;
  if negb (bool_decide (st = SLOT_BOUND)) then
    st' <- fsm_state fsm ;;
    ret (_reject_simple (at_stamp w) u st' STORAGE_CONFIRMED
           "STATE_NOT_SLOT_BOUND" [("slot_id", VStr slot_id)])
  else
    tr <- on_fsm fsm (CallApply fsm STORAGE_CONFIRMED) (apply STORAGE_CONFIRMED) ;;
    if negb (accepted tr) then
      ret (_reject (at_stamp w) u tr (state_machine.reason tr)
             [("slot_id", VStr slot_id)])
    else
      ret (_accept (at_stamp w) u tr [("slot_id", VStr slot_id)]).

Definition handle_slot_motion (w : WallClock) (u slot_id : string)
    (ts_utc : option string) : EM EnforcementDecision :=
  fsm <- _get_fsm u ;;
  let t := ts_or ts_utc (at_entry w) in
  tr <- on_fsm fsm (CallApply fsm SLOT_MOTION) (apply SLOT_MOTION) ;;
  ret {| decision := ALERT; reason := "SLOT_MOTION_DETECTED"; asset_id := u;
         prev_state := state_machine.prev_state tr;
         next_state := state_machine.next_state tr;
         event := SLOT_MOTION; timestamp_utc := t;
         details := [("slot_id", VStr slot_id)] |}.

Close Scope em_scope.

End enforcement_engine.

(** ** Call sequences

    The properties of histories quantify over sequences of calls made by a
    client that keeps going after an exception. *)

Module workload.
Import state_machine seqid_manager enforcement_engine.

(** One public engine operation with its arguments. *)
Inductive Call : Type :=
| RfidRead (u gateway_id : string) (ts_utc : option string)
| SeqRequest (u : string) (ts_utc : option string)
| XrfReport (u : string) (s : Z) (purity : Q) (scan_duration_s : Z)
    (contact_ok : bool) (pc_id : string) (ts_utc : option string)
    (thresholds : option Thresholds)
| SlotAssigned (u slot_id : string) (ts_utc : option string)
| StorageConfirmed (u slot_id : string) (ts_utc : option string)
| SlotMotion (u slot_id : string) (ts_utc : option string).

Definition call_uid (c : Call) : string :=
  match c with
  | RfidRead u _ _ | SeqRequest u _ | XrfReport u _ _ _ _ _ _ _
  | SlotAssigned u _ _ | StorageConfirmed u _ _ | SlotMotion u _ _ => u
  end.

Definition call (w : WallClock) (c : Call) : EM EnforcementDecision :=
  match c with
  | RfidRead u g ts => handle_rfid_read w u g ts
  | SeqRequest u ts => handle_seq_request w u ts
  | XrfReport u s p d k pc ts th => handle_xrf_report w u s p d k pc ts th
  | SlotAssigned u sl ts => handle_slot_assigned w u sl ts
  | StorageConfirmed u sl ts => handle_storage_confirmed w u sl ts
  | SlotMotion u sl ts => handle_slot_motion w u sl ts
  end.

(** The calls one after the other on the same engine, each at its own clock
    readings; the results in call order and the engine at the end. *)
Fixpoint run (cs : list (WallClock * Call)) (e : AssetLifecycleEnforcementEngine)
    : list (Outcome EnforcementDecision) * AssetLifecycleEnforcementEngine :=
  match cs with
  | [] => ([], e)
  | (w, c) :: cs' =>
      let '(o, e1, _) := call w c e in
      let '(os, e2) := run cs' e1 in
      (o :: os, e2)
  end.

(** The state an asset is in: that of its FSM, a fresh one if it has none. *)
Definition current_state (e : AssetLifecycleEnforcementEngine) (u : string)
    : AssetState :=
  state (default new_fsm (_fsms e !! u)).

(** The events of the ACCEPT decisions issued for asset [u], in order. *)
Definition accepted_events (u : string) (os : list (Outcome EnforcementDecision))
    : list EventType :=
  omap (fun o => match o with
                 | Returned d =>
                     if bool_decide (decision d = ACCEPT ∧ asset_id d = u)
                     then Some (event d) else None
                 | Raised _ => None
                 end) os.

(** The engine once [_get_fsm u] has run: [u] has an FSM, a fresh one if it
    had none. *)
Definition ensure_fsm (u : string) (e : AssetLifecycleEnforcementEngine)
    : AssetLifecycleEnforcementEngine :=
  snd (fst (_get_fsm u e)).

(** The position of a state on the happy path. *)
Definition idx (s : AssetState) : nat :=
  match s with
  | UNREGISTERED => 0 | RFID_VERIFIED => 1 | SEQ_BOUND => 2
  | XRF_VERIFIED => 3 | SLOT_BOUND => 4 | STORED => 5
  end.

Definition happy_events : list EventType :=
  [RFID_READ; SEQ_ASSIGNED; XRF_REPORT_ACCEPTED; SLOT_ASSIGNED; STORAGE_CONFIRMED].

Definition happy_states : list AssetState :=
  [UNREGISTERED; RFID_VERIFIED; SEQ_BOUND; XRF_VERIFIED; SLOT_BOUND; STORED].

(** One public manager operation with its arguments. *)
Inductive MgrCall : Type :=
| Issue (u : string) (issued_at : option datetime)
| Validate (u : string) (s : Z) (now : option datetime)
| MarkUsed (u : string) (s : Z).

(** The manager after one call made when the clock shows [wall], and the
    identifier the call allocated, if it allocated one: [issue] returned a
    binding that is not the one the uid had before the call. *)
Definition mgr_call (wall : datetime) (c : MgrCall) (m : SeqIdManager)
    : option Z * SeqIdManager :=
  match c with
  | Issue u t =>
      match issue u t wall m with
      | (Returned b, m') =>
          (if bool_decide (_by_uid m !! u = Some b) then None
           else Some (seq_id b), m')
      | (Raised _, m') => (None, m')
      end
  | Validate u s now => (None, snd (validate u s now wall m))
  | MarkUsed u s => (None, snd (mark_used u s m))
  end.

(** The identifiers allocated along a call sequence, oldest first. *)
Fixpoint allocations (cs : list (datetime * MgrCall)) (m : SeqIdManager)
    : list Z * SeqIdManager :=
  match cs with
  | [] => ([], m)
  | (wall, c) :: cs' =>
      let '(a, m1) := mgr_call wall c m in
      let '(ids, m2) := allocations cs' m1 in
      (match a with Some i => i :: ids | None => ids end, m2)
  end.

(** The bindings [issue] returned along a call sequence, oldest first:
    the newly allocated ones and the ones handed out again. *)
Fixpoint issued (cs : list (datetime * MgrCall)) (m : SeqIdManager)
    : list SeqBinding :=
  match cs with
  | [] => []
  | (wall, c) :: cs' =>
      let rest := issued cs' (snd (mgr_call wall c m)) in
      match c with
      | Issue u t =>
          match fst (issue u t wall m) with
          | Returned b => b :: rest
          | Raised _ => rest
          end
      | Validate _ _ _ | MarkUsed _ _ => rest
      end
  end.

(** A uid that [issue] refuses: empty, or empty once stripped. *)
Definition blank (u : string) : bool :=
  negb (str_truthy u) || negb (str_truthy (strip u)).

(** The manager invariant: the validity window is at least one minute, and
    a binding stored under a uid carries that uid, which [issue] accepted,
    has an identifier below the counter, and is the one stored under its
    identifier. *)
Definition wf (m : SeqIdManager) : Prop :=
  60000000 <= _validity m ∧
  ∀ u b, _by_uid m !! u = Some b →
         blank u = false ∧ uid b = u ∧ seq_id b < _counter m ∧
         _by_seq m !! seq_id b = Some b.

(** The managers a client can build: a constructed one, then any calls. *)
Inductive reachable : SeqIdManager → Prop :=
| reach_init start mins m :
    seqid_manager.__init__ start mins = Returned m → reachable m
| reach_call wall c m :
    reachable m → reachable (snd (mgr_call wall c m)).

(** What [issue] does when it allocates: the binding it builds and the
    manager it leaves. *)
Definition fresh_binding (u : string) (t0 : datetime) (m : SeqIdManager) : SeqBinding :=
  {| uid := u; seq_id := _counter m; issued_at := t0;
     expires_at := t0 + _validity m; used := false |}.

Definition with_fresh (u : string) (t0 : datetime) (m : SeqIdManager) : SeqIdManager :=
  {| _counter := _counter m + 1; _validity := _validity m;
     _by_uid := <[u := fresh_binding u t0 m]> (_by_uid m);
     _by_seq := <[_counter m := fresh_binding u t0 m]> (_by_seq m) |}.

(** The manager once the counter has been advanced and nothing else. *)
Definition bumped (m : SeqIdManager) : SeqIdManager :=
  {| _counter := _counter m + 1; _validity := _validity m;
     _by_uid := _by_uid m; _by_seq := _by_seq m |}.

(** What [issue] does when the uid has no active binding: it allocates, or
    raises with the counter advanced when the expiry time is out of range. *)
Definition allocate (u : string) (t0 : datetime) (m : SeqIdManager)
    : Outcome SeqBinding * SeqIdManager :=
  if is_datetime (t0 + _validity m)
  then (Returned (fresh_binding u t0 m), with_fresh u t0 m)
  else (Raised OverflowError, bumped m).

(** An active binding: not expired at [t0] and not used. *)
Definition active (b : SeqBinding) (t0 : datetime) : bool :=
  negb (expires_at b <? t0) && negb (used b).

(** The manager of the test scripts: [SeqIdManager(start_counter=1,
    validity_minutes=20)]. *)
Definition manager_1_20 : SeqIdManager :=
  {| _counter := 1; _validity := 20 * 60000000;
     _by_uid := ∅; _by_seq := ∅ |}.

(** A clock that shows [t] at every read of one call. *)
Definition clock (t : datetime) : WallClock :=
  {| at_entry := t; at_seq := t; at_stamp := t |}.

(** The sanity thresholds in force for a call. *)
Definition purity_min_of (th : option Thresholds) : Q :=
  default (99 # 1)%Q (purity_min_percent (default no_thresholds th)).
Definition scan_min_of (th : option Thresholds) : Z :=
  default 8 (scan_duration_min_seconds (default no_thresholds th)).
Definition contact_required_of (th : option Thresholds) : bool :=
  default true (contact_required (default no_thresholds th)).

(** The thresholds of the test scripts. *)
Definition THRESHOLDS : option Thresholds :=
  Some {| purity_min_percent := Some (99 # 1)%Q;
          scan_duration_min_seconds := Some 8;
          contact_required := Some true |}.

(** Asset "A" after an RFID read and a SeqID request at time 0, on a new
    engine over [manager_1_20]: it is SEQ_BOUND and holds seq_id 1, valid
    for twenty minutes. *)
Definition engine_A_seq_bound : AssetLifecycleEnforcementEngine :=
  snd (run [(clock 0, RfidRead "A" "GW01" None); (clock 0, SeqRequest "A" None)]
         (enforcement_engine.__init__ manager_1_20)).

(** A binding once [mark_used] has replaced it. *)
Definition as_used (b : SeqBinding) : SeqBinding :=
  {| uid := uid b; seq_id := seq_id b; issued_at := issued_at b;
     expires_at := expires_at b; used := true |}.

End workload.


(** ** Event sequences on one state machine *)

Module fsm_traces.
Import state_machine.

(** [fsm.apply(ev)] for each event of a list in turn, on the same machine:
    the results in order and the machine at the end. *)
Fixpoint apply_all (evs : list EventType) (fsm : AssetLifecycleFSM)
    : list TransitionResult * AssetLifecycleFSM :=
  match evs with
  | [] => ([], fsm)
  | ev :: evs' =>
      match apply ev fsm with
      | (Returned tr, fsm1) =>
          let '(trs, fsm2) := apply_all evs' fsm1 in (tr :: trs, fsm2)
      | (Raised _, fsm1) => ([], fsm1)
      end
  end.

(** A result that moved the machine. *)
Definition advanced (tr : TransitionResult) : bool :=
  bool_decide (next_state tr ≠ prev_state tr).

End fsm_traces.

(** ** More on manager call sequences *)

Module manager_traces.
Import seqid_manager workload.

(** The uid a manager call is about. *)
Definition mgr_call_uid (c : MgrCall) : string :=
  match c with
  | Issue u _ | Validate u _ _ | MarkUsed u _ => u
  end.

(** The by-seq index against the by-uid index: a binding is stored under
    its own identifier, which is positive and below the counter, and the uid
    it names currently holds that binding or a later one. *)
Definition seq_index_ok (m : SeqIdManager) : Prop :=
  1 <= _counter m ∧
  ∀ s b, _by_seq m !! s = Some b →
         seq_id b = s ∧ 1 <= s < _counter m ∧
         ∃ b', _by_uid m !! uid b = Some b' ∧ seq_id b <= seq_id b' ∧
               (seq_id b = seq_id b' → b = b').

(** [n] consecutive integers from [a]. *)
Fixpoint consecutive (a : Z) (n : nat) : list Z :=
  match n with
  | O => []
  | S n' => a :: consecutive (a + 1) n'
  end.

(** A manager call in which [issue] raised OverflowError, and the number of
    such calls along a sequence. *)
Definition overflowed (wall : datetime) (c : MgrCall) (m : SeqIdManager) : bool :=
  match c with
  | Issue u t =>
      match fst (issue u t wall m) with
      | Raised OverflowError => true
      | _ => false
      end
  | Validate _ _ _ | MarkUsed _ _ => false
  end.

Fixpoint overflows (cs : list (datetime * MgrCall)) (m : SeqIdManager) : nat :=
  match cs with
  | [] => 0
  | (wall, c) :: cs' =>
      ((if overflowed wall c m then 1 else 0)
       + overflows cs' (snd (mgr_call wall c m)))%nat
  end.

(** The identifier [s] is spent for [u]: it lies below the counter, and if
    the binding stored for [u] still carries it, that binding is used. *)
Definition spent (u : string) (s : Z) (m : SeqIdManager) : Prop :=
  s < _counter m ∧
  ∀ b, _by_uid m !! u = Some b → seq_id b = s → used b = true.

End manager_traces.

(** ** Engines in use *)

Module engine_traces.
Import state_machine seqid_manager enforcement_engine workload.

(** The engines a client can have: one built over a newly constructed
    manager, then driven by any calls.  The manager is reached through the
    engine only. *)
Inductive engine_reachable : AssetLifecycleEnforcementEngine → Prop :=
| engine_new start mins m :
    seqid_manager.__init__ start mins = Returned m →
    engine_reachable (enforcement_engine.__init__ m)
| engine_call w c e :
    engine_reachable e → engine_reachable (snd (fst (call w c e))).

(** The reason codes the handlers write as literals. *)
Definition fixed_reasons : list string :=
  [ "STATE_ADVANCED"; "SEQ_ISSUED"; "SLOT_MOTION_DETECTED";
    "STATE_NOT_RFID_VERIFIED"; "STATE_NOT_SEQ_BOUND";
    "STATE_NOT_XRF_VERIFIED"; "STATE_NOT_SLOT_BOUND";
    "SANITY_FAIL:PURITY_TOO_LOW"; "SANITY_FAIL:SCAN_TOO_SHORT";
    "SANITY_FAIL:CONTACT_NOT_OK";
    "SEQ_INVALID:NO_BINDING_FOR_UID"; "SEQ_INVALID:SEQ_MISMATCH";
    "SEQ_INVALID:EXPIRED"; "SEQ_INVALID:ALREADY_USED" ].

(** How an asset's state and its binding go together on an engine in use. *)
Definition state_matches_binding (e : AssetLifecycleEnforcementEngine)
    (u : string) : Prop :=
  match current_state e u with
  | UNREGISTERED | RFID_VERIFIED => _by_uid (seq e) !! u = None
  | SEQ_BOUND => ∃ b, _by_uid (seq e) !! u = Some b ∧ used b = false
  | XRF_VERIFIED | SLOT_BOUND | STORED =>
      ∃ b, _by_uid (seq e) !! u = Some b ∧ used b = true
  end.

End engine_traces.

(** ** core/baseline_engine.py *)

Module baseline_engine.
Import seqid_manager.

Abbreviation IsoStamp := enforcement_engine.IsoStamp (only parsing).
Abbreviation Value := enforcement_engine.Value (only parsing).

Inductive Decision : Type := ACCEPT | REJECT | ALERT.

Record BaselineDecision : Type := {
  decision : Decision;
  reason : string;
  asset_id : string;
  stage : string;
  event : string;
  timestamp_utc : IsoStamp;
  details : list (string * Value)
}.

(** The object state of a [BaselineEngine]: uid -> stage string. *)
Record BaselineEngine : Type := { _stage : gmap string string }.

(** [BaselineEngine()] *)
Definition __init__ : BaselineEngine := {| _stage := ∅ |}.

Definition _get_stage (u : string) (b : BaselineEngine) : string :=
  default "UNREGISTERED" (_stage b !! u).

Definition _set_stage (u st : string) : SE BaselineEngine unit :=
  fun b => (Returned tt, {| _stage := <[u := st]> (_stage b) |}).

(** In each method [wall] is what [_now_iso()] returns if it is called. *)
Definition rfid_read (wall : datetime) (u gateway_id : string)
    (ts_utc : option string) : SE BaselineEngine BaselineDecision :=
  fun b =>
    let t := enforcement_engine.ts_or ts_utc wall in
    let '(_, b1) := _set_stage u "RFID_VERIFIED" b in
    (Returned {| decision := ACCEPT; reason := "RFID_OK"; asset_id := u;
                 stage := _get_stage u b1; event := "RFID_READ";
                 timestamp_utc := t;
                 details := [("gateway_id", enforcement_engine.VStr gateway_id)] |},
     b1).

Definition xrf_report (wall : datetime) (u : string) (purity : Q)
    (scan_duration_s : Z) (contact_ok : bool) (pc_id : string)
    (ts_utc : option string) : SE BaselineEngine BaselineDecision :=
  fun b =>
    let t := enforcement_engine.ts_or ts_utc wall in
    if negb (str_truthy u) then
      (Returned {| decision := REJECT; reason := "NO_UID"; asset_id := u;
                   stage := _get_stage u b; event := "XRF_REPORT";
                   timestamp_utc := t;
                   details := [("pc_id", enforcement_engine.VStr pc_id)] |},
       b)
    else
      let '(_, b1) := _set_stage u "XRF_VERIFIED" b in
      (Returned {| decision := ACCEPT; reason := "XRF_OK_BASELINE"; asset_id := u;
                   stage := _get_stage u b1; event := "XRF_REPORT";
                   timestamp_utc := t;
                   details :=
                     [("pc_id", enforcement_engine.VStr pc_id);
                      ("purity", enforcement_engine.VFloat purity);
                      ("scan_duration_s", enforcement_engine.VInt scan_duration_s);
                      ("contact_ok", enforcement_engine.VBool contact_ok)] |},
       b1).

Definition slot_assigned (wall : datetime) (u slot_id : string)
    (ts_utc : option string) : SE BaselineEngine BaselineDecision :=
  fun b =>
    let t := enforcement_engine.ts_or ts_utc wall in
    let '(_, b1) := _set_stage u "SLOT_BOUND" b in
    (Returned {| decision := ACCEPT; reason := "SLOT_OK_BASELINE"; asset_id := u;
                 stage := _get_stage u b1; event := "SLOT_ASSIGNED";
                 timestamp_utc := t;
                 details := [("slot_id", enforcement_engine.VStr slot_id)] |},
     b1).

Definition storage_confirmed (wall : datetime) (u slot_id : string)
    (ts_utc : option string) : SE BaselineEngine BaselineDecision :=
  fun b =>
    let t := enforcement_engine.ts_or ts_utc wall in
    let '(_, b1) := _set_stage u "STORED" b in
    (Returned {| decision := ACCEPT; reason := "STORED_OK_BASELINE"; asset_id := u;
                 stage := _get_stage u b1; event := "STORAGE_CONFIRMED";
                 timestamp_utc := t;
                 details := [("slot_id", enforcement_engine.VStr slot_id)] |},
     b1).

Definition slot_motion (wall : datetime) (u slot_id : string)
    (ts_utc : option string) : SE BaselineEngine BaselineDecision :=
  fun b =>
    let t := enforcement_engine.ts_or ts_utc wall in
    (Returned {| decision := ALERT; reason := "SLOT_MOTION_BASELINE"; asset_id := u;
                 stage := _get_stage u b; event := "SLOT_MOTION";
                 timestamp_utc := t;
                 details := [("slot_id", enforcement_engine.VStr slot_id)] |},
     b).

(** One baseline operation with its arguments. *)
Inductive BCall : Type :=
| BRfidRead (u gateway_id : string) (ts_utc : option string)
| BXrfReport (u : string) (purity : Q) (scan_duration_s : Z)
    (contact_ok : bool) (pc_id : string) (ts_utc : option string)
| BSlotAssigned (u slot_id : string) (ts_utc : option string)
| BStorageConfirmed (u slot_id : string) (ts_utc : option string)
| BSlotMotion (u slot_id : string) (ts_utc : option string).

Definition bcall_uid (c : BCall) : string :=
  match c with
  | BRfidRead u _ _ | BXrfReport u _ _ _ _ _ | BSlotAssigned u _ _
  | BStorageConfirmed u _ _ | BSlotMotion u _ _ => u
  end.

Definition bcall (wall : datetime) (c : BCall) : SE BaselineEngine BaselineDecision :=
  match c with
  | BRfidRead u g ts => rfid_read wall u g ts
  | BXrfReport u p d k pc ts => xrf_report wall u p d k pc ts
  | BSlotAssigned u sl ts => slot_assigned wall u sl ts
  | BStorageConfirmed u sl ts => storage_confirmed wall u sl ts
  | BSlotMotion u sl ts => slot_motion wall u sl ts
  end.

(** The stage an operation writes, if it writes one. *)
Definition target_stage (c : BCall) : option string :=
  match c with
  | BRfidRead _ _ _ => Some "RFID_VERIFIED"
  | BXrfReport u _ _ _ _ _ => if str_truthy u then Some "XRF_VERIFIED" else None
  | BSlotAssigned _ _ _ => Some "SLOT_BOUND"
  | BStorageConfirmed _ _ _ => Some "STORED"
  | BSlotMotion _ _ _ => None
  end.

End baseline_engine.

(** ** attacks/attack_cases.py *)

Module attack_cases.
Import enforcement_engine.

(** An event payload: a dict from field names to values. *)
Abbreviation Payload := (gmap string Value) (only parsing).

Record AttackCase : Type := {
  name : string;
  description : string;
  apply : Payload → Payload   (* transforms an event payload *)
}.

Definition replay_event : AttackCase :=
  {| name := "REPLAY";
     description := "Replay a previously valid event payload without change.";
     apply := fun e => e |}.

Definition delay_seconds (seconds : Z) : AttackCase :=
  {| name := "DELAY_" ++ pretty seconds ++ "s";
     description := "Delay event timestamp to simulate stale delivery (expiry / delay attack).";
     apply := fun e => <["delay_seconds" := VInt seconds]> e |}.

Definition uid_mismatch (new_uid : string) : AttackCase :=
  {| name := "UID_MISMATCH";
     description := "Change UID inside event to create UID/Seq mismatch scenario.";
     apply := fun e => <["uid" := VStr new_uid]> e |}.

Definition purity_manipulation (new_purity : Q) : AttackCase :=
  {| name := "PURITY_MANIPULATION";
     description := "Manipulate purity value below threshold to trigger sanity failure.";
     apply := fun e => <["purity" := VFloat new_purity]> e |}.

Definition scan_too_short (new_scan_s : Z) : AttackCase :=
  {| name := "SCAN_TOO_SHORT";
     description := "Reduce scan duration to below sanity threshold.";
     apply := fun e => <["scan_duration_s" := VInt new_scan_s]> e |}.

Definition contact_fail : AttackCase :=
  {| name := "CONTACT_FAIL";
     description := "Set contact_ok False to simulate improper XRF contact.";
     apply := fun e => <["contact_ok" := VBool false]> e |}.

End attack_cases.

(** ** experiments/run_attacks.py

    The script without its logging: what it builds, the calls it makes on
    the two engines, and the decisions it gets back.  [None] stands for a
    run that stops on an exception. *)

Module run_attacks.
Import state_machine seqid_manager enforcement_engine attack_cases.

(** The fields of [SystemConfig] the script reads. *)
Record SystemConfig : Type := {
  seq_validity_minutes : Z;
  seq_start_counter : Z;
  cfg_purity_min_percent : Q;
  cfg_scan_duration_min_seconds : Z;
  cfg_contact_required : bool
}.

(** [int(v)], [float(v)], [bool(v)] on the values a payload holds, and the
    use of a value as a [str]; [None] where the conversion is not one of the
    plain cases. *)
Definition py_int (v : Value) : option Z :=
  match v with
  | VInt z => Some z
  | VBool b => Some (if b then 1 else 0)
  | _ => None
  end.

Definition py_float (v : Value) : option Q :=
  match v with
  | VFloat q => Some q
  | VInt z => Some (inject_Z z)
  | VBool b => Some (if b then 1 else 0)%Q
  | _ => None
  end.

Definition py_bool (v : Value) : option bool :=
  match v with
  | VBool b => Some b
  | VInt z => Some (negb (z =? 0))
  | VStr s => Some (str_truthy s)
  | _ => None
  end.

Definition as_str (v : Value) : option string :=
  match v with
  | VStr s => Some s
  | _ => None
  end.

Section script.

(** [add_delay(ts_iso, sec)]: the timestamp text [sec] seconds later.  It goes
    through the datetime parser and printer, kept abstract here; it raises
    when the text does not parse or the later time is past [datetime.max]. *)
Variable add_delay : string → Z → Outcome string.

(** The readings of the clock: [ts0] is the text [now_iso()] returns;
    [w_rfid] and [w_seq] are the clocks of the two set-up calls; [clk i]
    gives, for the i-th attack, the clock of the engine call and the reading
    of the baseline call. *)
Variable ts0 : string.
Variables w_rfid w_seq : WallClock.
Variable clk : nat → WallClock * datetime.

Variable cfg : SystemConfig.

Definition TH : option Thresholds :=
  Some {| purity_min_percent := Some (cfg_purity_min_percent cfg);
          scan_duration_min_seconds := Some (cfg_scan_duration_min_seconds cfg);
          contact_required := Some (cfg_contact_required cfg) |}.

Definition uid : string := "UID123".
Definition gateway_id : string := "GW01".
Definition pc_id : string := "PC01".
Definition slot_id : string := "S-07".

Definition valid_xrf (seq_id : Value) : Payload :=
  <["ts_utc" := VStr ts0]>
  (<["pc_id" := VStr pc_id]>
  (<["contact_ok" := VBool true]>
  (<["scan_duration_s" := VInt 10]>
  (<["purity" := VFloat (996 # 10)%Q]>
  (<["seq_id" := seq_id]>
  (<["uid" := VStr uid]> ∅)))))).

Definition attacks : list AttackCase :=
  [ replay_event;
    delay_seconds (60 * 60);
    uid_mismatch "UID999";
    purity_manipulation (cfg_purity_min_percent cfg - (1 # 2))%Q;
    scan_too_short (Z.max 1 (cfg_scan_duration_min_seconds cfg - 3));
    contact_fail ].

(** One turn of the attack loop: the decisions of the proposed and of the
    baseline engine, and the two engines afterwards. *)
Definition attack_turn (i : nat) (a : AttackCase) (payload : Payload)
    (st : AssetLifecycleEnforcementEngine * baseline_engine.BaselineEngine)
    : option (EnforcementDecision * baseline_engine.BaselineDecision *
              (AssetLifecycleEnforcementEngine * baseline_engine.BaselineEngine)) :=
  let attacked := apply a payload in
  ts_attack ← as_str (default (VStr ts0) (attacked !! "ts_utc"));
  ts_attack ← match attacked !! "delay_seconds" with
              | Some v => sec ← py_int v;
                          match add_delay ts_attack sec with
                          | Returned later => Some later
                          | Raised _ => None
                          end
              | None => Some ts_attack
              end;
  u ← attacked !! "uid" ≫= as_str;
  s ← py_int (default (VInt 0) (attacked !! "seq_id"));
  p ← attacked !! "purity" ≫= py_float;
  d ← attacked !! "scan_duration_s" ≫= py_int;
  k ← attacked !! "contact_ok" ≫= py_bool;
  pc ← attacked !! "pc_id" ≫= as_str;
  match handle_xrf_report (fst (clk i)) u s p d k pc (Some ts_attack) TH (fst st) with
  | (Returned dd, e', _) =>
      match baseline_engine.xrf_report (snd (clk i)) u p d k pc (Some ts_attack)
              (snd st) with
      | (Returned bd, b') => Some (dd, bd, (e', b'))
      | (Raised _, _) => None
      end
  | (Raised _, _, _) => None
  end.

Fixpoint attack_loop (i : nat) (todo : list AttackCase) (payload : Payload)
    (st : AssetLifecycleEnforcementEngine * baseline_engine.BaselineEngine)
    : option (list (EnforcementDecision * baseline_engine.BaselineDecision)) :=
  match todo with
  | [] => Some []
  | a :: todo' =>
      '(dd, bd, st') ← attack_turn i a payload st;
      rest ← attack_loop (S i) todo' payload st';
      Some ((dd, bd) :: rest)
  end.

(** The whole script: the set-up (manager, engines, RFID read, SeqID
    request), then the attack loop on the captured payload. *)
Definition main
    : option (list (EnforcementDecision * baseline_engine.BaselineDecision)) :=
  match seqid_manager.__init__ (seq_start_counter cfg) (seq_validity_minutes cfg) with
  | Raised _ => None
  | Returned seq =>
      let proposed := enforcement_engine.__init__ seq in
      let baseline := baseline_engine.__init__ in
      match handle_rfid_read w_rfid uid gateway_id (Some ts0) proposed with
      | (Raised _, _, _) => None
      | (Returned d1, proposed1, _) =>
          match handle_seq_request w_seq uid (Some ts0) proposed1 with
          | (Raised _, _, _) => None
          | (Returned d2, proposed2, _) =>
              seq_id ← dict_get (details d2) "seq_id";
              attack_loop 0 attacks (valid_xrf seq_id) (proposed2, baseline)
          end
      end
  end.

End script.

(** The configuration [load_system_config] yields when the file sets
    nothing. *)
Definition default_config : SystemConfig :=
  {| seq_validity_minutes := 20; seq_start_counter := 1;
     cfg_purity_min_percent := (99 # 1)%Q;
     cfg_scan_duration_min_seconds := 8;
     cfg_contact_required := true |}.

End run_attacks.

(** ** simulators/rfid_stream_sim.py (the event record) and
       simulators/attack_injector.py *)

Module attack_injector.

Record RFIDEvent : Type := {
  ts_event : Q;
  ts_arrival : Q;
  reader_id : string;
  uid : string;
  window_id : Z
}.

(** [random.random()] reads the shared generator.  The numbers it yields are
    given as a tape, [tape n] being the n-th number drawn; a function takes
    the position of its first draw and returns the position after its last,
    so that calls made one after the other draw on from where the last one
    stopped. *)
Definition Tape : Type := nat → Q.

(** [inject_replay(events, rate)] *)
Fixpoint inject_replay (tape : Tape) (events : list RFIDEvent) (rate : Q)
    (pos : nat) : list RFIDEvent * nat :=
  match events with
  | [] => ([], pos)
  | e :: events' =>
      let this := if enforcement_engine.Qltb (tape pos) rate
                  then [e; e]   (* exact replay *)
                  else [e] in
      let '(rest, pos') := inject_replay tape events' rate (S pos) in
      ((this ++ rest)%list, pos')
  end.

(** [inject_uid_mismatch(events, rate)] *)
Fixpoint inject_uid_mismatch (tape : Tape) (events : list RFIDEvent) (rate : Q)
    (pos : nat) : list RFIDEvent * nat :=
  match events with
  | [] => ([], pos)
  | e :: events' =>
      let this := if enforcement_engine.Qltb (tape pos) rate
                  then {| ts_event := ts_event e; ts_arrival := ts_arrival e;
                          reader_id := reader_id e; uid := "FAKE_UID";
                          window_id := window_id e |}
                  else e in
      let '(rest, pos') := inject_uid_mismatch tape events' rate (S pos) in
      (this :: rest, pos')
  end.

End attack_injector.

Import state_machine seqid_manager enforcement_engine workload.

(** * Properties *)

(** ** The SeqID manager *)

Section manager_facts.
Implicit Types (m : SeqIdManager) (b : SeqBinding) (u : string).

Lemma validate_pure u s now wall m : snd (validate u s now wall m) = m.
Proof.
  unfold validate. destruct (_by_uid m !! u) as [b|]; [|done].
  by repeat case_match.
Qed.

Lemma issue_blank u t wall m :
  blank u = true →
  issue u t wall m = (Raised (ValueError "uid must be non-empty"), m).
Proof. unfold issue, blank. by intros ->. Qed.

Lemma issue_cases u t wall m :
  blank u = false →
  issue u t wall m =
    match _by_uid m !! u with
    | Some b => if active b (now_or t wall) then (Returned b, m)
                else allocate u (now_or t wall) m
    | None => allocate u (now_or t wall) m
    end.
Proof.
  unfold issue, blank, allocate, datetime_add. intros ->. simpl.
  destruct (_by_uid m !! u) as [b|];
    [unfold active, is_expired; simpl; destruct (negb _ && negb _)|];
    try done; by destruct (is_datetime _).
Qed.

(** [issue] branch by branch: it raises on a uid it refuses, hands the
    active binding out again, allocates, or raises with the counter advanced
    when the expiry time is out of range. *)
Lemma issue_outcomes u t wall m :
  (blank u = true ∧
   issue u t wall m = (Raised (ValueError "uid must be non-empty"), m)) ∨
  (blank u = false ∧
   ∃ b, _by_uid m !! u = Some b ∧ active b (now_or t wall) = true ∧
        issue u t wall m = (Returned b, m)) ∨
  (blank u = false ∧
   (∀ b, _by_uid m !! u = Some b → active b (now_or t wall) = false) ∧
   is_datetime (now_or t wall + _validity m) = true ∧
   issue u t wall m
   = (Returned (fresh_binding u (now_or t wall) m),
      with_fresh u (now_or t wall) m)) ∨
  (blank u = false ∧
   (∀ b, _by_uid m !! u = Some b → active b (now_or t wall) = false) ∧
   is_datetime (now_or t wall + _validity m) = false ∧
   issue u t wall m = (Raised OverflowError, bumped m)).
Proof.
  destruct (blank u) eqn:Hb; [left; split; [done|by apply issue_blank]|].
  right. rewrite issue_cases by done. unfold allocate.
  destruct (_by_uid m !! u) as [b|] eqn:Hl.
  - destruct (active b _) eqn:Ha; [left; split; [done|by exists b]|].
    right. destruct (is_datetime _); [left|right];
      (split_and!; [done| |done..]); by intros ? [= <-].
  - right. destruct (is_datetime _); [left|right]; by split_and!.
Qed.

Lemma issue_counter u t wall m :
  _counter m <= _counter (snd (issue u t wall m)).
Proof.
  destruct (issue_outcomes u t wall m)
    as [[_ ->]|[(_ & b & _ & _ & ->)|[(_ & _ & _ & ->)|(_ & _ & _ & ->)]]];
    simpl; lia.
Qed.

Lemma init_wf start mins m :
  seqid_manager.__init__ start mins = Returned m → wf m.
Proof.
  unfold seqid_manager.__init__, timedelta_minutes.
  destruct (start <? 1) eqn:Hs; [done|].
  destruct (mins <? 1) eqn:Hm; [done|].
  destruct (_ && _); [|done].
  intros [= <-]. split; simpl.
  - lia.
  - intros u b Hl. by rewrite lookup_empty in Hl.
Qed.

Lemma bumped_wf m : wf m → wf (bumped m).
Proof.
  intros [Hv Hb]. split; [done|]. simpl. intros u b Hl.
  destruct (Hb _ _ Hl) as (? & ? & ? & ?). repeat split; [done|done|lia|done].
Qed.

Lemma with_fresh_wf u t0 m : blank u = false → wf m → wf (with_fresh u t0 m).
Proof.
  intros Hu [Hv Hb]. split; [done|]. simpl. intros u' b.
  destruct (decide (u = u')) as [<-|Hne].
  - rewrite lookup_insert_eq. intros [= <-]. simpl.
    rewrite lookup_insert_eq. repeat split; [done|lia].
  - rewrite lookup_insert_ne by done. intros Hl.
    destruct (Hb _ _ Hl) as (? & ? & ? & ?).
    repeat split; [done|done|lia|].
    rewrite lookup_insert_ne by lia. done.
Qed.

Lemma issue_wf u t wall m : wf m → wf (snd (issue u t wall m)).
Proof.
  intros Hwf.
  destruct (issue_outcomes u t wall m)
    as [[_ ->]|[(_ & b & _ & _ & ->)|[(? & _ & _ & ->)|(_ & _ & _ & ->)]]];
    simpl; auto using with_fresh_wf, bumped_wf.
Qed.

Lemma mark_used_wf u s m : wf m → wf (snd (mark_used u s m)).
Proof.
  intros Hwf. unfold mark_used.
  destruct (_by_uid m !! u) as [b|] eqn:Hl; [|done].
  destruct (seq_id b =? s) eqn:Hs; simpl; [|done].
  apply Z.eqb_eq in Hs. subst s.
  destruct Hwf as [Hv Hb]. split; [done|]. simpl. intros u' b'.
  destruct (Hb _ _ Hl) as (Hbl & Hu & Hc & Hq).
  destruct (decide (u = u')) as [<-|Hne].
  - rewrite lookup_insert_eq. intros [= <-]. simpl.
    rewrite lookup_insert_eq. done.
  - rewrite lookup_insert_ne by done. intros Hl'.
    destruct (Hb _ _ Hl') as (? & Hu' & ? & Hq').
    repeat split; [done..|].
    destruct (decide (seq_id b = seq_id b')) as [He|He].
    + rewrite He, Hq' in Hq. congruence.
    + by rewrite lookup_insert_ne.
Qed.

Lemma mgr_call_wf wall c m : wf m → wf (snd (mgr_call wall c m)).
Proof.
  intros Hwf. destruct c as [u t|u s now|u s]; simpl.
  - pose proof (issue_wf u t wall m Hwf) as H.
    destruct (issue u t wall m) as [[b|x] m']; done.
  - by rewrite validate_pure.
  - by apply mark_used_wf.
Qed.

Lemma reachable_wf m : reachable m → wf m.
Proof.
  induction 1 as [start mins m Hi|wall c m _ IH].
  - by eapply init_wf.
  - by apply mgr_call_wf.
Qed.

Lemma mgr_call_counter wall c m :
  _counter m <= _counter (snd (mgr_call wall c m)).
Proof.
  destruct c as [u t|u s now|u s]; simpl.
  - pose proof (issue_counter u t wall m) as H.
    destruct (issue u t wall m) as [[b|x] m']; done.
  - by rewrite validate_pure.
  - unfold mark_used. repeat case_match; simpl; lia.
Qed.

(** An allocation hands out the counter's value and moves the counter
    past it. *)
Lemma mgr_call_alloc wall c m i :
  fst (mgr_call wall c m) = Some i →
  i = _counter m ∧ _counter (snd (mgr_call wall c m)) = _counter m + 1.
Proof.
  destruct c as [u t|u s now|u s]; simpl; [|done..].
  destruct (issue_outcomes u t wall m)
    as [[_ ->]|[(_ & b & Hl & _ & ->)|[(_ & _ & _ & ->)|(_ & _ & _ & ->)]]];
    simpl; [done| |by case_bool_decide; [|intros [= <-]]|done].
  by rewrite bool_decide_eq_true_2.
Qed.

End manager_facts.

(** Break a goal and its hypotheses into atoms and close what is immediate. *)
Ltac settle :=
  repeat match goal with
         | |- _ ∧ _ => split
         | |- _ ↔ _ => split
         | |- ∀ _, _ => intro
         | H : ∃ _, _ |- _ => destruct H
         | H : _ ∧ _ |- _ => destruct H
         end;
  simplify_eq; try done; try lia; try congruence; eauto 10.

Lemma allocations_bounds (cs : list (Z * MgrCall)) (m : SeqIdManager) :
  _counter m <= _counter (snd (allocations cs m)) ∧
  Forall (λ i, _counter m <= i) (fst (allocations cs m)).
Proof.
  revert m. induction cs as [|[wall c] cs IH]; intros m; simpl.
  { split; [lia|constructor]. }
  pose proof (mgr_call_counter wall c m) as Hc.
  pose proof (mgr_call_alloc wall c m) as Ha.
  destruct (mgr_call wall c m) as [a m1]. simpl in *.
  destruct (IH m1) as [Hle Hall].
  destruct (allocations cs m1) as [ids m2]. simpl in *.
  split; [lia|].
  assert (Forall (λ i, _counter m <= i) ids) as Hids.
  { eapply Forall_impl; [exact Hall|]. simpl. intros; lia. }
  destruct a as [i|]; [|done].
  constructor; [|done]. destruct (Ha i eq_refl). lia.
Qed.

(** C3. With an explicit [now], [validate] leaves the manager as it was; it
    answers OK exactly when a binding is stored for the uid, carries the
    presented identifier, has [now <= expires_at] and is unused; and otherwise
    it answers the first reason that fails, in the order NO_BINDING_FOR_UID,
    SEQ_MISMATCH, EXPIRED, ALREADY_USED.  The clock reading plays no part. *)
Theorem validate_ok_iff_and_priority (u : string) (s now wall : Z) (m : SeqIdManager) :
  let r := fst (validate u s (Some now) wall m) in
  snd (validate u s (Some now) wall m) = m ∧
  (r = Returned "OK" ↔
     ∃ b, _by_uid m !! u = Some b ∧ seq_id b = s ∧
          now <= expires_at b ∧ used b = false) ∧
  (_by_uid m !! u = None → r = Returned "NO_BINDING_FOR_UID") ∧
  (∀ b, _by_uid m !! u = Some b → seq_id b ≠ s → r = Returned "SEQ_MISMATCH") ∧
  (∀ b, _by_uid m !! u = Some b → seq_id b = s → expires_at b < now →
        r = Returned "EXPIRED") ∧
  (∀ b, _by_uid m !! u = Some b → seq_id b = s → now <= expires_at b →
        used b = true → r = Returned "ALREADY_USED").
Proof.
  intros r. split; [apply validate_pure|].
  subst r. unfold validate, is_expired. simpl.
  destruct (_by_uid m !! u) as [b|] eqn:Hl; [|settle].
  destruct (Z.eqb_spec (seq_id b) s) as [Hs|Hs]; simpl; [|settle].
  destruct (Z.ltb_spec (expires_at b) now) as [Ht|Ht]; simpl; [settle|].
  destruct (used b) eqn:Hu; simpl; settle.
Qed.

(** C7 (as amended). For every uid that [issue] accepts (not empty and not
    made of whitespace only) and every time [now] whose expiry time
    [now + validity] is still a [datetime], on a manager a client can reach,
    [issue(uid, now)] returns a binding, and calling it again with no
    [mark_used] in between returns the same binding, hence the same [seq_id],
    and leaves the manager, hence the counter, as it was.  The same holds for
    a later second call as long as its time is not past [expires_at]. *)
Theorem issue_twice_same_seq_id (u : string) (now wall1 wall2 : Z) (m : SeqIdManager) :
  reachable m → blank u = false → is_datetime (now + _validity m) = true →
  ∃ b1 m1 b2 m2,
    issue u (Some now) wall1 m = (Returned b1, m1) ∧
    issue u (Some now) wall2 m1 = (Returned b2, m2) ∧
    seq_id b2 = seq_id b1 ∧ _counter m2 = _counter m1 ∧ b2 = b1 ∧ m2 = m1 ∧
    (∀ t wall, now_or t wall <= expires_at b1 →
               issue u t wall m1 = (Returned b1, m1)).
Proof.
  intros Hr Hu Hfit. destruct (reachable_wf m Hr) as [Hv _].
  assert (∃ b1 m1, issue u (Some now) wall1 m = (Returned b1, m1) ∧
                   _by_uid m1 !! u = Some b1 ∧ active b1 now = true) as Hfirst.
  { rewrite issue_cases by done. unfold allocate. simpl. rewrite Hfit.
    destruct (_by_uid m !! u) as [b|] eqn:Hl.
    - destruct (active b now) eqn:Ha.
      + by exists b, m.
      + eexists _, _. split; [done|]. simpl. rewrite lookup_insert_eq.
        split; [done|]. unfold active. simpl.
        destruct (Z.ltb_spec (now + _validity m) now); [lia|done].
    - eexists _, _. split; [done|]. simpl. rewrite lookup_insert_eq.
      split; [done|]. unfold active. simpl.
      destruct (Z.ltb_spec (now + _validity m) now); [lia|done]. }
  destruct Hfirst as (b1 & m1 & H1 & Hl1 & Ha1).
  assert (∀ t wall, now_or t wall <= expires_at b1 →
                    issue u t wall m1 = (Returned b1, m1)) as Hagain.
  { intros t wall Ht. rewrite issue_cases by done. rewrite Hl1.
    replace (active b1 (now_or t wall)) with true; [done|].
    unfold active in *. apply andb_prop in Ha1 as [_ ->].
    destruct (Z.ltb_spec (expires_at b1) (now_or t wall)); [lia|done]. }
  exists b1, m1, b1, m1. repeat split; try done.
  apply (Hagain (Some now) wall2). simpl.
  unfold active in Ha1. apply andb_prop in Ha1 as [He _].
  destruct (Z.ltb_spec (expires_at b1) now); [done|lia].
Qed.

Lemma issue_twice_same_seq_id_witness :
  ∃ b1 m1 b2 m2,
    issue "UID123" (Some 0) 5 manager_1_20 = (Returned b1, m1) ∧
    issue "UID123" (Some 0) 7 m1 = (Returned b2, m2) ∧
    seq_id b2 = seq_id b1 ∧ _counter m2 = _counter m1 ∧ b2 = b1 ∧ m2 = m1 ∧
    (∀ t wall, now_or t wall <= expires_at b1 →
               issue "UID123" t wall m1 = (Returned b1, m1)).
Proof.
  apply (issue_twice_same_seq_id "UID123" 0 5 7 manager_1_20).
  - apply (reach_init 1 20). reflexivity.
  - reflexivity.
  - reflexivity.
Defined.

(** C7, the claim as worded: a uid of one space, or of one no-break space,
    is not empty, yet [issue] raises on it and returns no binding; and for
    the uid "A" at the last microsecond a [datetime] can hold, [issue]
    raises OverflowError both times, each call advancing the counter. *)
Lemma issue_whitespace_uid_raises :
  reachable manager_1_20 ∧ " " ≠ "" ∧
  issue " " (Some 0) 0 manager_1_20
  = (Raised (ValueError "uid must be non-empty"), manager_1_20) ∧
  utf8 0xA0 ≠ "" ∧
  issue (utf8 0xA0) (Some 0) 0 manager_1_20
  = (Raised (ValueError "uid must be non-empty"), manager_1_20) ∧
  "A" ≠ "" ∧
  issue "A" (Some datetime_max) 0 manager_1_20
  = (Raised OverflowError, bumped manager_1_20) ∧
  issue "A" (Some datetime_max) 0 (bumped manager_1_20)
  = (Raised OverflowError, bumped (bumped manager_1_20)) ∧
  _counter (bumped (bumped manager_1_20)) = _counter manager_1_20 + 2.
Proof.
  split; [apply (reach_init 1 20); reflexivity|].
  split_and!; try done; vm_compute; reflexivity.
Qed.

(** C10. On a manager a client can reach, when the binding stored for a uid
    is expired or used and [issue] is called for that uid at a time whose
    expiry time is still a [datetime] (so that [issue] returns), a fresh
    binding is allocated; the old binding stays in the by-seq index under
    its identifier; and [validate] for that uid with the old identifier
    answers SEQ_MISMATCH at every time, since it looks the uid up and
    compares identifiers first. *)
Theorem reissue_old_seq_id_mismatch (u : string) (t : option Z) (wall : Z)
    (m : SeqIdManager) (b_old : SeqBinding) :
  reachable m →
  _by_uid m !! u = Some b_old →
  is_expired b_old (Some (now_or t wall)) wall = true ∨ used b_old = true →
  is_datetime (now_or t wall + _validity m) = true →
  ∃ b_new m',
    issue u t wall m = (Returned b_new, m') ∧
    seq_id b_new = _counter m ∧ seq_id b_new ≠ seq_id b_old ∧
    _by_uid m' !! u = Some b_new ∧
    _by_seq m' !! seq_id b_old = Some b_old ∧
    ∀ now wall',
      validate u (seq_id b_old) now wall' m' = (Returned "SEQ_MISMATCH", m').
Proof.
  intros Hr Hl Hdead Hfit. destruct (reachable_wf m Hr) as [_ Hb].
  destruct (Hb _ _ Hl) as (Hu & _ & Hlt & Hq).
  exists (fresh_binding u (now_or t wall) m), (with_fresh u (now_or t wall) m).
  assert (active b_old (now_or t wall) = false) as Ha.
  { unfold active. unfold is_expired in Hdead. simpl in Hdead.
    destruct Hdead as [->| ->]; [done|]. by rewrite andb_false_r. }
  split; [rewrite issue_cases, Hl, Ha by done; unfold allocate; by rewrite Hfit|].
  simpl.
  split; [done|]. split; [lia|]. rewrite lookup_insert_eq. split; [done|].
  rewrite lookup_insert_ne by lia. split; [done|].
  intros now wall'. unfold validate. simpl. rewrite lookup_insert_eq. simpl.
  destruct (Z.eqb_spec (_counter m) (seq_id b_old)); [lia|done].
Qed.

Lemma reissue_old_seq_id_mismatch_witness :
  let m := snd (mgr_call 1 (MarkUsed "A" 1)
                  (snd (mgr_call 0 (Issue "A" None) manager_1_20))) in
  let b_old := {| uid := "A"; seq_id := 1; issued_at := 0;
                  expires_at := 1200000000; used := true |} in
  ∃ b_new m',
    issue "A" None 2 m = (Returned b_new, m') ∧
    seq_id b_new = _counter m ∧ seq_id b_new ≠ seq_id b_old ∧
    _by_uid m' !! "A" = Some b_new ∧
    _by_seq m' !! seq_id b_old = Some b_old ∧
    ∀ now wall',
      validate "A" (seq_id b_old) now wall' m' = (Returned "SEQ_MISMATCH", m').
Proof.
  intros m b_old.
  apply (reissue_old_seq_id_mismatch "A" None 2 m b_old).
  - apply reach_call, reach_call, (reach_init 1 20). reflexivity.
  - vm_compute. reflexivity.
  - right. reflexivity.
  - reflexivity.
Defined.

(** ** The engine *)

#[local] Arguments issue : simpl never.
#[local] Arguments validate : simpl never.
#[local] Arguments mark_used : simpl never.


Lemma get_fsm_run u e : _get_fsm u e = (Returned u, ensure_fsm u e, []).
Proof. unfold ensure_fsm, _get_fsm. by destruct (_fsms e !! u). Qed.

Lemma ensure_fsm_lookup u e :
  _fsms (ensure_fsm u e) !! u = Some {| _state := current_state e u |}.
Proof.
  unfold ensure_fsm, _get_fsm, current_state.
  destruct (_fsms e !! u) as [[st]|] eqn:Hf; simpl; [done|].
  by rewrite lookup_insert_eq.
Qed.

Lemma ensure_fsm_seq u e : seq (ensure_fsm u e) = seq e.
Proof. unfold ensure_fsm, _get_fsm. by destruct (_fsms e !! u). Qed.

Lemma ensure_fsm_state u e u' :
  current_state (ensure_fsm u e) u' = current_state e u'.
Proof.
  unfold ensure_fsm, _get_fsm, current_state.
  destruct (_fsms e !! u) as [f|] eqn:Hf; simpl; [done|].
  destruct (decide (u = u')) as [<-|Hne].
  - by rewrite lookup_insert_eq, Hf.
  - by rewrite lookup_insert_ne.
Qed.

Lemma ensure_fsm_present u e :
  current_state e u ≠ UNREGISTERED → ensure_fsm u e = e.
Proof.
  unfold ensure_fsm, _get_fsm, current_state.
  by destruct (_fsms e !! u) as [f|] eqn:Hf.
Qed.

Lemma current_state_insert u f e m u' :
  current_state {| seq := m; _fsms := <[u := f]> (_fsms e) |} u'
  = if decide (u = u') then _state f else current_state e u'.
Proof.
  unfold current_state. simpl. case_decide as Hd.
  - subst. by rewrite lookup_insert_eq.
  - by rewrite lookup_insert_ne.
Qed.

Lemma current_state_seq e m u' :
  current_state {| seq := m; _fsms := _fsms e |} u' = current_state e u'.
Proof. done. Qed.

Lemma validate_returns u s now wall m :
  ∃ r, validate u s now wall m = (Returned r, m).
Proof.
  unfold validate. destruct (_by_uid m !! u); [|by eexists].
  repeat case_match; by eexists.
Qed.

Lemma mark_used_returns u s m : ∃ r m', mark_used u s m = (Returned r, m').
Proof.
  unfold mark_used. destruct (_by_uid m !! u); [|by eexists _, _].
  case_match; by eexists _, _.
Qed.

Lemma eta_engine e : {| seq := seq e; _fsms := _fsms e |} = e.
Proof. by destruct e. Qed.

Ltac enter_handler u e :=
  unfold bind; rewrite (get_fsm_run u e); cbv beta iota;
  let Hf0 := fresh "Hf0" in
  let Hs0 := fresh "Hs0" in
  let Hc0 := fresh "Hc0" in
  let Hp0 := fresh "Hp0" in
  pose proof (ensure_fsm_lookup u e) as Hf0;
  pose proof (ensure_fsm_seq u e) as Hs0;
  pose proof (ensure_fsm_state u e) as Hc0;
  pose proof (ensure_fsm_present u e) as Hp0;
  generalize dependent (ensure_fsm u e); intros e0 Hf0 Hs0 Hc0 Hp0;
  unfold fsm_state, on_fsm, on_seq, ret; cbv beta iota; rewrite ?Hf0.

Ltac crank Hf0 := repeat (progress (simpl; rewrite ?Hf0)).

Ltac finish_effect Hf0 Hc0 :=
  intros [= <- <- <-]; crank Hf0;
  split;
  [ let u' := fresh "u'" in let Hne := fresh "Hne" in
    intros u' Hne;
    rewrite ?current_state_insert, ?current_state_seq;
    try (rewrite decide_False by done); by rewrite ?Hc0
  | rewrite ?current_state_insert, ?current_state_seq;
    try (rewrite decide_True by done); simpl;
    rewrite ?Hc0; repeat split; try done; try congruence ].

Lemma call_effect w c e o e' tr :
  call w c e = (o, e', tr) →
  (∀ u', u' ≠ call_uid c → current_state e' u' = current_state e u') ∧
  match o with
  | Returned d =>
      asset_id d = call_uid c ∧ prev_state d = current_state e (call_uid c) ∧
      next_state d = current_state e' (call_uid c) ∧
      match decision d with
      | ACCEPT => happy_events !! idx (prev_state d) = Some (event d) ∧
                  idx (next_state d) = S (idx (prev_state d))
      | REJECT | ALERT => next_state d = prev_state d ∧ seq e' = seq e
      end
  | Raised x =>
      (∃ ts, c = SeqRequest (call_uid c) ts) ∧
      current_state e (call_uid c) = RFID_VERIFIED ∧
      _fsms e' = _fsms e ∧
      ((x = ValueError "uid must be non-empty" ∧
        blank (call_uid c) = true ∧ e' = e) ∨
       (x = OverflowError ∧ blank (call_uid c) = false ∧
        (∀ b, _by_uid (seq e) !! call_uid c = Some b →
              active b (at_seq w) = false) ∧
        is_datetime (at_seq w + _validity (seq e)) = false ∧
        seq e' = bumped (seq e)))
  end.
Proof.
  destruct c as [u g ts|u ts|u s p d k pc ts th|u sl ts|u sl ts|u sl ts]; simpl.
  - unfold handle_rfid_read. enter_handler u e.
    destruct (current_state e u) eqn:Hst; crank Hf0; finish_effect Hf0 Hc0.
  - unfold handle_seq_request. enter_handler u e.
    destruct (current_state e u) eqn:Hst; crank Hf0;
      try solve [finish_effect Hf0 Hc0].
    rewrite Hp0 in * by done. clear Hp0.
    destruct (issue_outcomes u None (at_seq w) (seq e))
      as [[Hb ->]|[(_ & b & _ & _ & ->)|[(_ & _ & _ & ->)|(Hb & Hna & Hfit & ->)]]].
    + intros [= <- <- <-]. rewrite eta_engine. split; [done|].
      split_and!; eauto.
    + crank Hf0. finish_effect Hf0 Hc0.
    + crank Hf0. finish_effect Hf0 Hc0.
    + intros [= <- <- <-]. split; [done|]. split_and!; eauto.
      right. by split_and!.
  - unfold handle_xrf_report. enter_handler u e.
    destruct (current_state e u) eqn:Hst; crank Hf0;
      try solve [finish_effect Hf0 Hc0].
    destruct (validate_returns u s None (at_seq w) (seq e0)) as [r ->].
    destruct (String.eqb r "OK"); crank Hf0; [|finish_effect Hf0 Hc0].
    destruct (Qltb p _); crank Hf0; [finish_effect Hf0 Hc0|].
    destruct (d <? _); crank Hf0; [finish_effect Hf0 Hc0|].
    destruct (_ && negb k); crank Hf0; [finish_effect Hf0 Hc0|].
    destruct (mark_used_returns u s (seq e0)) as (r' & m' & ->).
    finish_effect Hf0 Hc0.
  - unfold handle_slot_assigned. enter_handler u e.
    destruct (current_state e u) eqn:Hst; crank Hf0; finish_effect Hf0 Hc0.
  - unfold handle_storage_confirmed. enter_handler u e.
    destruct (current_state e u) eqn:Hst; crank Hf0; finish_effect Hf0 Hc0.
  - unfold handle_slot_motion. enter_handler u e.
    destruct (current_state e u) eqn:Hst; crank Hf0; finish_effect Hf0 Hc0.
Qed.

(** *** The verification report, branch by branch *)

Lemma xrf_gate w u s p d k pc ts th e :
  current_state e u ≠ SEQ_BOUND →
  handle_xrf_report w u s p d k pc ts th e =
  (Returned (_reject_simple (at_stamp w) u (current_state e u)
               XRF_REPORT_ACCEPTED "STATE_NOT_SEQ_BOUND" [("pc_id", VStr pc)]),
   ensure_fsm u e, [ReadState u; ReadState u]).
Proof.
  intros Hst. unfold handle_xrf_report. enter_handler u e.
  destruct (current_state e u) eqn:Hcur; crank Hf0; done.
Qed.

Lemma xrf_invalid w u s p d k pc ts th e r :
  current_state e u = SEQ_BOUND →
  fst (validate u s None (at_seq w) (seq e)) = Returned r → r ≠ "OK" →
  handle_xrf_report w u s p d k pc ts th e =
  (Returned (_reject_simple (at_stamp w) u SEQ_BOUND XRF_REPORT_ACCEPTED
               ("SEQ_INVALID:" ++ r) [("pc_id", VStr pc); ("seq_id", VInt s)]),
   e, [ReadState u; CallValidate u s; ReadState u]).
Proof.
  intros Hst Hv Hr. unfold handle_xrf_report. enter_handler u e.
  rewrite Hst in *. rewrite Hp0 in * by done. clear Hp0. crank Hf0.
  destruct (validate_returns u s None (at_seq w) (seq e)) as [r' Hv'].
  rewrite Hv' in *. simpl in Hv. injection Hv as ->.
  destruct (String.eqb_spec r "OK") as [|_]; [done|].
  crank Hf0. by rewrite eta_engine.
Qed.

Lemma xrf_checked w u s p d k pc ts th e :
  current_state e u = SEQ_BOUND →
  fst (validate u s None (at_seq w) (seq e)) = Returned "OK" →
  handle_xrf_report w u s p d k pc ts th e =
  if Qltb p (purity_min_of th) then
    (Returned (_reject_simple (at_stamp w) u SEQ_BOUND XRF_REPORT_ACCEPTED
                 "SANITY_FAIL:PURITY_TOO_LOW"
                 [("purity", VFloat p); ("purity_min", VFloat (purity_min_of th));
                  ("pc_id", VStr pc)]),
     e, [ReadState u; CallValidate u s; ReadState u])
  else if d <? scan_min_of th then
    (Returned (_reject_simple (at_stamp w) u SEQ_BOUND XRF_REPORT_ACCEPTED
                 "SANITY_FAIL:SCAN_TOO_SHORT"
                 [("scan_duration_s", VInt d); ("scan_min", VInt (scan_min_of th));
                  ("pc_id", VStr pc)]),
     e, [ReadState u; CallValidate u s; ReadState u])
  else if contact_required_of th && negb k then
    (Returned (_reject_simple (at_stamp w) u SEQ_BOUND XRF_REPORT_ACCEPTED
                 "SANITY_FAIL:CONTACT_NOT_OK"
                 [("contact_ok", VBool k); ("pc_id", VStr pc)]),
     e, [ReadState u; CallValidate u s; ReadState u])
  else
    (Returned (_accept (at_stamp w) u
                 {| accepted := true; state_machine.prev_state := SEQ_BOUND;
                    state_machine.event := XRF_REPORT_ACCEPTED;
                    state_machine.next_state := XRF_VERIFIED;
                    state_machine.reason := "STATE_ADVANCED" |}
                 [("pc_id", VStr pc); ("seq_id", VInt s); ("purity", VFloat p);
                  ("scan_duration_s", VInt d); ("contact_ok", VBool k)]),
     {| seq := snd (mark_used u s (seq e));
        _fsms := <[u := {| _state := XRF_VERIFIED |}]> (_fsms e) |},
     [ReadState u; CallValidate u s; CallApply u XRF_REPORT_ACCEPTED;
      CallMarkUsed u s]).
Proof.
  intros Hst Hv. unfold handle_xrf_report. enter_handler u e.
  rewrite Hst in *. rewrite Hp0 in * by done. clear Hp0. crank Hf0.
  destruct (validate_returns u s None (at_seq w) (seq e)) as [r' Hv'].
  rewrite Hv' in *. simpl in Hv. injection Hv as ->.
  unfold purity_min_of, scan_min_of, contact_required_of.
  crank Hf0.
  destruct (Qltb p _); crank Hf0; [by rewrite eta_engine|].
  destruct (d <? _); crank Hf0; [by rewrite eta_engine|].
  destruct (_ && negb k); crank Hf0; [by rewrite eta_engine|].
  destruct (mark_used_returns u s (seq e)) as (r' & m' & ->). done.
Qed.

Lemma validate_ok_inv u s now wall m :
  fst (validate u s now wall m) = Returned "OK" →
  ∃ b, _by_uid m !! u = Some b ∧ seq_id b = s ∧ used b = false ∧
       now_or now wall <= expires_at b.
Proof.
  unfold validate, is_expired. simpl.
  destruct (_by_uid m !! u) as [b|]; [|done].
  destruct (Z.eqb_spec (seq_id b) s); simpl; [|done].
  destruct (Z.ltb_spec (expires_at b) (now_or now wall)); simpl; [done|].
  destruct (used b) eqn:Hu; simpl; [done|]. intros _. by exists b.
Qed.

Lemma mark_used_found u s m b :
  _by_uid m !! u = Some b → seq_id b = s →
  mark_used u s m =
  (Returned "OK",
   {| _counter := _counter m; _validity := _validity m;
      _by_uid := <[u := as_used b]> (_by_uid m);
      _by_seq := <[s := as_used b]> (_by_seq m) |}).
Proof.
  intros Hl Hs. unfold mark_used. rewrite Hl.
  destruct (Z.eqb_spec (seq_id b) s); [done|done].
Qed.

Lemma validate_found u s now wall m b :
  _by_uid m !! u = Some b → seq_id b = s →
  fst (validate u s now wall m) =
  Returned (if expires_at b <? now_or now wall then "EXPIRED"
            else if used b then "ALREADY_USED" else "OK").
Proof.
  intros Hl Hs. unfold validate, is_expired. rewrite Hl.
  destruct (Z.eqb_spec (seq_id b) s); [|done]. simpl.
  by repeat case_match.
Qed.

(** C1 (as amended). Once a verification report has been accepted, the asset
    is XRF_VERIFIED and its binding is marked used; a second report for the
    same (uid, seq_id), whatever else it carries and whenever it comes, is
    answered REJECT with reason STATE_NOT_SEQ_BOUND by the state gate,
    before the identity is looked at; the engine is left as it was, so the
    asset stays XRF_VERIFIED.  (Asked directly, the manager says
    ALREADY_USED for that pair for as long as the binding has not expired.) *)
Theorem replayed_report_rejected_by_state_gate
    (w1 w2 : WallClock) (u : string) (s : Z)
    (p1 : Q) (d1 : Z) (k1 : bool) (pc1 : string) (ts1 : option string)
    (th1 : option Thresholds)
    (p2 : Q) (d2 : Z) (k2 : bool) (pc2 : string) (ts2 : option string)
    (th2 : option Thresholds)
    (e e1 : AssetLifecycleEnforcementEngine) (dd1 : EnforcementDecision)
    (tr1 : list Step) :
  handle_xrf_report w1 u s p1 d1 k1 pc1 ts1 th1 e = (Returned dd1, e1, tr1) →
  decision dd1 = ACCEPT →
  prev_state dd1 = SEQ_BOUND ∧ next_state dd1 = XRF_VERIFIED ∧
  current_state e1 u = XRF_VERIFIED ∧
  ∃ dd2,
    handle_xrf_report w2 u s p2 d2 k2 pc2 ts2 th2 e1
    = (Returned dd2, e1, [ReadState u; ReadState u]) ∧
    decision dd2 = REJECT ∧ reason dd2 = "STATE_NOT_SEQ_BOUND" ∧
    prev_state dd2 = XRF_VERIFIED ∧ next_state dd2 = XRF_VERIFIED ∧
    ∃ b, _by_uid (seq e1) !! u = Some b ∧ seq_id b = s ∧ used b = true ∧
         ∀ now wall, now <= expires_at b →
           fst (validate u s (Some now) wall (seq e1)) = Returned "ALREADY_USED".
Proof.
  intros H1 Hacc.
  destruct (decide (current_state e u = SEQ_BOUND)) as [Hst|Hst];
    [|rewrite xrf_gate in H1 by done; by simplify_eq].
  destruct (validate_returns u s None (at_seq w1) (seq e)) as [r Hv].
  destruct (decide (r = "OK")) as [->|Hr];
    [|erewrite xrf_invalid in H1 by (by rewrite ?Hv); by simplify_eq].
  rewrite xrf_checked in H1 by (by rewrite ?Hv).
  repeat case_match; simplify_eq; try done.
  destruct (validate_ok_inv u s None (at_seq w1) (seq e)) as (b & Hl & Hs & Hu & Ht);
    [by rewrite Hv|].
  rewrite (mark_used_found _ _ _ _ Hl Hs). simpl.
  set (e1 := {| seq := _; _fsms := _ |}).
  assert (current_state e1 u = XRF_VERIFIED) as Hst1.
  { unfold e1. rewrite current_state_insert. by rewrite decide_True. }
  repeat split; [done|].
  eexists. rewrite xrf_gate by (by rewrite Hst1).
  rewrite ensure_fsm_present by (by rewrite Hst1). rewrite Hst1.
  split; [done|]. repeat split.
  exists (as_used b). simpl. rewrite lookup_insert_eq. repeat split; [done|].
  intros now wall Hnow.
  erewrite validate_found; [|apply lookup_insert_eq|done]. simpl.
  destruct (Z.ltb_spec (expires_at b) now); [lia|done].
Qed.

Lemma replayed_report_rejected_by_state_gate_witness :
  ∃ dd1 e1 tr1,
    handle_xrf_report (clock 60000000) "A" 1 (996 # 10)%Q 10 true "PC01" None
      THRESHOLDS engine_A_seq_bound = (Returned dd1, e1, tr1) ∧
    decision dd1 = ACCEPT ∧
    prev_state dd1 = SEQ_BOUND ∧ next_state dd1 = XRF_VERIFIED ∧
    current_state e1 "A" = XRF_VERIFIED ∧
    ∃ dd2,
      handle_xrf_report (clock 60000000) "A" 1 (996 # 10)%Q 10 true "PC01" None
        THRESHOLDS e1 = (Returned dd2, e1, [ReadState "A"; ReadState "A"]) ∧
      decision dd2 = REJECT ∧ reason dd2 = "STATE_NOT_SEQ_BOUND" ∧
      prev_state dd2 = XRF_VERIFIED ∧ next_state dd2 = XRF_VERIFIED ∧
      ∃ b, _by_uid (seq e1) !! "A" = Some b ∧ seq_id b = 1 ∧ used b = true ∧
           ∀ now wall, now <= expires_at b →
             fst (validate "A" 1 (Some now) wall (seq e1)) = Returned "ALREADY_USED".
Proof.
  eexists _, _, _. split; [vm_compute; reflexivity|].
  split; [reflexivity|].
  eapply (replayed_report_rejected_by_state_gate
            (clock 60000000) (clock 60000000) "A" 1
            (996 # 10)%Q 10 true "PC01" None THRESHOLDS
            (996 # 10)%Q 10 true "PC01" None THRESHOLDS engine_A_seq_bound).
  - vm_compute. reflexivity.
  - reflexivity.
Defined.

(** C1, the claim as worded: on the scenario of the specification (asset
    "A", twenty-minute window, purity 99.6, scan of 10 s, contact true, one
    minute after issuance) the report is accepted and the asset moves from
    SEQ_BOUND to XRF_VERIFIED; presented again, the same report is rejected,
    but with reason STATE_NOT_SEQ_BOUND, not SEQ_INVALID:ALREADY_USED. *)
Lemma replayed_report_reason_is_not_already_used :
  ∃ dd1 e1 tr1 dd2 e2 tr2,
    handle_xrf_report (clock 60000000) "A" 1 (996 # 10)%Q 10 true "PC01" None
      THRESHOLDS engine_A_seq_bound = (Returned dd1, e1, tr1) ∧
    decision dd1 = ACCEPT ∧
    prev_state dd1 = SEQ_BOUND ∧ next_state dd1 = XRF_VERIFIED ∧
    handle_xrf_report (clock 60000000) "A" 1 (996 # 10)%Q 10 true "PC01" None
      THRESHOLDS e1 = (Returned dd2, e2, tr2) ∧
    decision dd2 = REJECT ∧
    reason dd2 = "STATE_NOT_SEQ_BOUND" ∧
    reason dd2 ≠ "SEQ_INVALID:ALREADY_USED".
Proof.
  eexists _, _, _, _, _, _. split; [vm_compute; reflexivity|].
  split; [reflexivity|]. split; [reflexivity|]. split; [reflexivity|].
  split; [vm_compute; reflexivity|].
  split; [reflexivity|]. split; [reflexivity|]. discriminate.
Qed.

(** C2. Two verification reports on the same engine state with the same
    arguments, timestamp included, that differ only in what the wall clock
    shows when they run: one minute after issuance the report is accepted,
    twenty-one minutes after it is rejected as expired.  The handler never
    hands its [ts_utc] to [validate], which then reads the clock itself. *)
Lemma report_decision_depends_on_wall_clock :
  ∃ dd1 e1 tr1 dd2 e2 tr2,
    handle_xrf_report (clock 60000000) "A" 1 (996 # 10)%Q 10 true "PC01"
      (Some "1970-01-01T00:01:00+00:00") THRESHOLDS engine_A_seq_bound
    = (Returned dd1, e1, tr1) ∧
    handle_xrf_report (clock 1260000000) "A" 1 (996 # 10)%Q 10 true "PC01"
      (Some "1970-01-01T00:01:00+00:00") THRESHOLDS engine_A_seq_bound
    = (Returned dd2, e2, tr2) ∧
    decision dd1 = ACCEPT ∧ reason dd1 = "STATE_ADVANCED" ∧
    decision dd2 = REJECT ∧ reason dd2 = "SEQ_INVALID:EXPIRED".
Proof.
  eexists _, _, _, _, _, _. split; [vm_compute; reflexivity|].
  split; [vm_compute; reflexivity|]. repeat split.
Qed.

Lemma Qltb_lt (x y : Q) : Qltb x y = true ↔ (x < y)%Q.
Proof.
  unfold Qltb. rewrite negb_true_iff, <- not_true_iff_false, Qle_bool_iff.
  split; [apply Qnot_le_lt|apply Qlt_not_le].
Qed.

(** C4. The verification-report handler checks in the order state gate,
    identity, sanity thresholds, state transition, identity consumption.
    - Outside SEQ_BOUND it answers STATE_NOT_SEQ_BOUND having only read the
      state: the manager is not consulted.
    - In SEQ_BOUND with an identity that [validate] refuses for reason [r],
      it answers SEQ_INVALID:r whatever the measurements and thresholds
      are, also when they fail, and leaves the engine as it was.
    - In SEQ_BOUND with a valid identity and a measurement that fails its
      threshold, it answers with the first failing one of PURITY_TOO_LOW,
      SCAN_TOO_SHORT, CONTACT_NOT_OK, having read the state and called
      [validate] only: neither [fsm.apply] nor [mark_used] has run, the
      engine is as it was and the asset is still SEQ_BOUND.
    - In SEQ_BOUND with a valid identity and measurements that meet the
      thresholds, it answers ACCEPT.
    - An accepted call made exactly the calls: read the state, [validate],
      [fsm.apply], [mark_used], in that order; after [fsm.apply] the asset
      is XRF_VERIFIED while its binding is still unused, and only the
      [mark_used] that follows sets the flag. *)
Theorem report_checks_in_order
    (w : WallClock) (u : string) (s : Z) (p : Q) (d : Z) (k : bool)
    (pc : string) (ts : option string) (th : option Thresholds)
    (e : AssetLifecycleEnforcementEngine) :
  (current_state e u ≠ SEQ_BOUND →
   ∃ dd, handle_xrf_report w u s p d k pc ts th e
         = (Returned dd, ensure_fsm u e, [ReadState u; ReadState u]) ∧
         decision dd = REJECT ∧ reason dd = "STATE_NOT_SEQ_BOUND") ∧
  (∀ r, current_state e u = SEQ_BOUND →
        fst (validate u s None (at_seq w) (seq e)) = Returned r → r ≠ "OK" →
   ∃ dd, handle_xrf_report w u s p d k pc ts th e
         = (Returned dd, e, [ReadState u; CallValidate u s; ReadState u]) ∧
         decision dd = REJECT ∧ reason dd = "SEQ_INVALID:" ++ r) ∧
  (∀ rsn, current_state e u = SEQ_BOUND →
          fst (validate u s None (at_seq w) (seq e)) = Returned "OK" →
          ((p < purity_min_of th)%Q ∧ rsn = "SANITY_FAIL:PURITY_TOO_LOW") ∨
          ((purity_min_of th <= p)%Q ∧ d < scan_min_of th ∧
           rsn = "SANITY_FAIL:SCAN_TOO_SHORT") ∨
          ((purity_min_of th <= p)%Q ∧ scan_min_of th <= d ∧
           contact_required_of th = true ∧ k = false ∧
           rsn = "SANITY_FAIL:CONTACT_NOT_OK") →
   ∃ dd, handle_xrf_report w u s p d k pc ts th e
         = (Returned dd, e, [ReadState u; CallValidate u s; ReadState u]) ∧
         decision dd = REJECT ∧ reason dd = rsn ∧
         prev_state dd = SEQ_BOUND ∧ next_state dd = SEQ_BOUND ∧
         current_state e u = SEQ_BOUND ∧
         fst (validate u s None (at_seq w) (seq e)) = Returned "OK") ∧
  (current_state e u = SEQ_BOUND →
   fst (validate u s None (at_seq w) (seq e)) = Returned "OK" →
   (purity_min_of th <= p)%Q → scan_min_of th <= d →
   (contact_required_of th = true → k = true) →
   ∃ dd e2 tr, handle_xrf_report w u s p d k pc ts th e = (Returned dd, e2, tr) ∧
               decision dd = ACCEPT) ∧
  (∀ dd e2 tr,
     handle_xrf_report w u s p d k pc ts th e = (Returned dd, e2, tr) →
     decision dd = ACCEPT →
     tr = [ReadState u; CallValidate u s; CallApply u XRF_REPORT_ACCEPTED;
           CallMarkUsed u s] ∧
     ∃ b t e1,
       current_state e u = SEQ_BOUND ∧
       _by_uid (seq e) !! u = Some b ∧ seq_id b = s ∧ used b = false ∧
       on_fsm u (CallApply u XRF_REPORT_ACCEPTED) (apply XRF_REPORT_ACCEPTED) e
       = (Returned t, e1, [CallApply u XRF_REPORT_ACCEPTED]) ∧
       accepted t = true ∧
       current_state e1 u = XRF_VERIFIED ∧ _by_uid (seq e1) !! u = Some b ∧
       on_seq (CallMarkUsed u s) (mark_used u s) e1
       = (Returned "OK", e2, [CallMarkUsed u s]) ∧
       current_state e2 u = XRF_VERIFIED ∧
       _by_uid (seq e2) !! u = Some (as_used b)).
Proof.
  assert (∀ x y : Q, (y <= x)%Q → Qltb x y = false) as Hge.
  { intros x y Hle. apply not_true_iff_false. rewrite Qltb_lt.
    by apply Qle_not_lt. }
  split; [|split; [|split; [|split]]].
  - intros Hst. eexists. by rewrite xrf_gate.
  - intros r Hst Hv Hr. eexists. by erewrite xrf_invalid.
  - intros rsn Hst Hv Hfail. rewrite xrf_checked by done.
    destruct Hfail as [[Hp ->]|[(Hp & Hd & ->)|(Hp & Hd & Hc & -> & ->)]].
    + apply Qltb_lt in Hp. rewrite Hp. by eexists.
    + rewrite (Hge _ _ Hp).
      destruct (Z.ltb_spec d (scan_min_of th)); [|lia]. by eexists.
    + rewrite (Hge _ _ Hp), Hc.
      destruct (Z.ltb_spec d (scan_min_of th)); [lia|]. by eexists.
  - intros Hst Hv Hp Hd Hc. rewrite xrf_checked by done.
    rewrite (Hge _ _ Hp).
    destruct (Z.ltb_spec d (scan_min_of th)); [lia|].
    destruct (contact_required_of th); [rewrite Hc by done|]; by eexists _, _, _.
  - intros dd e2 tr H Hacc.
    destruct (decide (current_state e u = SEQ_BOUND)) as [Hst|Hst];
      [|rewrite xrf_gate in H by done; by simplify_eq].
    destruct (validate_returns u s None (at_seq w) (seq e)) as [r Hv].
    destruct (decide (r = "OK")) as [->|Hr];
      [|erewrite xrf_invalid in H by (by rewrite ?Hv); by simplify_eq].
    rewrite xrf_checked in H by (by rewrite ?Hv).
    repeat case_match; simplify_eq; try done.
    split; [done|].
    destruct (validate_ok_inv u s None (at_seq w) (seq e))
      as (b & Hl & Hs & Hu & Ht); [by rewrite Hv|].
    assert (_fsms e !! u = Some {| _state := SEQ_BOUND |}) as Hf.
    { unfold current_state in Hst.
      destruct (_fsms e !! u) as [[st]|]; simpl in *; by subst. }
    exists b. eexists _.
    exists {| seq := seq e;
              _fsms := <[u := {| _state := XRF_VERIFIED |}]> (_fsms e) |}.
    split; [done|]. split; [done|].
    split; [done|]. split; [done|].
    unfold on_fsm, on_seq. rewrite Hf. simpl.
    rewrite !(mark_used_found _ _ _ _ Hl Hs). simpl.
    rewrite !current_state_insert, !decide_True by done. simpl.
    rewrite lookup_insert_eq. done.
Qed.

Lemma report_checks_in_order_witness :
  (∃ dd, handle_xrf_report (clock 60000000) "A" 7 (985 # 10)%Q 3 false "PC01"
           None THRESHOLDS engine_A_seq_bound
         = (Returned dd, engine_A_seq_bound,
            [ReadState "A"; CallValidate "A" 7; ReadState "A"]) ∧
         decision dd = REJECT ∧ reason dd = "SEQ_INVALID:SEQ_MISMATCH") ∧
  (∃ dd, handle_xrf_report (clock 60000000) "A" 1 (985 # 10)%Q 3 false "PC01"
           None THRESHOLDS engine_A_seq_bound
         = (Returned dd, engine_A_seq_bound,
            [ReadState "A"; CallValidate "A" 1; ReadState "A"]) ∧
         decision dd = REJECT ∧ reason dd = "SANITY_FAIL:PURITY_TOO_LOW" ∧
         prev_state dd = SEQ_BOUND ∧ next_state dd = SEQ_BOUND ∧
         current_state engine_A_seq_bound "A" = SEQ_BOUND ∧
         fst (validate "A" 1 None 60000000 (seq engine_A_seq_bound))
         = Returned "OK").
Proof.
  split.
  - apply (proj1 (proj2 (report_checks_in_order (clock 60000000) "A" 7
                           (985 # 10)%Q 3 false "PC01" None THRESHOLDS
                           engine_A_seq_bound)) "SEQ_MISMATCH").
    + reflexivity.
    + reflexivity.
    + discriminate.
  - apply (proj1 (proj2 (proj2 (report_checks_in_order (clock 60000000) "A" 1
                           (985 # 10)%Q 3 false "PC01" None THRESHOLDS
                           engine_A_seq_bound)))
             "SANITY_FAIL:PURITY_TOO_LOW").
    + reflexivity.
    + reflexivity.
    + left. split; reflexivity.
Defined.




(** *** Histories *)

Lemma happy_states_idx st : happy_states !! idx st = Some st.
Proof. by destruct st. Qed.

(** From any engine state, the accepted events of an asset continue the
    happy path from where the asset stands, and the asset has advanced by
    as many states as events were accepted. *)
Lemma run_accepted_segment cs e u :
  accepted_events u (fst (run cs e))
  = take (length (accepted_events u (fst (run cs e))))
         (drop (idx (current_state e u)) happy_events) ∧
  idx (current_state (snd (run cs e)) u)
  = (idx (current_state e u) + length (accepted_events u (fst (run cs e))))%nat.
Proof.
  revert e. induction cs as [|[w c] cs IH]; intros e; simpl.
  { split; [done|lia]. }
  destruct (call w c e) as [[o e1] tr] eqn:Hcall.
  pose proof (call_effect _ _ _ _ _ _ Hcall) as [Hoth Heff].
  specialize (IH e1). destruct (run cs e1) as [os e2]. simpl in *.
  destruct IH as [IHev IHst].
  assert (∀ d, o = Returned d →
               bool_decide (decision d = ACCEPT ∧ asset_id d = u) = false →
               current_state e1 u = current_state e u) as Hskip.
  { intros d -> Hd. destruct Heff as (Hid & Hprev & Hnext & Hdec).
    destruct (decide (u = call_uid c)) as [->|Hne]; [|by apply Hoth].
    rewrite bool_decide_eq_false in Hd.
    destruct (decision d); [by destruct Hd|destruct Hdec; congruence..]. }
  destruct o as [d|x].
  - destruct (bool_decide (decision d = ACCEPT ∧ asset_id d = u)) eqn:Hd.
    + apply bool_decide_eq_true in Hd as [Hacc <-].
      destruct Heff as (Hid & Hprev & Hnext & Hdec).
      rewrite Hacc in Hdec. destruct Hdec as [Hev Hidx].
      rewrite Hid in *. rewrite <- Hprev, <- Hnext in *. simpl.
      rewrite Hidx in IHev, IHst. split; [|lia].
      rewrite (drop_S _ _ _ Hev). simpl. by f_equal.
    + rewrite (Hskip d eq_refl Hd) in IHev, IHst. done.
  - destruct Heff as (_ & _ & Hf & _).
    assert (current_state e1 u = current_state e u) as Hsame
      by (unfold current_state; by rewrite Hf).
    rewrite Hsame in IHev, IHst. done.
Qed.

(** C6. Whatever calls are made on a new engine, and for every asset, the
    events of the ACCEPT decisions issued for that asset, in order, form a
    prefix of RFID_READ, SEQ_ASSIGNED, XRF_REPORT_ACCEPTED, SLOT_ASSIGNED,
    STORAGE_CONFIRMED: none is skipped, repeated or out of order; and after
    those k accepted events the asset is in the k-th state of the happy
    path. *)
Theorem accepted_events_prefix_of_happy_path
    (m : SeqIdManager) (cs : list (WallClock * Call)) (u : string) :
  let os := fst (run cs (enforcement_engine.__init__ m)) in
  let e' := snd (run cs (enforcement_engine.__init__ m)) in
  accepted_events u os `prefix_of` happy_events ∧
  happy_states !! length (accepted_events u os) = Some (current_state e' u).
Proof.
  intros os e'.
  destruct (run_accepted_segment cs (enforcement_engine.__init__ m) u)
    as [Hev Hst].
  fold os e' in Hev, Hst.
  assert (current_state (enforcement_engine.__init__ m) u = UNREGISTERED) as H0.
  { unfold current_state. simpl. by rewrite lookup_empty. }
  rewrite H0 in Hev, Hst. simpl in Hev, Hst. split.
  - rewrite Hev. apply prefix_take.
  - rewrite <- Hst. apply happy_states_idx.
Qed.

(** C9. In every state, applying SLOT_MOTION or TAMPER to the state machine
    is accepted with [next_state = prev_state], reason
    NON_TRANSITION_EVENT_ACCEPTED, and the machine unchanged; and the motion
    handler answers ALERT with reason SLOT_MOTION_DETECTED and
    [prev_state = next_state =] the asset's state, leaving every asset's
    state and the identity manager as they were. *)
Theorem non_transition_events_keep_state
    (st : AssetState) (ev : EventType) (w : WallClock) (u slot_id : string)
    (ts : option string) (e : AssetLifecycleEnforcementEngine) :
  ev ∈ _NON_TRANSITION_EVENTS →
  apply ev {| _state := st |}
  = (Returned {| accepted := true; state_machine.prev_state := st;
                 state_machine.event := ev; state_machine.next_state := st;
                 state_machine.reason := "NON_TRANSITION_EVENT_ACCEPTED" |},
     {| _state := st |}) ∧
  ∃ dd e',
    handle_slot_motion w u slot_id ts e
    = (Returned dd, e', [CallApply u SLOT_MOTION]) ∧
    decision dd = ALERT ∧ reason dd = "SLOT_MOTION_DETECTED" ∧
    prev_state dd = current_state e u ∧ next_state dd = current_state e u ∧
    seq e' = seq e ∧ ∀ u', current_state e' u' = current_state e u'.
Proof.
  intros Hev. split.
  - unfold apply. by rewrite bool_decide_eq_true_2.
  - destruct (handle_slot_motion w u slot_id ts e) as [[o e'] tr] eqn:Hcall.
    pose proof (call_effect w (SlotMotion u slot_id ts) e o e' tr Hcall)
      as [Hoth Heff].
    revert Hcall. unfold handle_slot_motion. enter_handler u e.
    crank Hf0. destruct (current_state e u) eqn:Hst; crank Hf0;
      intros [= <- <- <-]; simpl in *;
      destruct Heff as (_ & _ & Hnext & _ & Hseq);
      (eexists _, _; split_and!; try done; intros u';
       destruct (decide (u' = u)) as [->|Hne]; [by rewrite <- Hnext|by apply Hoth]).
Qed.

Lemma non_transition_events_keep_state_witness :
  apply TAMPER {| _state := STORED |}
  = (Returned {| accepted := true; state_machine.prev_state := STORED;
                 state_machine.event := TAMPER;
                 state_machine.next_state := STORED;
                 state_machine.reason := "NON_TRANSITION_EVENT_ACCEPTED" |},
     {| _state := STORED |}) ∧
  ∃ dd e',
    handle_slot_motion (clock 5) "A" "S-07" None engine_A_seq_bound
    = (Returned dd, e', [CallApply "A" SLOT_MOTION]) ∧
    decision dd = ALERT ∧ reason dd = "SLOT_MOTION_DETECTED" ∧
    prev_state dd = current_state engine_A_seq_bound "A" ∧
    next_state dd = current_state engine_A_seq_bound "A" ∧
    seq e' = seq engine_A_seq_bound ∧
    ∀ u', current_state e' u' = current_state engine_A_seq_bound u'.
Proof.
  apply (non_transition_events_keep_state STORED TAMPER (clock 5) "A" "S-07"
           None engine_A_seq_bound).
  apply list_elem_of_further, list_elem_of_here.
Defined.

Import fsm_traces manager_traces engine_traces.

(** * Further properties *)

(** ** The state machine *)


(** X1. [can_apply(event)] answers true exactly when [apply(event)] would be
    accepted, in every state and for every event. *)
Theorem can_apply_iff_apply_accepted (ev : EventType) (fsm : AssetLifecycleFSM) :
  ∃ tr fsm', apply ev fsm = (Returned tr, fsm') ∧ can_apply ev fsm = accepted tr.
Proof. destruct fsm as [st]. destruct st, ev; by eexists _, _. Qed.

(** X2. What every [apply] returns: [prev_state] is the state the machine
    was in, [next_state] the state it is left in, [event] the event given.  A
    rejected event leaves the machine where it was and carries the reason
    ILLEGAL_TRANSITION:state->event; an accepted one either is SLOT_MOTION or
    TAMPER and leaves it where it was, or moves it exactly one step along the
    happy path with reason STATE_ADVANCED. *)
Theorem apply_result_shape (ev : EventType) (fsm : AssetLifecycleFSM) :
  ∃ tr fsm',
    apply ev fsm = (Returned tr, fsm') ∧
    state_machine.prev_state tr = state fsm ∧
    state_machine.next_state tr = state fsm' ∧
    state_machine.event tr = ev ∧
    (accepted tr = false →
       fsm' = fsm ∧
       state_machine.reason tr
       = "ILLEGAL_TRANSITION:" ++ state_value (state fsm) ++ "->" ++ event_value ev) ∧
    (accepted tr = true →
       (ev ∈ _NON_TRANSITION_EVENTS ∧ fsm' = fsm ∧
        state_machine.reason tr = "NON_TRANSITION_EVENT_ACCEPTED") ∨
       (workload.happy_events !! workload.idx (state fsm) = Some ev ∧
        workload.idx (state fsm') = S (workload.idx (state fsm)) ∧
        state_machine.reason tr = "STATE_ADVANCED")).
Proof.
  destruct fsm as [st].
  destruct st, ev; eexists _, _; (split; [reflexivity|]); simpl;
    split_and!; try done; intros _;
    first [ by right
          | left; split_and!; try done;
            first [ apply list_elem_of_here
                  | apply list_elem_of_further, list_elem_of_here ] ].
Qed.

(** X3. The transition table is the happy path and nothing else: it maps
    (state, event) to a next state exactly when the event is the one that
    follows the state on the happy path, and then to the state that follows;
    and no key occurs twice in it. *)
Theorem allowed_table_is_the_happy_path (st nxt : AssetState) (ev : EventType) :
  NoDup (_ALLOWED.*1) ∧
  (dict_get allowed_transitions (st, ev) = Some nxt ↔
   workload.happy_events !! workload.idx st = Some ev ∧
   workload.happy_states !! S (workload.idx st) = Some nxt).
Proof.
  split.
  - apply (bool_decide_unpack _). by vm_compute.
  - destruct st, ev; simpl; split; try done;
      try (intros [= <-]; done); try (intros [_ [= <-]]; done);
      intros [[=] _].
Qed.

Lemma apply_returns (ev : EventType) (fsm : AssetLifecycleFSM) :
  ∃ tr fsm', apply ev fsm = (Returned tr, fsm').
Proof. destruct fsm as [st]. destruct st, ev; by eexists _, _. Qed.

Lemma apply_step_idx (ev : EventType) (fsm : AssetLifecycleFSM) :
  ∃ tr fsm',
    apply ev fsm = (Returned tr, fsm') ∧
    workload.idx (state fsm')
    = (workload.idx (state fsm) + (if advanced tr then 1 else 0))%nat ∧
    (state fsm = STORED → fsm' = fsm ∧ advanced tr = false).
Proof.
  destruct fsm as [st].
  destruct st, ev; eexists _, _; (split; [reflexivity|]); by split.
Qed.

(** X4. Whatever events one machine is given, it never goes back: each
    event gets one result, the machine ends as many positions further along
    the happy path as results moved it, which is at most what is left of the
    path; and a machine in STORED stays there, moved by nothing. *)
Theorem fsm_never_goes_back (evs : list EventType) (fsm : AssetLifecycleFSM) :
  let trs := fst (apply_all evs fsm) in
  let fsm' := snd (apply_all evs fsm) in
  length trs = length evs ∧
  workload.idx (state fsm')
  = (workload.idx (state fsm) + length (filter (λ tr, advanced tr = true) trs))%nat ∧
  (workload.idx (state fsm') <= 5)%nat ∧
  (state fsm = STORED → fsm' = fsm ∧ Forall (λ tr, advanced tr = false) trs).
Proof.
  simpl. revert fsm. induction evs as [|ev evs IH]; intros fsm; simpl.
  { split_and!; [done|lia|by destruct fsm as [[]]; simpl; lia|done]. }
  destruct (apply_step_idx ev fsm) as (tr & fsm1 & -> & Hidx & Hst).
  specialize (IH fsm1). destruct (apply_all evs fsm1) as [trs fsm2].
  simpl in *. destruct IH as (Hlen & Hi & Hle & Hstored).
  split_and!; [by f_equal| |done|].
  - destruct (advanced tr) eqn:Ha.
    + rewrite filter_cons_True by done. simpl. lia.
    + rewrite filter_cons_False by (by rewrite Ha). lia.
  - intros Hs. destruct (Hst Hs) as [-> Ha].
    destruct (Hstored Hs) as [-> Hall]. split; [done|]. by constructor.
Qed.

(** X5. The reason of a rejected event tells which state and which event it
    was: two [apply] results carry the same ILLEGAL_TRANSITION reason only
    for the same state and the same event, and no accepted result carries the
    reason of a rejected one. *)
Theorem illegal_transition_reason_identifies
    (ev1 ev2 : EventType) (fsm1 fsm2 : AssetLifecycleFSM)
    (tr1 tr2 : TransitionResult) (fsm1' fsm2' : AssetLifecycleFSM) :
  apply ev1 fsm1 = (Returned tr1, fsm1') →
  apply ev2 fsm2 = (Returned tr2, fsm2') →
  accepted tr1 = false →
  state_machine.reason tr1 = state_machine.reason tr2 →
  ev1 = ev2 ∧ state fsm1 = state fsm2 ∧ accepted tr2 = false.
Proof.
  destruct fsm1 as [s1], fsm2 as [s2].
  destruct s1, ev1; intros [= <- <-]; simpl; try done;
    destruct s2, ev2; intros [= <- <-]; simpl; intros _ Hr; try done;
    discriminate Hr.
Qed.

Lemma illegal_transition_reason_identifies_witness :
  let tr := {| accepted := false; state_machine.prev_state := UNREGISTERED;
               state_machine.event := XRF_REPORT_ACCEPTED;
               state_machine.next_state := UNREGISTERED;
               state_machine.reason :=
                 "ILLEGAL_TRANSITION:UNREGISTERED->XRF_REPORT_ACCEPTED" |} in
  XRF_REPORT_ACCEPTED = XRF_REPORT_ACCEPTED ∧
  state new_fsm = state new_fsm ∧ accepted tr = false.
Proof.
  intros tr.
  apply (illegal_transition_reason_identifies
           XRF_REPORT_ACCEPTED XRF_REPORT_ACCEPTED new_fsm new_fsm tr tr
           new_fsm new_fsm); reflexivity.
Defined.

(** ** The SeqID manager, further *)


(** X6. The constructor returns a manager exactly when the start counter is
    at least 1 and the validity is at least 1 minute and at most
    1439999999999 minutes, the largest a [timedelta] can hold (999999999
    days, 23 hours and 59 minutes).  A start counter below 1 raises its
    ValueError first, before the validity is looked at; then a validity
    below 1 raises its ValueError; then a validity too large for a
    [timedelta] raises OverflowError.  A new manager starts at the given
    counter, has a validity of that many minutes, and knows no uid and no
    identifier. *)
Theorem manager_constructor_guards (start mins : Z) :
  (1 <= start ∧ 1 <= mins <= 1439999999999
   ↔ ∃ m, seqid_manager.__init__ start mins = Returned m) ∧
  (start < 1 →
   seqid_manager.__init__ start mins
   = Raised (ValueError "start_counter must be >= 1")) ∧
  (1 <= start → mins < 1 →
   seqid_manager.__init__ start mins
   = Raised (ValueError "validity_minutes must be >= 1")) ∧
  (1 <= start → 1439999999999 < mins →
   seqid_manager.__init__ start mins = Raised OverflowError) ∧
  (∀ m, seqid_manager.__init__ start mins = Returned m →
        _counter m = start ∧ _validity m = mins * 60000000 ∧
        ∀ u s now wall,
          get_by_uid u m = None ∧ get_by_seq s m = None ∧
          fst (validate u s now wall m) = Returned "NO_BINDING_FOR_UID").
Proof.
  unfold seqid_manager.__init__, timedelta_minutes.
  destruct (Z.ltb_spec start 1) as [Hs|Hs];
    [|destruct (Z.ltb_spec mins 1) as [Hm|Hm]].
  - split_and!; try done; try lia. split; [lia|by intros [m ?]].
  - split_and!; try done; try lia. split; [lia|by intros [m ?]].
  - destruct (Z.leb_spec (-999999999) (mins / 1440)) as [_|Hlo];
      [|pose proof (Z.div_pos mins 1440); lia].
    destruct (Z.leb_spec (mins / 1440) 999999999) as [Hhi|Hhi]; simpl.
    + assert (mins <= 1439999999999) as Hle.
      { destruct (Z.le_gt_cases mins 1439999999999) as [|Hgt]; [done|].
        assert (1000000000 <= mins / 1440); [|lia].
        apply Z.div_le_lower_bound; lia. }
      split_and!; try done; try lia.
      * split; [by eexists|done].
      * intros m [= <-]. simpl. split_and!; [done..|].
        intros u s now wall. unfold get_by_uid, get_by_seq, validate. simpl.
        by rewrite !lookup_empty.
    + assert (1439999999999 < mins) as Hgt.
      { destruct (Z.le_gt_cases mins 1439999999999) as [Hle|]; [|lia].
        assert (mins / 1440 < 1000000000); [|lia].
        apply Z.div_lt_upper_bound; lia. }
      split_and!; try done; try lia. split; [lia|by intros [m ?]].
Qed.

Lemma as_used_idemp b : as_used (as_used b) = as_used b.
Proof. done. Qed.

(** X7. [mark_used] answers NOT_FOUND when the uid has no binding and
    SEQ_MISMATCH when its binding carries another identifier, and then
    changes nothing; it answers OK otherwise.  It never moves the counter or
    the validity, and doing it twice is the same as doing it once. *)
Theorem mark_used_outcomes_and_idempotence (u : string) (s : Z) (m : SeqIdManager) :
  let r := mark_used u s m in
  (_by_uid m !! u = None → r = (Returned "NOT_FOUND", m)) ∧
  (∀ b, _by_uid m !! u = Some b → seq_id b ≠ s → r = (Returned "SEQ_MISMATCH", m)) ∧
  (∀ b, _by_uid m !! u = Some b → seq_id b = s →
        fst r = Returned "OK" ∧
        get_by_uid u (snd r) = Some (as_used b) ∧
        get_by_seq s (snd r) = Some (as_used b)) ∧
  _counter (snd r) = _counter m ∧ _validity (snd r) = _validity m ∧
  mark_used u s (snd r) = r.
Proof.
  intros r. subst r.
  destruct (_by_uid m !! u) as [b|] eqn:Hl.
  2:{ assert (mark_used u s m = (Returned "NOT_FOUND", m)) as ->
        by (unfold mark_used; by rewrite Hl).
      simpl. split_and!; try done. unfold mark_used. by rewrite Hl. }
  destruct (decide (seq_id b = s)) as [Hs|Hs].
  2:{ assert (mark_used u s m = (Returned "SEQ_MISMATCH", m)) as Hr.
      { unfold mark_used. rewrite Hl.
        destruct (Z.eqb_spec (seq_id b) s); done. }
      rewrite Hr. simpl. split_and!; try done; by intros b' [= <-]. }
  rewrite (mark_used_found u s m b Hl Hs). simpl.
  split_and!; try done.
  - by intros b' [= <-].
  - intros b' [= <-] _. unfold get_by_uid, get_by_seq. simpl.
    by rewrite !lookup_insert_eq.
  - erewrite mark_used_found; [|simpl; apply lookup_insert_eq|by simpl].
    simpl. by rewrite !insert_insert_eq.
Qed.

Lemma mgr_call_validity wall c m :
  _validity (snd (mgr_call wall c m)) = _validity m.
Proof.
  destruct c as [u t|u s now|u s]; simpl.
  - by destruct (issue_outcomes u t wall m)
      as [[_ ->]|[(_ & b & _ & _ & ->)|[(_ & _ & _ & ->)|(_ & _ & _ & ->)]]].
  - by rewrite validate_pure.
  - unfold mark_used. by repeat case_match.
Qed.

(** How one call moves the counter: by one when it allocates or overflows,
    not at all otherwise. *)
Lemma mgr_call_counter_moves wall c m :
  wf m →
  _counter (snd (mgr_call wall c m))
  = _counter m + match fst (mgr_call wall c m) with Some _ => 1 | None => 0 end
    + (if overflowed wall c m then 1 else 0) ∧
  (∀ i, fst (mgr_call wall c m) = Some i → i = _counter m) ∧
  (is_Some (fst (mgr_call wall c m)) → overflowed wall c m = false).
Proof.
  intros [Hv Hwf]. destruct c as [u t|u s now|u s]; simpl.
  - destruct (issue_outcomes u t wall m)
      as [[_ ->]|[(_ & b & Hl & _ & ->)|[(_ & Hna & Hfit & ->)|(_ & _ & _ & ->)]]];
      simpl.
    + split_and!; [lia|done|done].
    + rewrite bool_decide_eq_true_2 by done. split_and!; [lia|done|done].
    + rewrite bool_decide_eq_false_2.
      { split_and!; [lia|by intros ? [= <-]|done]. }
      intros Hl. specialize (Hna _ Hl). unfold active in Hna. simpl in Hna.
      destruct (Z.ltb_spec (now_or t wall + _validity m) (now_or t wall));
        [lia|done].
    + split_and!; [lia|done|by intros [? ?]].
  - rewrite validate_pure. split_and!; [lia|done|done].
  - split_and!; [|done|done]. unfold mark_used. repeat case_match; simpl; lia.
Qed.

(** X8. Identifiers are handed out in counter order, and an [issue] that
    raises OverflowError uses one up.  Along any sequence of calls on a
    reachable manager the counter ends at its start plus the number of
    identifiers allocated plus the number of [issue] calls that raised
    OverflowError: such a call has advanced the counter and stored nothing,
    so its identifier is never handed out.  When no call overflowed, which
    is so whenever the expiry time of every [issue] call is a [datetime],
    the allocated identifiers are the counter's starting value, the next
    integer, and so on without a gap. *)
Theorem allocations_are_consecutive (cs : list (Z * MgrCall)) (m : SeqIdManager) :
  reachable m →
  _counter (snd (allocations cs m))
  = _counter m + Z.of_nat (length (fst (allocations cs m)))
    + Z.of_nat (overflows cs m) ∧
  (overflows cs m = 0%nat →
   fst (allocations cs m)
   = consecutive (_counter m) (length (fst (allocations cs m)))) ∧
  (Forall (λ wc, ∀ u t, snd wc = Issue u t →
                        is_datetime (now_or t (fst wc) + _validity m) = true) cs →
   overflows cs m = 0%nat).
Proof.
  intros Hr. split_and!.
  - revert m Hr. induction cs as [|[wall c] cs IH]; intros m Hr; simpl; [lia|].
    destruct (mgr_call_counter_moves wall c m (reachable_wf m Hr)) as (Hc & _ & _).
    specialize (IH _ (reach_call wall c m Hr)).
    destruct (mgr_call wall c m) as [a m1]. simpl in *.
    destruct (allocations cs m1) as [ids m2]. simpl in *.
    destruct a as [i|], (overflowed wall c m); simpl in *; lia.
  - revert m Hr. induction cs as [|[wall c] cs IH]; intros m Hr; simpl; [done|].
    destruct (mgr_call_counter_moves wall c m (reachable_wf m Hr)) as (Hc & Hi & _).
    specialize (IH _ (reach_call wall c m Hr)).
    destruct (mgr_call wall c m) as [a m1]. simpl in *.
    destruct (allocations cs m1) as [ids m2]. simpl in *.
    destruct (overflowed wall c m); [done|]. simpl. intros Hz.
    specialize (IH Hz). destruct a as [i|]; simpl in *.
    + rewrite (Hi i eq_refl). f_equal. rewrite IH at 1. f_equal. lia.
    + rewrite IH at 1. f_equal. lia.
  - clear Hr. revert m. induction cs as [|[wall c] cs IH]; intros m; simpl; [done|].
    intros Hall. apply Forall_cons in Hall as [Hhd Htl]. simpl in Hhd.
    rewrite IH by (by rewrite mgr_call_validity).
    destruct c as [u t|u s now|u s]; simpl; [|done..].
    specialize (Hhd u t eq_refl).
    by destruct (issue_outcomes u t wall m)
      as [[_ ->]|[(_ & b & _ & _ & ->)|[(_ & _ & _ & ->)|(_ & _ & Hf & ->)]]];
      [..|congruence].
Qed.

Lemma allocations_are_consecutive_witness :
  let cs := [(0, Issue "A" None); (0, Issue "B" (Some datetime_max));
             (0, Issue "C" None)] in
  fst (allocations cs manager_1_20) = [1; 3] ∧
  overflows cs manager_1_20 = 1%nat ∧
  _counter (snd (allocations cs manager_1_20))
  = _counter manager_1_20
    + Z.of_nat (length (fst (allocations cs manager_1_20)))
    + Z.of_nat (overflows cs manager_1_20).
Proof.
  intros cs. split; [reflexivity|]. split; [reflexivity|].
  apply (allocations_are_consecutive cs manager_1_20).
  apply (reach_init 1 20). reflexivity.
Defined.

(** X9. A manager call about one uid leaves every other uid alone: its
    stored binding is the same afterwards, so [validate] answers the same for
    it. *)
Theorem manager_call_leaves_other_uids (wall : Z) (c : MgrCall) (m : SeqIdManager)
    (u' : string) :
  u' ≠ mgr_call_uid c →
  get_by_uid u' (snd (mgr_call wall c m)) = get_by_uid u' m ∧
  ∀ s now wall',
    fst (validate u' s now wall' (snd (mgr_call wall c m)))
    = fst (validate u' s now wall' m).
Proof.
  intros Hne.
  assert (_by_uid (snd (mgr_call wall c m)) !! u' = _by_uid m !! u') as Hl.
  { destruct c as [u t|u s now|u s]; simpl in *.
    - destruct (issue_outcomes u t wall m)
        as [[_ ->]|[(_ & b & _ & _ & ->)|[(_ & _ & _ & ->)|(_ & _ & _ & ->)]]];
        simpl; try done; by rewrite lookup_insert_ne.
    - by rewrite validate_pure.
    - unfold mark_used. repeat case_match; simpl; try done.
      by rewrite lookup_insert_ne. }
  split; [done|]. intros s now wall'. unfold validate. rewrite Hl.
  destruct (_by_uid m !! u'); [|done]. by repeat case_match.
Qed.

Lemma manager_call_leaves_other_uids_witness :
  let m := snd (mgr_call 0 (Issue "B" None) manager_1_20) in
  get_by_uid "B" (snd (mgr_call 5 (Issue "A" None) m)) = get_by_uid "B" m ∧
  ∀ s now wall',
    fst (validate "B" s now wall' (snd (mgr_call 5 (Issue "A" None) m)))
    = fst (validate "B" s now wall' m).
Proof.
  intros m. apply (manager_call_leaves_other_uids 5 (Issue "A" None) m "B").
  simpl. discriminate.
Defined.

(** *** The by-seq index *)

Lemma init_seq_index_ok start mins m :
  seqid_manager.__init__ start mins = Returned m → seq_index_ok m.
Proof.
  unfold seqid_manager.__init__.
  destruct (Z.ltb_spec start 1); [done|].
  destruct (Z.ltb_spec mins 1); [done|].
  destruct (timedelta_minutes mins); [|done].
  intros [= <-]. split; simpl; [lia|]. intros s b Hl.
  by rewrite lookup_empty in Hl.
Qed.

Lemma bumped_seq_index_ok m : seq_index_ok m → seq_index_ok (bumped m).
Proof.
  intros [Hc Hb]. split; simpl; [lia|]. intros s b Hl.
  destruct (Hb _ _ Hl) as (? & ? & ?). split_and!; [done|lia|lia|done].
Qed.

Lemma with_fresh_seq_index_ok u t0 m :
  seq_index_ok m → seq_index_ok (with_fresh u t0 m).
Proof.
  intros [Hc Hb]. split; simpl; [lia|]. intros s b.
  destruct (decide (_counter m = s)) as [<-|Hne].
  - rewrite lookup_insert_eq. intros [= <-]. simpl.
    split_and!; [done|lia|lia|]. rewrite lookup_insert_eq. by eexists.
  - rewrite lookup_insert_ne by done. intros Hl.
    destruct (Hb _ _ Hl) as (Hs & Hr & b' & Hl' & Hle & Heq).
    split_and!; [done|lia|lia|].
    destruct (decide (u = uid b)) as [->|Hu].
    + rewrite lookup_insert_eq. eexists. split; [done|]. simpl. split; lia.
    + rewrite lookup_insert_ne by done. by exists b'.
Qed.

Lemma mark_used_seq_index_ok u s m :
  wf m → seq_index_ok m → seq_index_ok (snd (mark_used u s m)).
Proof.
  intros [_ Hwf] [Hc Hb]. unfold mark_used.
  destruct (_by_uid m !! u) as [b0|] eqn:Hl0; [|done].
  destruct (Z.eqb_spec (seq_id b0) s) as [Hs0|]; simpl; [|done].
  destruct (Hwf _ _ Hl0) as (_ & Hu0 & Hlt0 & Hq0).
  destruct (Hb _ _ Hq0) as (_ & Hr0 & _).
  split; simpl; [done|]. intros s1 b.
  destruct (decide (s = s1)) as [<-|Hne].
  - rewrite lookup_insert_eq. intros [= <-]. simpl.
    split_and!; [done|lia|lia|]. rewrite Hu0, lookup_insert_eq.
    eexists. split; [done|]. simpl. split; [lia|done].
  - rewrite lookup_insert_ne by done. intros Hl.
    destruct (Hb _ _ Hl) as (Hs & Hr & b' & Hl' & Hle & Heq).
    split_and!; [done|lia|lia|].
    destruct (decide (u = uid b)) as [->|Hu].
    + rewrite lookup_insert_eq. rewrite Hl0 in Hl'. injection Hl' as <-.
      eexists. split; [done|]. simpl. split; [done|].
      intros He. specialize (Heq He). subst b. lia.
    + rewrite lookup_insert_ne by done. by exists b'.
Qed.

Lemma mgr_call_seq_index_ok wall c m :
  wf m → seq_index_ok m → seq_index_ok (snd (mgr_call wall c m)).
Proof.
  intros Hwf Hok. destruct c as [u t|u s now|u s]; simpl.
  - destruct (issue_outcomes u t wall m)
      as [[_ ->]|[(_ & b & _ & _ & ->)|[(_ & _ & _ & ->)|(_ & _ & _ & ->)]]];
      simpl; auto using with_fresh_seq_index_ok, bumped_seq_index_ok.
  - by rewrite validate_pure.
  - by apply mark_used_seq_index_ok.
Qed.

Lemma reachable_seq_index_ok m : reachable m → seq_index_ok m.
Proof.
  induction 1 as [start mins m Hi|wall c m Hr IH].
  - by eapply init_seq_index_ok.
  - apply mgr_call_seq_index_ok; [by apply reachable_wf|done].
Qed.

(** X10. On every manager state a client can reach, the two indices agree.
    The binding stored for a uid names that uid and is the one stored under
    its identifier.  A binding stored under an identifier carries that
    identifier, which is at least 1 and below the counter, and the uid it
    names still has a binding: that one, or one with a larger identifier. *)
Theorem indices_agree (m : SeqIdManager) :
  reachable m →
  (∀ u b, get_by_uid u m = Some b →
          uid b = u ∧ get_by_seq (seq_id b) m = Some b) ∧
  (∀ s b, get_by_seq s m = Some b →
          seq_id b = s ∧ 1 <= s < _counter m ∧
          ∃ b', get_by_uid (uid b) m = Some b' ∧
                (b' = b ∨ seq_id b < seq_id b')).
Proof.
  intros Hr. destruct (reachable_wf m Hr) as [_ Hwf].
  destruct (reachable_seq_index_ok m Hr) as [_ Hok]. split.
  - intros u b Hl. by destruct (Hwf _ _ Hl) as (_ & ? & _ & ?).
  - intros s b Hl.
    destruct (Hok _ _ Hl) as (Hs & Hrange & b' & Hl' & Hle & Heq).
    split_and!; [done|lia|lia|]. exists b'. split; [done|].
    destruct (decide (seq_id b = seq_id b')) as [He|He]; [left|right; lia].
    symmetry. by apply Heq.
Qed.

Lemma indices_agree_witness :
  let m := snd (mgr_call 1 (MarkUsed "A" 1)
                  (snd (mgr_call 0 (Issue "A" None) manager_1_20))) in
  (∀ u b, get_by_uid u m = Some b →
          uid b = u ∧ get_by_seq (seq_id b) m = Some b) ∧
  (∀ s b, get_by_seq s m = Some b →
          seq_id b = s ∧ 1 <= s < _counter m ∧
          ∃ b', get_by_uid (uid b) m = Some b' ∧
                (b' = b ∨ seq_id b < seq_id b')).
Proof.
  intros m. apply (indices_agree m).
  apply reach_call, reach_call, (reach_init 1 20). reflexivity.
Defined.

Lemma mgr_call_spent wall c m u s :
  spent u s m → spent u s (snd (mgr_call wall c m)).
Proof.
  intros [Hlt Hsp]. destruct c as [u1 t|u1 s1 now|u1 s1]; simpl.
  - destruct (issue_outcomes u1 t wall m)
      as [[_ ->]|[(_ & b & _ & _ & ->)|[(_ & _ & _ & ->)|(_ & _ & _ & ->)]]];
      simpl; try done.
    + split; simpl; [lia|]; intros b;
        (destruct (decide (u1 = u)) as [->|Hne];
         [rewrite lookup_insert_eq; intros [= <-]; simpl; lia
         |rewrite lookup_insert_ne by done; apply Hsp]).
    + split; simpl; [lia|done].
  - by rewrite validate_pure.
  - unfold mark_used.
    destruct (_by_uid m !! u1) as [b1|] eqn:Hl1; [|done].
    destruct (seq_id b1 =? s1); simpl; [|done].
    split; simpl; [done|]. intros b.
    destruct (decide (u1 = u)) as [->|Hne].
    + rewrite lookup_insert_eq. by intros [= <-].
    + rewrite lookup_insert_ne by done. apply Hsp.
Qed.

Lemma allocations_spent cs m u s :
  spent u s m → spent u s (snd (allocations cs m)).
Proof.
  revert m. induction cs as [|[wall c] cs IH]; intros m Hsp; simpl; [done|].
  pose proof (mgr_call_spent wall c m u s Hsp) as H1.
  destruct (mgr_call wall c m) as [a m1]. simpl in *.
  specialize (IH m1 H1). by destruct (allocations cs m1).
Qed.

(** X11. One-time use is permanent.  Once [mark_used] has answered OK for a
    pair (uid, seq_id) on a reachable manager, [validate] for that pair
    answers EXPIRED or ALREADY_USED there, and after any further manager
    calls whatsoever it never answers OK for that pair again. *)
Theorem used_identifier_never_validates_again
    (u : string) (s : Z) (m m' : SeqIdManager) (cs : list (Z * MgrCall))
    (now : option Z) (wall : Z) :
  reachable m →
  mark_used u s m = (Returned "OK", m') →
  (fst (validate u s now wall m') = Returned "ALREADY_USED" ∨
   fst (validate u s now wall m') = Returned "EXPIRED") ∧
  fst (validate u s now wall (snd (allocations cs m'))) ≠ Returned "OK".
Proof.
  intros Hr Hm. destruct (reachable_wf m Hr) as [_ Hwf].
  assert (∃ b, _by_uid m !! u = Some b ∧ seq_id b = s) as (b & Hl & Hs).
  { unfold mark_used in Hm. destruct (_by_uid m !! u) as [b|]; [|done].
    destruct (Z.eqb_spec (seq_id b) s); [by exists b|done]. }
  rewrite (mark_used_found u s m b Hl Hs) in Hm. injection Hm as <-.
  destruct (Hwf _ _ Hl) as (_ & _ & Hlt & _).
  set (m' := {| _counter := _; _validity := _; _by_uid := _; _by_seq := _ |}).
  split.
  - erewrite (validate_found u s now wall m' (as_used b));
      [|apply lookup_insert_eq|done].
    simpl. destruct (_ <? _); auto.
  - assert (spent u s m') as Hsp.
    { split; simpl; [lia|]. intros b'. rewrite lookup_insert_eq.
      by intros [= <-]. }
    apply (allocations_spent cs) in Hsp as [_ Hsp].
    generalize dependent (snd (allocations cs m')). intros m2 Hsp.
    unfold validate, is_expired.
    destruct (_by_uid m2 !! u) as [b2|]; [|done].
    destruct (Z.eqb_spec (seq_id b2) s) as [He|]; simpl; [|done].
    rewrite (Hsp b2 eq_refl He). by destruct (_ <? _).
Qed.

Lemma used_identifier_never_validates_again_witness :
  let m := snd (mgr_call 0 (Issue "A" None) manager_1_20) in
  let m' := snd (mark_used "A" 1 m) in
  (fst (validate "A" 1 (Some 5) 0 m') = Returned "ALREADY_USED" ∨
   fst (validate "A" 1 (Some 5) 0 m') = Returned "EXPIRED") ∧
  fst (validate "A" 1 (Some 5) 0
         (snd (allocations [(7, Issue "A" None); (8, MarkUsed "A" 1)] m')))
  ≠ Returned "OK".
Proof.
  intros m m'.
  apply (used_identifier_never_validates_again "A" 1 m m').
  - apply reach_call, (reach_init 1 20). reflexivity.
  - vm_compute. reflexivity.
Defined.

(** X12. What [issue] hands back, on a reachable manager: a binding for the
    uid asked, unused, stored under the uid and under its identifier, whose
    expiry is not before the time of the call.  [validate] then answers OK
    for it at every time up to and including [expires_at], also at times
    before it was issued, and EXPIRED from the next microsecond on.  When the
    call allocated, the binding carries the counter's value, was issued at
    the time of the call, and expires exactly the validity later. *)
Theorem issued_binding_window
    (u : string) (t : option Z) (wall : Z) (m m' : SeqIdManager) (b : SeqBinding) :
  reachable m →
  issue u t wall m = (Returned b, m') →
  uid b = u ∧ used b = false ∧ now_or t wall <= expires_at b ∧
  get_by_uid u m' = Some b ∧ get_by_seq (seq_id b) m' = Some b ∧
  (∀ now wall', now <= expires_at b →
     fst (validate u (seq_id b) (Some now) wall' m') = Returned "OK") ∧
  (∀ now wall', expires_at b < now →
     fst (validate u (seq_id b) (Some now) wall' m') = Returned "EXPIRED") ∧
  (_counter m' ≠ _counter m →
     seq_id b = _counter m ∧ _counter m' = _counter m + 1 ∧
     issued_at b = now_or t wall ∧
     expires_at b = now_or t wall + _validity m).
Proof.
  intros Hr Hi. destruct (reachable_wf m Hr) as [Hv Hwf].
  destruct (blank u) eqn:Hb; [by rewrite issue_blank in Hi|].
  rewrite issue_cases in Hi by done. unfold allocate in Hi.
  assert (uid b = u ∧ used b = false ∧ now_or t wall <= expires_at b ∧
          _by_uid m' !! u = Some b ∧ _by_seq m' !! seq_id b = Some b ∧
          (_counter m' ≠ _counter m →
           seq_id b = _counter m ∧ _counter m' = _counter m + 1 ∧
           issued_at b = now_or t wall ∧
           expires_at b = now_or t wall + _validity m))
    as (Hu & Hused & Hexp & Hl & Hq & Hfresh).
  { destruct (_by_uid m !! u) as [b0|] eqn:Hl0.
    - destruct (active b0 (now_or t wall)) eqn:Ha;
        [|destruct (is_datetime _)]; simplify_eq.
      + destruct (Hwf _ _ Hl0) as (_ & ? & _ & ?).
        unfold active in Ha. apply andb_prop in Ha as [He Hu].
        apply negb_true_iff in He, Hu. apply Z.ltb_ge in He.
        split_and!; done.
      + simpl. rewrite !lookup_insert_eq. split_and!; try done; lia.
    - destruct (is_datetime _); simplify_eq. simpl. rewrite !lookup_insert_eq.
      split_and!; try done; lia. }
  split_and!; try done.
  - intros now wall' Hnow. erewrite validate_found by done. simpl.
    rewrite Hused. destruct (Z.ltb_spec (expires_at b) now); [lia|done].
  - intros now wall' Hnow. erewrite validate_found by done. simpl.
    destruct (Z.ltb_spec (expires_at b) now); [done|lia].
Qed.

Lemma issued_binding_window_witness :
  let b := {| uid := "A"; seq_id := 1; issued_at := 0;
              expires_at := 1200000000; used := false |} in
  let m' := snd (issue "A" (Some 0) 9 manager_1_20) in
  uid b = "A" ∧ used b = false ∧ now_or (Some 0) 9 <= expires_at b ∧
  get_by_uid "A" m' = Some b ∧ get_by_seq (seq_id b) m' = Some b ∧
  (∀ now wall', now <= expires_at b →
     fst (validate "A" (seq_id b) (Some now) wall' m') = Returned "OK") ∧
  (∀ now wall', expires_at b < now →
     fst (validate "A" (seq_id b) (Some now) wall' m') = Returned "EXPIRED") ∧
  (_counter m' ≠ _counter manager_1_20 →
     seq_id b = _counter manager_1_20 ∧
     _counter m' = _counter manager_1_20 + 1 ∧
     issued_at b = now_or (Some 0) 9 ∧
     expires_at b = now_or (Some 0) 9 + _validity manager_1_20).
Proof.
  intros b m'.
  apply (issued_binding_window "A" (Some 0) 9 manager_1_20 m' b).
  - apply (reach_init 1 20). reflexivity.
  - vm_compute. reflexivity.
Defined.

(** One call drops no binding: what is stored under an identifier stays
    there, at most with its used flag set, and a uid that has a binding
    keeps one, with the same or a larger identifier. *)
Lemma mgr_call_keeps wall c m :
  reachable m →
  (∀ s b, _by_seq m !! s = Some b →
     _by_seq (snd (mgr_call wall c m)) !! s = Some b ∨
     _by_seq (snd (mgr_call wall c m)) !! s = Some (as_used b)) ∧
  (∀ u b, _by_uid m !! u = Some b →
     ∃ b', _by_uid (snd (mgr_call wall c m)) !! u = Some b' ∧
           seq_id b <= seq_id b').
Proof.
  intros Hr.
  destruct (reachable_wf m Hr) as [_ Hwf].
  destruct (reachable_seq_index_ok m Hr) as [_ Hok].
  assert ((∀ s b, _by_seq m !! s = Some b →
             _by_seq m !! s = Some b ∨ _by_seq m !! s = Some (as_used b)) ∧
          (∀ u b, _by_uid m !! u = Some b →
             ∃ b', _by_uid m !! u = Some b' ∧ seq_id b <= seq_id b')) as Hsame.
  { split; [by left|]. intros u b Hl. exists b. split; [done|lia]. }
  destruct c as [u1 t|u1 s1 now|u1 s1]; simpl.
  - destruct (issue_outcomes u1 t wall m)
      as [[_ ->]|[(_ & b1 & _ & _ & ->)|[(_ & _ & _ & ->)|(_ & _ & _ & ->)]]];
      simpl; try done.
    split;
      [ intros s b Hl; left; destruct (Hok _ _ Hl) as (_ & ? & _);
        rewrite lookup_insert_ne by lia; done
      | intros u b Hl; destruct (decide (u1 = u)) as [->|Hne];
        [ rewrite lookup_insert_eq; eexists; split; [done|]; simpl;
          destruct (Hwf _ _ Hl) as (_ & _ & ? & _); lia
        | rewrite lookup_insert_ne by done; exists b; split; [done|lia] ] ].
  - by rewrite validate_pure.
  - unfold mark_used.
    destruct (_by_uid m !! u1) as [b1|] eqn:Hl1; simpl; [|done].
    destruct (Z.eqb_spec (seq_id b1) s1) as [Hs1|]; simpl; [|done].
    destruct (Hwf _ _ Hl1) as (_ & _ & _ & Hq1). split.
    + intros s b Hl. destruct (decide (s1 = s)) as [<-|Hne].
      * rewrite lookup_insert_eq. right. rewrite Hs1, Hl in Hq1.
        by injection Hq1 as ->.
      * rewrite lookup_insert_ne by done. by left.
    + intros u b Hl. destruct (decide (u1 = u)) as [->|Hne].
      * rewrite lookup_insert_eq. rewrite Hl1 in Hl. injection Hl as <-.
        eexists. split; [done|]. simpl. lia.
      * rewrite lookup_insert_ne by done. exists b. split; [done|lia].
Qed.

Lemma allocations_keep cs m :
  reachable m →
  (∀ s b, _by_seq m !! s = Some b →
     _by_seq (snd (allocations cs m)) !! s = Some b ∨
     _by_seq (snd (allocations cs m)) !! s = Some (as_used b)) ∧
  (∀ u b, _by_uid m !! u = Some b →
     ∃ b', _by_uid (snd (allocations cs m)) !! u = Some b' ∧
           seq_id b <= seq_id b').
Proof.
  revert m. induction cs as [|[wall c] cs IH]; intros m Hr; simpl.
  { split; [by left|]. intros u b Hl. exists b. split; [done|lia]. }
  pose proof (reach_call wall c m Hr) as Hr1.
  destruct (mgr_call_keeps wall c m Hr) as [Hseq1 Huid1].
  destruct (mgr_call wall c m) as [a m1]. simpl in *.
  destruct (IH m1 Hr1) as [IHseq IHuid].
  destruct (allocations cs m1) as [ids m2]. simpl in *. split.
  - intros s b Hl. destruct (Hseq1 s b Hl) as [H1|H1].
    + apply IHseq, H1.
    + destruct (IHseq _ _ H1) as [H2|H2]; right; [done|].
      by rewrite as_used_idemp in H2.
  - intros u b Hl. destruct (Huid1 u b Hl) as (b1 & H1 & Hle1).
    destruct (IHuid u b1 H1) as (b2 & H2 & Hle2). exists b2. split; [done|lia].
Qed.

(** X13. The manager forgets nothing.  On a reachable manager, a binding
    stored under an identifier is still stored under it after any further
    calls, unchanged or with only its used flag set; and a uid that has a
    binding keeps having one, with the same or a larger identifier. *)
Theorem bindings_are_never_dropped
    (cs : list (Z * MgrCall)) (m : SeqIdManager) :
  reachable m →
  (∀ s b, get_by_seq s m = Some b →
          get_by_seq s (snd (allocations cs m)) = Some b ∨
          get_by_seq s (snd (allocations cs m)) = Some (as_used b)) ∧
  (∀ u b, get_by_uid u m = Some b →
          ∃ b', get_by_uid u (snd (allocations cs m)) = Some b' ∧
                seq_id b <= seq_id b').
Proof. unfold get_by_seq, get_by_uid. apply allocations_keep. Qed.

Lemma bindings_are_never_dropped_witness :
  let m := snd (mgr_call 0 (Issue "A" None) manager_1_20) in
  let cs := [(5, MarkUsed "A" 1); (6, Issue "A" None)] in
  (∀ s b, get_by_seq s m = Some b →
          get_by_seq s (snd (allocations cs m)) = Some b ∨
          get_by_seq s (snd (allocations cs m)) = Some (as_used b)) ∧
  (∀ u b, get_by_uid u m = Some b →
          ∃ b', get_by_uid u (snd (allocations cs m)) = Some b' ∧
                seq_id b <= seq_id b').
Proof.
  intros m cs. apply (bindings_are_never_dropped cs m).
  apply reach_call, (reach_init 1 20). reflexivity.
Defined.


(** *** Allocation *)

(** An [issue] call from the manager's side: nothing happens (the uid is
    refused, or its active binding is handed out again), a binding is
    allocated under the counter's value, or the counter is advanced and
    OverflowError raised. *)
Lemma mgr_call_issue wall u t m :
  wf m →
  (mgr_call wall (Issue u t) m = (None, m) ∧
   (fst (issue u t wall m) = Raised (ValueError "uid must be non-empty") ∨
    ∃ b, _by_uid m !! u = Some b ∧ used b = false ∧
         fst (issue u t wall m) = Returned b)) ∨
  (mgr_call wall (Issue u t) m
   = (Some (_counter m), with_fresh u (now_or t wall) m) ∧
   fst (issue u t wall m) = Returned (fresh_binding u (now_or t wall) m)) ∨
  (mgr_call wall (Issue u t) m = (None, bumped m) ∧
   fst (issue u t wall m) = Raised OverflowError).
Proof.
  intros [Hv Hwf]. simpl.
  destruct (issue_outcomes u t wall m)
    as [[_ ->]|[(_ & b & Hl & Ha & ->)|[(_ & Hna & Hfit & ->)|(_ & _ & _ & ->)]]];
    simpl.
  - left. split; [done|by left].
  - left. rewrite bool_decide_eq_true_2 by done. split; [done|]. right.
    exists b. split_and!; [done| |done].
    unfold active in Ha. apply andb_prop in Ha as [_ Hu].
    by apply negb_true_iff in Hu.
  - right. left. rewrite bool_decide_eq_false_2; [done|].
    intros Hl. specialize (Hna _ Hl). unfold active in Hna. simpl in Hna.
    destruct (Z.ltb_spec (now_or t wall + _validity m) (now_or t wall));
      [lia|done].
  - right. right. done.
Qed.

(** An unused binding found under an identifier after a call was there
    before it, or the call allocated that identifier. *)
Lemma mgr_call_new_key wall c m s b :
  reachable m →
  _by_seq (snd (mgr_call wall c m)) !! s = Some b → used b = false →
  _by_seq m !! s = Some b ∨ fst (mgr_call wall c m) = Some s.
Proof.
  intros Hr. pose proof (reachable_wf m Hr) as Hwf.
  destruct c as [u t|u s1 now|u s1].
  - destruct (mgr_call_issue wall u t m Hwf)
      as [[-> _]|[[-> _]|[-> _]]]; simpl; auto.
    destruct (decide (_counter m = s)) as [->|Hne]; [by right|].
    rewrite lookup_insert_ne by done. auto.
  - simpl. rewrite validate_pure. auto.
  - simpl. unfold mark_used.
    destruct (_by_uid m !! u) as [b1|] eqn:Hl1; simpl; [|auto].
    destruct (Z.eqb_spec (seq_id b1) s1) as [Hs1|]; simpl; [|auto].
    destruct (decide (s1 = s)) as [->|Hne].
    + rewrite lookup_insert_eq. by intros [= <-].
    + rewrite lookup_insert_ne by done. auto.
Qed.

(** A binding [issue] returned along a sequence is unused, and either its
    identifier was allocated along the sequence or it was stored under its
    identifier before the sequence began. *)
Lemma issued_origin cs m b :
  reachable m → b ∈ issued cs m →
  used b = false ∧
  (seq_id b ∈ fst (allocations cs m) ∨ _by_seq m !! seq_id b = Some b).
Proof.
  revert m. induction cs as [|[wall c] cs IH]; intros m Hr; simpl.
  { by intros ?%elem_of_nil. }
  pose proof (reachable_wf m Hr) as Hwf.
  pose proof (reach_call wall c m Hr) as Hr1.
  pose proof (mgr_call_new_key wall c m) as Hkey.
  specialize (IH (snd (mgr_call wall c m)) Hr1).
  assert (b ∈ issued cs (snd (mgr_call wall c m)) →
          used b = false ∧
          (seq_id b ∈ fst (let '(a, m1) := mgr_call wall c m in
                           let '(ids, m2) := allocations cs m1 in
                           (match a with Some i => i :: ids | None => ids end,
                            m2))
           ∨ _by_seq m !! seq_id b = Some b)) as Htail.
  { intros Hin. destruct (IH Hin) as [Hu Hor]. split; [done|].
    destruct (mgr_call wall c m) as [a m1]. simpl in *.
    destruct (allocations cs m1) as [ids m2]. simpl in *.
    destruct Hor as [Hids|Hst].
    - left. destruct a; [by apply list_elem_of_further|done].
    - destruct (Hkey _ _ Hr Hst Hu) as [?| ->]; [by right|].
      left. apply list_elem_of_here. }
  destruct c as [u t|u s1 now|u s1]; [|done..].
  destruct (mgr_call_issue wall u t m Hwf)
    as [[Hc [Hi|(b0 & Hl & Hu & Hi)]]|[[Hc Hi]|[Hc Hi]]];
    rewrite Hi; try exact Htail.
  - intros [->|Hin]%elem_of_cons; [|by apply Htail].
    split; [done|]. right. destruct Hwf as [_ Hwf].
    by destruct (Hwf _ _ Hl) as (_ & _ & _ & ?).
  - intros [->|Hin]%elem_of_cons; [|by apply Htail].
    split; [done|]. left. rewrite Hc. simpl.
    destruct (allocations cs (with_fresh u (now_or t wall) m)).
    apply list_elem_of_here.
Qed.

(** A binding [issue] returned along a sequence is still stored under its
    identifier at the end, at most with its used flag set. *)
Lemma issued_kept cs m b :
  reachable m → b ∈ issued cs m →
  _by_seq (snd (allocations cs m)) !! seq_id b = Some b ∨
  _by_seq (snd (allocations cs m)) !! seq_id b = Some (as_used b).
Proof.
  revert m. induction cs as [|[wall c] cs IH]; intros m Hr; simpl.
  { by intros ?%elem_of_nil. }
  pose proof (reachable_wf m Hr) as Hwf.
  pose proof (reach_call wall c m Hr) as Hr1.
  specialize (IH (snd (mgr_call wall c m)) Hr1).
  pose proof (allocations_keep cs (snd (mgr_call wall c m)) Hr1) as [Hkeep _].
  assert (snd (let '(a, m1) := mgr_call wall c m in
               let '(ids, m2) := allocations cs m1 in
               (match a with Some i => i :: ids | None => ids end, m2))
          = snd (allocations cs (snd (mgr_call wall c m)))) as ->.
  { destruct (mgr_call wall c m) as [a m1]. simpl.
    by destruct (allocations cs m1). }
  destruct c as [u t|u s1 now|u s1]; [|done..].
  destruct (mgr_call_issue wall u t m Hwf)
    as [[Hc [Hi|(b0 & Hl & Hu & Hi)]]|[[Hc Hi]|[Hc Hi]]];
    rewrite Hi; try exact IH.
  - intros [->|Hin]%elem_of_cons; [|by apply IH].
    apply Hkeep. rewrite Hc. simpl. destruct Hwf as [_ Hwf].
    by destruct (Hwf _ _ Hl) as (_ & _ & _ & ?).
  - intros [->|Hin]%elem_of_cons; [|by apply IH].
    apply Hkeep. rewrite Hc. simpl. by rewrite lookup_insert_eq.
Qed.

(** Every allocated identifier is that of a binding [issue] returned. *)
Lemma allocations_issued cs m i :
  reachable m → i ∈ fst (allocations cs m) →
  ∃ b, b ∈ issued cs m ∧ seq_id b = i.
Proof.
  revert m. induction cs as [|[wall c] cs IH]; intros m Hr; simpl.
  { by intros ?%elem_of_nil. }
  pose proof (reachable_wf m Hr) as Hwf.
  pose proof (reach_call wall c m Hr) as Hr1.
  specialize (IH (snd (mgr_call wall c m)) Hr1).
  assert (i ∈ fst (allocations cs (snd (mgr_call wall c m))) →
          ∃ b, b ∈ match c with
                   | Issue u t =>
                       match fst (issue u t wall m) with
                       | Returned b => b :: issued cs (snd (mgr_call wall c m))
                       | Raised _ => issued cs (snd (mgr_call wall c m))
                       end
                   | _ => issued cs (snd (mgr_call wall c m))
                   end ∧ seq_id b = i) as Htail.
  { intros Hin. destruct (IH Hin) as (b & Hb & Hs). exists b. split; [|done].
    destruct c as [u t|u s1 now|u s1]; [|done..].
    destruct (fst (issue u t wall m)); [by apply list_elem_of_further|done]. }
  destruct (mgr_call wall c m) as [a m1] eqn:Hcall. simpl in *.
  destruct (allocations cs m1) as [ids m2]. simpl in *.
  destruct a as [j|]; [|done].
  intros [->|Hin]%elem_of_cons; [|by apply Htail].
  destruct c as [u t|u s1 now|u s1]; [|done..].
  destruct (mgr_call_issue wall u t m Hwf)
    as [[Hc _]|[[Hc Hi]|[Hc _]]]; rewrite Hc in Hcall; simplify_eq.
  rewrite Hi. eexists. split; [apply list_elem_of_here|done].
Qed.

(** C8. Along any sequence of manager calls, on any uids, the identifiers
    that [issue] allocates (those of the bindings it returns that were not
    already the uid's binding) come out strictly increasing: each is greater
    than every one allocated before it, so none is handed out twice; and
    none is below the counter the sequence started from.  On a manager a
    client can reach, moreover, they are greater than every identifier
    stored before the sequence began; they are exactly the identifiers of
    the returned bindings that were not stored before it; and no identifier
    serves two bindings: two bindings that [issue] returned with the same
    identifier are one and the same binding, for the same uid, returned
    again while it was active. *)
Theorem allocated_seq_ids_strictly_increasing (cs : list (Z * MgrCall)) (m : SeqIdManager) :
  StronglySorted Z.lt (fst (allocations cs m)) ∧
  NoDup (fst (allocations cs m)) ∧
  Forall (λ i, _counter m <= i) (fst (allocations cs m)) ∧
  (reachable m →
   (∀ s b, get_by_seq s m = Some b →
           Forall (λ i, s < i) (fst (allocations cs m))) ∧
   (∀ i, i ∈ fst (allocations cs m) ↔
         ∃ b, b ∈ issued cs m ∧ seq_id b = i ∧ get_by_seq i m = None) ∧
   (∀ b1 b2, b1 ∈ issued cs m → b2 ∈ issued cs m →
             seq_id b1 = seq_id b2 → b1 = b2)).
Proof.
  assert (StronglySorted Z.lt (fst (allocations cs m))) as Hs.
  { revert m. induction cs as [|[wall c] cs IH]; intros m; simpl.
    { constructor. }
    pose proof (mgr_call_alloc wall c m) as Ha.
    destruct (mgr_call wall c m) as [a m1]. simpl in *.
    specialize (IH m1). destruct (allocations_bounds cs m1) as [_ Hall].
    destruct (allocations cs m1) as [ids m2]. simpl in *.
    destruct a as [i|]; [|done].
    constructor; [done|]. destruct (Ha i eq_refl) as [-> Hc].
    eapply Forall_impl; [exact Hall|]. simpl. intros; lia. }
  pose proof (allocations_bounds cs m) as [_ Hlow].
  split; [done|]. split; [|split; [done|]].
  { clear -Hs. induction Hs as [|i ids _ IH Hlt]; constructor; [|done].
    intros Hin. rewrite Forall_forall in Hlt. specialize (Hlt i Hin). lia. }
  intros Hr. destruct (reachable_seq_index_ok m Hr) as [_ Hok].
  unfold get_by_seq. split_and!.
  - intros s b Hl. destruct (Hok _ _ Hl) as (_ & ? & _).
    eapply Forall_impl; [exact Hlow|]. simpl. intros; lia.
  - intros i. split.
    + intros Hin. destruct (allocations_issued cs m i Hr Hin) as (b & Hb & Hi).
      exists b. split_and!; [done..|].
      rewrite Forall_forall in Hlow. specialize (Hlow i Hin).
      destruct (_by_seq m !! i) as [b0|] eqn:Hl; [|done].
      destruct (Hok _ _ Hl) as (_ & ? & _). lia.
    + intros (b & Hb & <- & Hnone).
      destruct (issued_origin cs m b Hr Hb) as [_ [?|Hst]]; [done|congruence].
  - intros b1 b2 H1 H2 Heq.
    destruct (issued_origin cs m b1 Hr H1) as [Hu1 _].
    destruct (issued_origin cs m b2 Hr H2) as [Hu2 _].
    pose proof (issued_kept cs m b1 Hr H1) as K1.
    pose proof (issued_kept cs m b2 Hr H2) as K2.
    rewrite Heq in K1.
    destruct b1, b2; simpl in *; subst.
    destruct K1 as [K1|K1], K2 as [K2|K2]; rewrite K1 in K2;
      unfold as_used in K2; simpl in K2; congruence.
Qed.

Lemma allocated_seq_ids_strictly_increasing_witness :
  let m := snd (mgr_call 0 (Issue "A" None) manager_1_20) in
  let cs := [(1, Issue "B" None); (2, Issue "A" None); (3, MarkUsed "A" 1);
             (4, Issue "A" None); (5, Issue "C" (Some datetime_max));
             (6, Issue "C" None)] in
  fst (allocations cs m) = [2; 3; 5] ∧
  map seq_id (issued cs m) = [2; 1; 3; 5] ∧
  StronglySorted Z.lt (fst (allocations cs m)) ∧
  NoDup (fst (allocations cs m)) ∧
  Forall (λ i, _counter m <= i) (fst (allocations cs m)) ∧
  (∀ s b, get_by_seq s m = Some b →
          Forall (λ i, s < i) (fst (allocations cs m))) ∧
  (∀ i, i ∈ fst (allocations cs m) ↔
        ∃ b, b ∈ issued cs m ∧ seq_id b = i ∧ get_by_seq i m = None) ∧
  (∀ b1 b2, b1 ∈ issued cs m → b2 ∈ issued cs m →
            seq_id b1 = seq_id b2 → b1 = b2).
Proof.
  intros m cs. split; [reflexivity|]. split; [reflexivity|].
  destruct (allocated_seq_ids_strictly_increasing cs m) as (H1 & H2 & H3 & H4).
  split; [exact H1|]. split; [exact H2|]. split; [exact H3|].
  apply H4. apply reach_call, (reach_init 1 20). reflexivity.
Defined.
(** ** The engine, further *)

(** *** The other handlers, branch by branch *)

Lemma ensure_fsm_set u f e :
  {| seq := seq (ensure_fsm u e); _fsms := <[u := f]> (_fsms (ensure_fsm u e)) |}
  = {| seq := seq e; _fsms := <[u := f]> (_fsms e) |}.
Proof.
  unfold ensure_fsm, _get_fsm. destruct (_fsms e !! u); simpl; [done|].
  by rewrite insert_insert_eq.
Qed.

Lemma rfid_read_run w u g ts e :
  handle_rfid_read w u g ts e
  = (Returned
       (if decide (current_state e u = UNREGISTERED)
        then {| decision := ACCEPT; reason := "STATE_ADVANCED"; asset_id := u;
                prev_state := UNREGISTERED; next_state := RFID_VERIFIED;
                event := RFID_READ; timestamp_utc := WallIso (at_stamp w);
                details := [("gateway_id", VStr g)] |}
        else {| decision := REJECT;
                reason := "ILLEGAL_TRANSITION:"
                            ++ state_value (current_state e u) ++ "->RFID_READ";
                asset_id := u;
                prev_state := current_state e u;
                next_state := current_state e u;
                event := RFID_READ; timestamp_utc := WallIso (at_stamp w);
                details := [("gateway_id", VStr g)] |}),
     {| seq := seq e;
        _fsms := <[u := {| _state := if decide (current_state e u = UNREGISTERED)
                                     then RFID_VERIFIED else current_state e u |}]>
                   (_fsms e) |},
     [CallApply u RFID_READ]).
Proof.
  rewrite <- (ensure_fsm_set u _ e).
  unfold handle_rfid_read. enter_handler u e.
  destruct (current_state e u) eqn:Hst; crank Hf0; done.
Qed.

Lemma seq_request_gate w u ts e :
  current_state e u ≠ RFID_VERIFIED →
  handle_seq_request w u ts e
  = (Returned (_reject_simple (at_stamp w) u (current_state e u) SEQ_ASSIGNED
                 "STATE_NOT_RFID_VERIFIED"
                 [("ts", VStamp (ts_or ts (at_entry w)))]),
     ensure_fsm u e, [ReadState u; ReadState u]).
Proof.
  intros Hst. unfold handle_seq_request. enter_handler u e.
  destruct (current_state e u) eqn:Hcur; crank Hf0; done.
Qed.

Lemma seq_request_raises w u ts e x m' :
  current_state e u = RFID_VERIFIED →
  issue u None (at_seq w) (seq e) = (Raised x, m') →
  handle_seq_request w u ts e
  = (Raised x, {| seq := m'; _fsms := _fsms e |}, [ReadState u; CallIssue u]).
Proof.
  intros Hst Hi. unfold handle_seq_request. enter_handler u e.
  rewrite Hst in *. rewrite Hp0 in * by done. clear Hp0. crank Hf0.
  by rewrite Hi.
Qed.

Lemma seq_request_blank w u ts e :
  current_state e u = RFID_VERIFIED → blank u = true →
  handle_seq_request w u ts e
  = (Raised (ValueError "uid must be non-empty"), e, [ReadState u; CallIssue u]).
Proof.
  intros Hst Hb.
  rewrite (seq_request_raises w u ts e _ (seq e)) by (by try apply issue_blank).
  by rewrite eta_engine.
Qed.

Lemma seq_request_run w u ts e b m' :
  current_state e u = RFID_VERIFIED →
  issue u None (at_seq w) (seq e) = (Returned b, m') →
  handle_seq_request w u ts e
  = (Returned {| decision := ACCEPT; reason := "SEQ_ISSUED"; asset_id := u;
                 prev_state := RFID_VERIFIED; next_state := SEQ_BOUND;
                 event := SEQ_ASSIGNED;
                 timestamp_utc := ts_or ts (at_entry w);
                 details :=
                   [("seq_id", VInt (seq_id b));
                    ("issued_at", VStamp (WallIso (issued_at b)));
                    ("expires_at", VStamp (WallIso (expires_at b)))] |},
     {| seq := m'; _fsms := <[u := {| _state := SEQ_BOUND |}]> (_fsms e) |},
     [ReadState u; CallIssue u; CallApply u SEQ_ASSIGNED]).
Proof.
  intros Hst Hi. unfold handle_seq_request. enter_handler u e.
  rewrite Hst in *. rewrite Hp0 in * by done. clear Hp0. crank Hf0.
  rewrite Hi. by crank Hf0.
Qed.

Lemma slot_assigned_gate w u sl ts e :
  current_state e u ≠ XRF_VERIFIED →
  handle_slot_assigned w u sl ts e
  = (Returned (_reject_simple (at_stamp w) u (current_state e u) SLOT_ASSIGNED
                 "STATE_NOT_XRF_VERIFIED" [("slot_id", VStr sl)]),
     ensure_fsm u e, [ReadState u; ReadState u]).
Proof.
  intros Hst. unfold handle_slot_assigned. enter_handler u e.
  destruct (current_state e u) eqn:Hcur; crank Hf0; done.
Qed.

Lemma slot_assigned_run w u sl ts e :
  current_state e u = XRF_VERIFIED →
  handle_slot_assigned w u sl ts e
  = (Returned {| decision := ACCEPT; reason := "STATE_ADVANCED"; asset_id := u;
                 prev_state := XRF_VERIFIED; next_state := SLOT_BOUND;
                 event := SLOT_ASSIGNED;
                 timestamp_utc := WallIso (at_stamp w);
                 details := [("slot_id", VStr sl)] |},
     {| seq := seq e; _fsms := <[u := {| _state := SLOT_BOUND |}]> (_fsms e) |},
     [ReadState u; CallApply u SLOT_ASSIGNED]).
Proof.
  intros Hst. unfold handle_slot_assigned. enter_handler u e.
  rewrite Hst in *. rewrite Hp0 in * by done. clear Hp0. by crank Hf0.
Qed.

Lemma storage_confirmed_gate w u sl ts e :
  current_state e u ≠ SLOT_BOUND →
  handle_storage_confirmed w u sl ts e
  = (Returned (_reject_simple (at_stamp w) u (current_state e u)
                 STORAGE_CONFIRMED "STATE_NOT_SLOT_BOUND"
                 [("slot_id", VStr sl)]),
     ensure_fsm u e, [ReadState u; ReadState u]).
Proof.
  intros Hst. unfold handle_storage_confirmed. enter_handler u e.
  destruct (current_state e u) eqn:Hcur; crank Hf0; done.
Qed.

Lemma storage_confirmed_run w u sl ts e :
  current_state e u = SLOT_BOUND →
  handle_storage_confirmed w u sl ts e
  = (Returned {| decision := ACCEPT; reason := "STATE_ADVANCED"; asset_id := u;
                 prev_state := SLOT_BOUND; next_state := STORED;
                 event := STORAGE_CONFIRMED;
                 timestamp_utc := WallIso (at_stamp w);
                 details := [("slot_id", VStr sl)] |},
     {| seq := seq e; _fsms := <[u := {| _state := STORED |}]> (_fsms e) |},
     [ReadState u; CallApply u STORAGE_CONFIRMED]).
Proof.
  intros Hst. unfold handle_storage_confirmed. enter_handler u e.
  rewrite Hst in *. rewrite Hp0 in * by done. clear Hp0. by crank Hf0.
Qed.

(** X14. An RFID read is decided by the state machine alone: it is accepted
    exactly in UNREGISTERED, moving the asset to RFID_VERIFIED with reason
    STATE_ADVANCED, and in any other state it is rejected with reason
    ILLEGAL_TRANSITION:state->RFID_READ and the asset stays put.  The uid is
    not inspected (an empty one is served like any other), the caller's
    timestamp is not used, and the identity manager is not touched. *)
Theorem rfid_read_decision
    (w : WallClock) (u gateway_id : string) (ts : option string)
    (e : AssetLifecycleEnforcementEngine) :
  ∃ dd e',
    handle_rfid_read w u gateway_id ts e
    = (Returned dd, e', [CallApply u RFID_READ]) ∧
    seq e' = seq e ∧ asset_id dd = u ∧ event dd = RFID_READ ∧
    prev_state dd = current_state e u ∧ next_state dd = current_state e' u ∧
    timestamp_utc dd = WallIso (at_stamp w) ∧
    details dd = [("gateway_id", VStr gateway_id)] ∧
    (current_state e u = UNREGISTERED →
       decision dd = ACCEPT ∧ reason dd = "STATE_ADVANCED" ∧
       current_state e' u = RFID_VERIFIED) ∧
    (current_state e u ≠ UNREGISTERED →
       decision dd = REJECT ∧ current_state e' u = current_state e u ∧
       reason dd = "ILLEGAL_TRANSITION:" ++ state_value (current_state e u)
                     ++ "->RFID_READ").
Proof.
  eexists _, _. split; [apply rfid_read_run|].
  rewrite current_state_insert.
  destruct (decide (current_state e u = UNREGISTERED)) as [Hst|Hst];
    rewrite decide_True by done; simpl; split_and!; done.
Qed.

(** X15. A SeqID request outside RFID_VERIFIED is rejected with
    STATE_NOT_RFID_VERIFIED before the manager is called.  In RFID_VERIFIED
    the manager's [issue] runs at the wall-clock reading (the caller's
    timestamp is not passed on), and the handler goes by what it does.
    - When [issue] returns a binding, which it does for every uid it accepts
      at a time whose expiry time is a [datetime], the event SEQ_ASSIGNED is
      applied to the state machine, the asset moves to SEQ_BOUND, and the
      decision is ACCEPT with reason SEQ_ISSUED; its details carry the
      binding's identifier, issue and expiry times, and it is stamped with
      the caller's timestamp when one was given.
    - For an empty or whitespace uid the call raises ValueError and the
      engine is as it was.
    - For another uid with no active binding, at a time whose expiry time is
      past [datetime.max], the call raises OverflowError: the manager's
      counter has advanced, nothing else has changed, and the asset is still
      RFID_VERIFIED. *)
Theorem seq_request_decision
    (w : WallClock) (u : string) (ts : option string)
    (e : AssetLifecycleEnforcementEngine) :
  (current_state e u ≠ RFID_VERIFIED →
   handle_seq_request w u ts e
   = (Returned (_reject_simple (at_stamp w) u (current_state e u) SEQ_ASSIGNED
                  "STATE_NOT_RFID_VERIFIED"
                  [("ts", VStamp (ts_or ts (at_entry w)))]),
      ensure_fsm u e, [ReadState u; ReadState u])) ∧
  (current_state e u = RFID_VERIFIED →
   ∀ b m',
     issue u None (at_seq w) (seq e) = (Returned b, m') →
     handle_seq_request w u ts e
     = (Returned {| decision := ACCEPT; reason := "SEQ_ISSUED"; asset_id := u;
                    prev_state := RFID_VERIFIED; next_state := SEQ_BOUND;
                    event := SEQ_ASSIGNED;
                    timestamp_utc := ts_or ts (at_entry w);
                    details :=
                      [("seq_id", VInt (seq_id b));
                       ("issued_at", VStamp (WallIso (issued_at b)));
                       ("expires_at", VStamp (WallIso (expires_at b)))] |},
        {| seq := m'; _fsms := <[u := {| _state := SEQ_BOUND |}]> (_fsms e) |},
        [ReadState u; CallIssue u; CallApply u SEQ_ASSIGNED])) ∧
  (blank u = false → is_datetime (at_seq w + _validity (seq e)) = true →
   ∃ b m', issue u None (at_seq w) (seq e) = (Returned b, m')) ∧
  (current_state e u = RFID_VERIFIED → blank u = true →
   handle_seq_request w u ts e
   = (Raised (ValueError "uid must be non-empty"), e,
      [ReadState u; CallIssue u])) ∧
  (current_state e u = RFID_VERIFIED → blank u = false →
   (∀ b, _by_uid (seq e) !! u = Some b → active b (at_seq w) = false) →
   is_datetime (at_seq w + _validity (seq e)) = false →
   handle_seq_request w u ts e
   = (Raised OverflowError,
      {| seq := bumped (seq e); _fsms := _fsms e |},
      [ReadState u; CallIssue u]) ∧
   current_state {| seq := bumped (seq e); _fsms := _fsms e |} u
   = RFID_VERIFIED).
Proof.
  split_and!.
  - apply seq_request_gate.
  - intros Hst b m' Hi. by apply seq_request_run.
  - intros Hb Hfit.
    destruct (issue_outcomes u None (at_seq w) (seq e))
      as [[? _]|[(_ & b & _ & _ & ->)|[(_ & _ & _ & ->)|(_ & _ & ? & _)]]];
      [congruence|by eexists _, _..|]. simpl in *. congruence.
  - apply seq_request_blank.
  - intros Hst Hb Hna Hfit. split; [|done].
    apply seq_request_raises; [done|].
    destruct (issue_outcomes u None (at_seq w) (seq e))
      as [[? _]|[(_ & b & Hl & Ha & _)|[(_ & _ & ? & _)|(_ & _ & _ & ->)]]];
      [congruence| |simpl in *; congruence|done].
    specialize (Hna _ Hl). simpl in Ha. congruence.
Qed.

Lemma seq_request_decision_witness :
  let e := snd (run [(clock 0, RfidRead "A" "GW01" None)]
                  (enforcement_engine.__init__ manager_1_20)) in
  handle_seq_request (clock 3) "A" (Some "ts") engine_A_seq_bound
  = (Returned (_reject_simple 3 "A" (current_state engine_A_seq_bound "A")
                 SEQ_ASSIGNED "STATE_NOT_RFID_VERIFIED"
                 [("ts", VStamp (ts_or (Some "ts") 3))]),
     ensure_fsm "A" engine_A_seq_bound, [ReadState "A"; ReadState "A"]) ∧
  (handle_seq_request (clock datetime_max) "A" None e
   = (Raised OverflowError,
      {| seq := bumped (seq e); _fsms := _fsms e |},
      [ReadState "A"; CallIssue "A"]) ∧
   current_state {| seq := bumped (seq e); _fsms := _fsms e |} "A"
   = RFID_VERIFIED).
Proof.
  intros e. split.
  - apply (proj1 (seq_request_decision (clock 3) "A" (Some "ts")
                    engine_A_seq_bound)).
    vm_compute. discriminate.
  - apply (proj2 (proj2 (proj2 (proj2
             (seq_request_decision (clock datetime_max) "A" None e))))).
    + reflexivity.
    + reflexivity.
    + intros b Hl. exfalso. revert Hl. vm_compute. discriminate.
    + reflexivity.
Defined.

(** X16. A slot assignment is accepted exactly in XRF_VERIFIED, moving the
    asset to SLOT_BOUND; in any other state it is rejected with
    STATE_NOT_XRF_VERIFIED.  Either way the identity manager is not
    touched. *)
Theorem slot_assigned_decision
    (w : WallClock) (u slot_id : string) (ts : option string)
    (e : AssetLifecycleEnforcementEngine) :
  (current_state e u ≠ XRF_VERIFIED →
   handle_slot_assigned w u slot_id ts e
   = (Returned (_reject_simple (at_stamp w) u (current_state e u) SLOT_ASSIGNED
                  "STATE_NOT_XRF_VERIFIED" [("slot_id", VStr slot_id)]),
      ensure_fsm u e, [ReadState u; ReadState u])) ∧
  (current_state e u = XRF_VERIFIED →
   handle_slot_assigned w u slot_id ts e
   = (Returned {| decision := ACCEPT; reason := "STATE_ADVANCED"; asset_id := u;
                  prev_state := XRF_VERIFIED; next_state := SLOT_BOUND;
                  event := SLOT_ASSIGNED;
                  timestamp_utc := WallIso (at_stamp w);
                  details := [("slot_id", VStr slot_id)] |},
      {| seq := seq e; _fsms := <[u := {| _state := SLOT_BOUND |}]> (_fsms e) |},
      [ReadState u; CallApply u SLOT_ASSIGNED])) ∧
  seq (snd (fst (handle_slot_assigned w u slot_id ts e))) = seq e.
Proof.
  split_and!; [apply slot_assigned_gate|apply slot_assigned_run|].
  destruct (decide (current_state e u = XRF_VERIFIED)) as [Hst|Hst].
  - by rewrite slot_assigned_run.
  - rewrite slot_assigned_gate by done. apply ensure_fsm_seq.
Qed.

(** X17. A storage confirmation is accepted exactly in SLOT_BOUND, moving
    the asset to STORED; in any other state it is rejected with
    STATE_NOT_SLOT_BOUND.  The slot named in the call is not compared with
    the slot assigned before: every slot id gets the same answer. *)
Theorem storage_confirmed_decision
    (w : WallClock) (u slot_id : string) (ts : option string)
    (e : AssetLifecycleEnforcementEngine) :
  (current_state e u ≠ SLOT_BOUND →
   handle_storage_confirmed w u slot_id ts e
   = (Returned (_reject_simple (at_stamp w) u (current_state e u)
                  STORAGE_CONFIRMED "STATE_NOT_SLOT_BOUND"
                  [("slot_id", VStr slot_id)]),
      ensure_fsm u e, [ReadState u; ReadState u])) ∧
  (current_state e u = SLOT_BOUND →
   handle_storage_confirmed w u slot_id ts e
   = (Returned {| decision := ACCEPT; reason := "STATE_ADVANCED"; asset_id := u;
                  prev_state := SLOT_BOUND; next_state := STORED;
                  event := STORAGE_CONFIRMED;
                  timestamp_utc := WallIso (at_stamp w);
                  details := [("slot_id", VStr slot_id)] |},
      {| seq := seq e; _fsms := <[u := {| _state := STORED |}]> (_fsms e) |},
      [ReadState u; CallApply u STORAGE_CONFIRMED])) ∧
  seq (snd (fst (handle_storage_confirmed w u slot_id ts e))) = seq e.
Proof.
  split_and!; [apply storage_confirmed_gate|apply storage_confirmed_run|].
  destruct (decide (current_state e u = SLOT_BOUND)) as [Hst|Hst].
  - by rewrite storage_confirmed_run.
  - rewrite storage_confirmed_gate by done. apply ensure_fsm_seq.
Qed.

(** *** What one call does to the manager *)

Lemma issue_other_uid u t wall m u' :
  u' ≠ u → _by_uid (snd (issue u t wall m)) !! u' = _by_uid m !! u'.
Proof.
  intros Hne.
  destruct (issue_outcomes u t wall m)
    as [[_ ->]|[(_ & b & _ & _ & ->)|[(_ & _ & _ & ->)|(_ & _ & _ & ->)]]];
    simpl; try done; by rewrite lookup_insert_ne.
Qed.

Lemma mark_used_other_uid u s m u' :
  u' ≠ u → _by_uid (snd (mark_used u s m)) !! u' = _by_uid m !! u'.
Proof.
  intros Hne. unfold mark_used. repeat case_match; simpl; try done.
  by rewrite lookup_insert_ne.
Qed.

Ltac state_goal Hc0 Hst :=
  rewrite ?current_state_insert, ?current_state_seq;
  try (rewrite decide_True by done); simpl; rewrite ?Hc0, ?Hst.

Ltac manager_untouched Hs0 Hc0 Hst :=
  intros [= <- <- <-]; left; simpl; split;
  [ done
  | state_goal Hc0 Hst; first [ by left | right; by split ] ].

Lemma call_binding_effect w c e o e' tr :
  call w c e = (o, e', tr) →
  (seq e' = seq e ∧
   (current_state e' (call_uid c) = current_state e (call_uid c) ∨
    (current_state e (call_uid c) ≠ RFID_VERIFIED ∧
     current_state e (call_uid c) ≠ SEQ_BOUND))) ∨
  (current_state e (call_uid c) = RFID_VERIFIED ∧
   current_state e' (call_uid c) = SEQ_BOUND ∧
   ∃ b, issue (call_uid c) None (at_seq w) (seq e) = (Returned b, seq e')) ∨
  (current_state e (call_uid c) = SEQ_BOUND ∧
   current_state e' (call_uid c) = XRF_VERIFIED ∧
   ∃ s b, _by_uid (seq e) !! call_uid c = Some b ∧ seq_id b = s ∧
          used b = false ∧ at_seq w <= expires_at b ∧
          seq e' = snd (mark_used (call_uid c) s (seq e))) ∨
  (o = Raised OverflowError ∧
   current_state e (call_uid c) = RFID_VERIFIED ∧
   current_state e' (call_uid c) = current_state e (call_uid c) ∧
   issue (call_uid c) None (at_seq w) (seq e)
   = (Raised OverflowError, seq e') ∧
   seq e' = bumped (seq e)).
Proof.
  destruct c as [u g ts|u ts|u s p d k pc ts th|u sl ts|u sl ts|u sl ts]; simpl.
  - unfold handle_rfid_read. enter_handler u e.
    destruct (current_state e u) eqn:Hst; crank Hf0;
      manager_untouched Hs0 Hc0 Hst.
  - unfold handle_seq_request. enter_handler u e.
    destruct (current_state e u) eqn:Hst; crank Hf0;
      try solve [manager_untouched Hs0 Hc0 Hst].
    rewrite Hp0 in * by done. clear Hp0.
    destruct (issue_outcomes u None (at_seq w) (seq e))
      as [[_ Hi]|[(_ & b & _ & _ & Hi)|[(_ & _ & _ & Hi)|(_ & _ & _ & Hi)]]];
      rewrite Hi.
    + intros [= <- <- <-]. left. split; [done|].
      left. by rewrite current_state_seq.
    + crank Hf0. intros [= <- <- <-]. right. left.
      split; [done|]. split; [by state_goal Hc0 Hst|]. by eexists.
    + crank Hf0. intros [= <- <- <-]. right. left.
      split; [done|]. split; [by state_goal Hc0 Hst|]. by eexists.
    + intros [= <- <- <-]. right. right. right. split_and!; try done.
  - unfold handle_xrf_report. enter_handler u e.
    destruct (current_state e u) eqn:Hst; crank Hf0;
      try solve [manager_untouched Hs0 Hc0 Hst].
    rewrite Hp0 in * by done. clear Hp0.
    destruct (validate_returns u s None (at_seq w) (seq e)) as [r Hv].
    rewrite Hv.
    destruct (String.eqb_spec r "OK") as [->|Hr]; crank Hf0;
      [|manager_untouched Hs0 Hc0 Hst].
    destruct (Qltb p _); crank Hf0; [manager_untouched Hs0 Hc0 Hst|].
    destruct (d <? _); crank Hf0; [manager_untouched Hs0 Hc0 Hst|].
    destruct (_ && negb k); crank Hf0; [manager_untouched Hs0 Hc0 Hst|].
    destruct (validate_ok_inv u s None (at_seq w) (seq e))
      as (b & Hl & Hsb & Hu & Ht); [by rewrite Hv|].
    rewrite (mark_used_found _ _ _ _ Hl Hsb).
    intros [= <- <- <-]. right. right. left.
    split; [done|]. split; [by state_goal Hc0 Hst|].
    exists s, b. split_and!; try done. simpl.
    by rewrite (mark_used_found _ _ _ _ Hl Hsb).
  - unfold handle_slot_assigned. enter_handler u e.
    destruct (current_state e u) eqn:Hst; crank Hf0;
      manager_untouched Hs0 Hc0 Hst.
  - unfold handle_storage_confirmed. enter_handler u e.
    destruct (current_state e u) eqn:Hst; crank Hf0;
      manager_untouched Hs0 Hc0 Hst.
  - unfold handle_slot_motion. enter_handler u e.
    destruct (current_state e u) eqn:Hst; crank Hf0;
      manager_untouched Hs0 Hc0 Hst.
Qed.

Lemma call_other_binding w c e o e' tr u' :
  call w c e = (o, e', tr) → u' ≠ call_uid c →
  _by_uid (seq e') !! u' = _by_uid (seq e) !! u'.
Proof.
  intros Hcall Hne.
  destruct (call_binding_effect _ _ _ _ _ _ Hcall)
    as [[-> _]|[(_ & _ & b & Hi)|[(_ & _ & s & b & _ & _ & _ & _ & ->)
       |(_ & _ & _ & _ & ->)]]].
  - done.
  - pose proof (issue_other_uid (call_uid c) None (at_seq w) (seq e) u' Hne) as H.
    by rewrite Hi in H.
  - by apply mark_used_other_uid.
  - done.
Qed.

Lemma call_manager_reachable w c e o e' tr :
  call w c e = (o, e', tr) → reachable (seq e) → reachable (seq e').
Proof.
  intros Hcall Hr.
  destruct (call_binding_effect _ _ _ _ _ _ Hcall)
    as [[-> _]|[(_ & _ & b & Hi)|[(_ & _ & s & b & _ & _ & _ & _ & ->)
       |(_ & _ & _ & Hi & _)]]].
  - done.
  - pose proof (reach_call (at_seq w) (Issue (call_uid c) None) (seq e) Hr) as H.
    simpl in H. by rewrite Hi in H.
  - apply (reach_call 0 (MarkUsed (call_uid c) s) (seq e) Hr).
  - pose proof (reach_call (at_seq w) (Issue (call_uid c) None) (seq e) Hr) as H.
    simpl in H. by rewrite Hi in H.
Qed.

(** X18. Assets do not interfere.  A call about one uid leaves every other
    uid as it was: same state, same stored binding, hence the same answer
    from [validate]. *)
Theorem calls_leave_other_assets
    (w : WallClock) (c : Call) (e e' : AssetLifecycleEnforcementEngine)
    (o : Outcome EnforcementDecision) (tr : list Step) (u' : string) :
  call w c e = (o, e', tr) → u' ≠ call_uid c →
  current_state e' u' = current_state e u' ∧
  get_by_uid u' (seq e') = get_by_uid u' (seq e) ∧
  ∀ s now wall,
    fst (validate u' s now wall (seq e')) = fst (validate u' s now wall (seq e)).
Proof.
  intros Hcall Hne.
  pose proof (call_effect _ _ _ _ _ _ Hcall) as [Hoth _].
  pose proof (call_other_binding _ _ _ _ _ _ u' Hcall Hne) as Hl.
  split_and!; [by apply Hoth|done|].
  intros s now wall. unfold validate. rewrite Hl.
  destruct (_by_uid (seq e) !! u'); [|done]. by repeat case_match.
Qed.

Lemma calls_leave_other_assets_witness :
  ∃ e',
    current_state e' "A" = current_state engine_A_seq_bound "A" ∧
    get_by_uid "A" (seq e') = get_by_uid "A" (seq engine_A_seq_bound) ∧
    ∀ s now wall,
      fst (validate "A" s now wall (seq e'))
      = fst (validate "A" s now wall (seq engine_A_seq_bound)).
Proof.
  eexists.
  eapply (calls_leave_other_assets (clock 9) (RfidRead "B" "GW01" None)
            engine_A_seq_bound _ _ _ "A").
  - vm_compute. reflexivity.
  - discriminate.
Defined.

Lemma validate_reason_cases u s now wall m r :
  fst (validate u s now wall m) = Returned r →
  r = "OK" ∨ r = "NO_BINDING_FOR_UID" ∨ r = "SEQ_MISMATCH" ∨ r = "EXPIRED" ∨
  r = "ALREADY_USED".
Proof.
  unfold validate. destruct (_by_uid m !! u); [|simpl; intros [= <-]; auto].
  repeat case_match; simpl; intros [= <-]; auto 10.
Qed.

Ltac in_list :=
  repeat first [ apply list_elem_of_here | apply list_elem_of_further ].

Ltac reason_goal :=
  intros [= <- <- <-]; simpl;
  split_and!;
  [ first [ left; by in_list | right; split_and!; by eauto ]
  | split; [ intros; first [ done | by left | by right ]
           | intros [?|?]; done ]
  | split; intros; done ].

(** X19. The reason codes form a closed set, and the reason fixes the kind
    of decision.  Every decision carries one of the fourteen literal codes,
    or, for an RFID read outside UNREGISTERED only,
    ILLEGAL_TRANSITION:state->RFID_READ: the other handlers gate on the state
    first, so they never report an illegal transition.  A decision is ACCEPT
    exactly when its reason is STATE_ADVANCED or SEQ_ISSUED, and ALERT
    exactly when it is SLOT_MOTION_DETECTED. *)
Theorem decision_reasons_are_closed
    (w : WallClock) (c : Call) (e e' : AssetLifecycleEnforcementEngine)
    (dd : EnforcementDecision) (tr : list Step) :
  call w c e = (Returned dd, e', tr) →
  (reason dd ∈ fixed_reasons ∨
   ((∃ g ts, c = RfidRead (call_uid c) g ts) ∧
    current_state e (call_uid c) ≠ UNREGISTERED ∧
    reason dd = "ILLEGAL_TRANSITION:"
                  ++ state_value (current_state e (call_uid c))
                  ++ "->RFID_READ")) ∧
  (decision dd = ACCEPT ↔
   reason dd = "STATE_ADVANCED" ∨ reason dd = "SEQ_ISSUED") ∧
  (decision dd = ALERT ↔ reason dd = "SLOT_MOTION_DETECTED").
Proof.
  destruct c as [u g ts|u ts|u s p d k pc ts th|u sl ts|u sl ts|u sl ts]; simpl.
  - unfold handle_rfid_read. enter_handler u e.
    destruct (current_state e u) eqn:Hst; crank Hf0; reason_goal.
  - unfold handle_seq_request. enter_handler u e.
    destruct (current_state e u) eqn:Hst; crank Hf0; try solve [reason_goal].
    destruct (issue_outcomes u None (at_seq w) (seq e0))
      as [[_ ->]|[(_ & b & _ & _ & ->)|[(_ & _ & _ & ->)|(_ & _ & _ & ->)]]];
      try done; crank Hf0; reason_goal.
  - unfold handle_xrf_report. enter_handler u e.
    destruct (current_state e u) eqn:Hst; crank Hf0; try solve [reason_goal].
    destruct (validate_returns u s None (at_seq w) (seq e0)) as [r Hv].
    rewrite Hv.
    destruct (String.eqb_spec r "OK") as [->|Hr]; crank Hf0.
    2:{ destruct (validate_reason_cases u s None (at_seq w) (seq e0) r)
          as [->|[->|[->|[->| ->]]]]; [by rewrite Hv|done|..];
          crank Hf0; reason_goal. }
    destruct (Qltb p _); crank Hf0; [reason_goal|].
    destruct (d <? _); crank Hf0; [reason_goal|].
    destruct (_ && negb k); crank Hf0; [reason_goal|].
    destruct (mark_used_returns u s (seq e0)) as (r' & m' & ->). reason_goal.
  - unfold handle_slot_assigned. enter_handler u e.
    destruct (current_state e u) eqn:Hst; crank Hf0; reason_goal.
  - unfold handle_storage_confirmed. enter_handler u e.
    destruct (current_state e u) eqn:Hst; crank Hf0; reason_goal.
  - unfold handle_slot_motion. enter_handler u e.
    destruct (current_state e u) eqn:Hst; crank Hf0; reason_goal.
Qed.

Lemma decision_reasons_are_closed_witness :
  ∃ dd,
    (reason dd ∈ fixed_reasons ∨
     ((∃ g ts, RfidRead "A" "GW01" None = RfidRead "A" g ts) ∧
      current_state engine_A_seq_bound "A" ≠ UNREGISTERED ∧
      reason dd = "ILLEGAL_TRANSITION:"
                    ++ state_value (current_state engine_A_seq_bound "A")
                    ++ "->RFID_READ")) ∧
    (decision dd = ACCEPT ↔
     reason dd = "STATE_ADVANCED" ∨ reason dd = "SEQ_ISSUED") ∧
    (decision dd = ALERT ↔ reason dd = "SLOT_MOTION_DETECTED").
Proof.
  eexists.
  eapply (decision_reasons_are_closed (clock 9) (RfidRead "A" "GW01" None)
            engine_A_seq_bound).
  vm_compute. reflexivity.
Defined.

(** *** Engines in use *)

Lemma init_engine_reachable_seq start mins m :
  seqid_manager.__init__ start mins = Returned m → _by_uid m = ∅.
Proof.
  unfold seqid_manager.__init__. repeat case_match; try done.
  by intros [= <-].
Qed.

Lemma call_keeps_state_binding w c e o e' tr u :
  call w c e = (o, e', tr) →
  state_matches_binding e u → state_matches_binding e' u.
Proof.
  intros Hcall Hinv. unfold state_matches_binding in *.
  pose proof (call_effect _ _ _ _ _ _ Hcall) as [Hoth Heff].
  destruct (decide (u = call_uid c)) as [->|Hne].
  2:{ rewrite (Hoth u Hne).
      by rewrite (call_other_binding _ _ _ _ _ _ u Hcall Hne). }
  destruct (call_binding_effect _ _ _ _ _ _ Hcall)
    as [[Hseq Hst]|[(Hs0 & Hs1 & b & Hi)
       |[(Hs0 & Hs1 & s & b & Hl & Hsb & Hu & _ & Hseq)
        |(_ & _ & Hsame & _ & Hseq)]]].
  - rewrite Hseq. destruct Hst as [->|[Hn1 Hn2]]; [done|].
    destruct o as [dd|x].
    + destruct Heff as (_ & Hprev & Hnext & Hdec).
      rewrite <- Hprev, <- Hnext in *.
      destruct (decision dd).
      * destruct Hdec as [_ Hidx].
        destruct (prev_state dd), (next_state dd); simpl in Hidx; done.
      * destruct Hdec as [-> _]. done.
      * destruct Hdec as [-> _]. done.
    + destruct Heff as (_ & ? & _). done.
  - rewrite Hs0 in Hinv. rewrite Hs1.
    destruct (blank (call_uid c)) eqn:Hb; [by rewrite issue_blank in Hi|].
    rewrite issue_cases, Hinv in Hi by done. unfold allocate in Hi.
    destruct (is_datetime _); [|done]. injection Hi as <- <-.
    simpl. rewrite lookup_insert_eq. by eexists.
  - rewrite Hs1, Hseq. rewrite (mark_used_found _ _ _ _ Hl Hsb). simpl.
    rewrite lookup_insert_eq. by eexists.
  - by rewrite Hsame, Hseq.
Qed.

Lemma engine_reachable_inv e :
  engine_reachable e → reachable (seq e) ∧ ∀ u, state_matches_binding e u.
Proof.
  induction 1 as [start mins m Hi|w c e Hr [IHr IHs]].
  - split; [by eapply reach_init|]. intros u.
    unfold state_matches_binding, current_state. simpl.
    rewrite lookup_empty. simpl.
    by rewrite (init_engine_reachable_seq _ _ _ Hi), lookup_empty.
  - destruct (call w c e) as [[o e'] tr] eqn:Hcall. simpl. split.
    + by eapply call_manager_reachable.
    + intros u. by eapply call_keeps_state_binding.
Qed.

(** X20. On an engine in use (built over a new manager that is reached
    through the engine only) an asset's state tells what the manager holds
    for it: no binding in UNREGISTERED and RFID_VERIFIED, an unused binding
    in SEQ_BOUND, a used binding from XRF_VERIFIED on.  The manager itself
    stays among the states reachable by its own calls. *)
Theorem state_tells_binding (e : AssetLifecycleEnforcementEngine) (u : string) :
  engine_reachable e →
  reachable (seq e) ∧
  match current_state e u with
  | UNREGISTERED | RFID_VERIFIED => get_by_uid u (seq e) = None
  | SEQ_BOUND => ∃ b, get_by_uid u (seq e) = Some b ∧ used b = false
  | XRF_VERIFIED | SLOT_BOUND | STORED =>
      ∃ b, get_by_uid u (seq e) = Some b ∧ used b = true
  end.
Proof.
  intros Hr. destruct (engine_reachable_inv e Hr) as [Hm Hs].
  split; [done|]. apply Hs.
Qed.

Lemma run_engine_reachable cs e :
  engine_reachable e → engine_reachable (snd (run cs e)).
Proof.
  revert e. induction cs as [|[w c] cs IH]; intros e Hr; simpl; [done|].
  pose proof (engine_call w c e Hr) as H1.
  destruct (call w c e) as [[o e1] tr]. simpl in H1.
  specialize (IH e1 H1). by destruct (run cs e1).
Qed.

Lemma state_tells_binding_witness :
  reachable (seq engine_A_seq_bound) ∧
  match current_state engine_A_seq_bound "A" with
  | UNREGISTERED | RFID_VERIFIED => get_by_uid "A" (seq engine_A_seq_bound) = None
  | SEQ_BOUND =>
      ∃ b, get_by_uid "A" (seq engine_A_seq_bound) = Some b ∧ used b = false
  | XRF_VERIFIED | SLOT_BOUND | STORED =>
      ∃ b, get_by_uid "A" (seq engine_A_seq_bound) = Some b ∧ used b = true
  end.
Proof.
  apply (state_tells_binding engine_A_seq_bound "A").
  apply run_engine_reachable, (engine_new 1 20). reflexivity.
Defined.

(** X21. On an engine in use, a verification report is never rejected for a
    missing binding or for a used one: the only identity rejections that can
    come out are SEQ_INVALID:SEQ_MISMATCH and SEQ_INVALID:EXPIRED.  The
    manager's NO_BINDING_FOR_UID and ALREADY_USED answers sit behind the
    state gate. *)
Theorem engine_identity_rejections
    (w : WallClock) (u : string) (s : Z) (p : Q) (d : Z) (k : bool)
    (pc : string) (ts : option string) (th : option Thresholds)
    (e e' : AssetLifecycleEnforcementEngine) (dd : EnforcementDecision)
    (tr : list Step) :
  engine_reachable e →
  handle_xrf_report w u s p d k pc ts th e = (Returned dd, e', tr) →
  reason dd ≠ "SEQ_INVALID:NO_BINDING_FOR_UID" ∧
  reason dd ≠ "SEQ_INVALID:ALREADY_USED" ∧
  (∀ r, reason dd = "SEQ_INVALID:" ++ r → r = "SEQ_MISMATCH" ∨ r = "EXPIRED").
Proof.
  intros Hr H. destruct (engine_reachable_inv e Hr) as [_ Hs].
  specialize (Hs u). unfold state_matches_binding in Hs.
  destruct (decide (current_state e u = SEQ_BOUND)) as [Hst|Hst].
  2:{ rewrite xrf_gate in H by done. simplify_eq. simpl.
      split_and!; try done; intros r [=]. }
  rewrite Hst in Hs. destruct Hs as (b & Hl & Hu).
  destruct (validate_returns u s None (at_seq w) (seq e)) as [r0 Hv].
  assert (r0 = "OK" ∨ r0 = "SEQ_MISMATCH" ∨ r0 = "EXPIRED") as Hr0.
  { revert Hv. unfold validate. rewrite Hl, Hu.
    repeat case_match; intros [= <-]; auto. }
  destruct Hr0 as [->|Hr0].
  - rewrite xrf_checked in H by (by rewrite ?Hv).
    repeat case_match; simplify_eq; simpl; split_and!; try done; intros r [=].
  - erewrite xrf_invalid in H;
      [|done|by rewrite Hv|by destruct Hr0 as [-> | ->]].
    simplify_eq. simpl.
    destruct Hr0 as [-> | ->]; simpl; split_and!; try done;
      intros r Heq; cbv [String.append] in Heq; injection Heq as <-; auto.
Qed.

Lemma engine_identity_rejections_witness :
  ∃ dd,
    reason dd ≠ "SEQ_INVALID:NO_BINDING_FOR_UID" ∧
    reason dd ≠ "SEQ_INVALID:ALREADY_USED" ∧
    (∀ r, reason dd = "SEQ_INVALID:" ++ r → r = "SEQ_MISMATCH" ∨ r = "EXPIRED").
Proof.
  eexists.
  eapply (engine_identity_rejections (clock 5) "A" 7 (996 # 10)%Q 10 true
            "PC01" None THRESHOLDS engine_A_seq_bound).
  - apply run_engine_reachable, (engine_new 1 20). reflexivity.
  - vm_compute. reflexivity.
Defined.

(** X22. On an engine in use every accepted SeqID request allocates: the
    asset had no binding, so the identifier handed out is the counter's
    value, never one issued before; the counter moves up by one; and the
    binding stored for the asset is issued at the wall-clock reading and
    expires the validity later. *)
Theorem accepted_seq_request_allocates
    (w : WallClock) (u : string) (ts : option string)
    (e e' : AssetLifecycleEnforcementEngine) (dd : EnforcementDecision)
    (tr : list Step) :
  engine_reachable e →
  handle_seq_request w u ts e = (Returned dd, e', tr) →
  decision dd = ACCEPT →
  _counter (seq e') = _counter (seq e) + 1 ∧
  get_by_uid u (seq e')
  = Some {| uid := u; seq_id := _counter (seq e); issued_at := at_seq w;
            expires_at := at_seq w + _validity (seq e); used := false |} ∧
  details dd
  = [("seq_id", VInt (_counter (seq e)));
     ("issued_at", VStamp (WallIso (at_seq w)));
     ("expires_at", VStamp (WallIso (at_seq w + _validity (seq e))))].
Proof.
  intros Hr H Hacc. destruct (engine_reachable_inv e Hr) as [_ Hs].
  specialize (Hs u). unfold state_matches_binding in Hs.
  destruct (decide (current_state e u = RFID_VERIFIED)) as [Hst|Hst];
    [|rewrite seq_request_gate in H by done; by simplify_eq].
  rewrite Hst in Hs.
  destruct (blank u) eqn:Hb; [by rewrite seq_request_blank in H|].
  assert (issue u None (at_seq w) (seq e)
          = (Returned (fresh_binding u (at_seq w) (seq e)),
             with_fresh u (at_seq w) (seq e))) as Hi.
  { destruct (issue u None (at_seq w) (seq e)) as [[b|x] m1] eqn:Hi0;
      [|by rewrite (seq_request_raises _ _ _ _ _ _ Hst Hi0) in H].
    rewrite issue_cases, Hs in Hi0 by done. unfold allocate in Hi0.
    by destruct (is_datetime _). }
  rewrite (seq_request_run _ _ _ _ _ _ Hst Hi) in H. simplify_eq. simpl.
  unfold get_by_uid. simpl. by rewrite lookup_insert_eq.
Qed.

Lemma accepted_seq_request_allocates_witness :
  let e := snd (run [(clock 0, RfidRead "B" "GW01" None)] engine_A_seq_bound) in
  ∃ dd e',
    _counter (seq e') = _counter (seq e) + 1 ∧
    get_by_uid "B" (seq e')
    = Some {| uid := "B"; seq_id := _counter (seq e); issued_at := 7;
              expires_at := 7 + _validity (seq e); used := false |} ∧
    details dd
    = [("seq_id", VInt (_counter (seq e)));
       ("issued_at", VStamp (WallIso 7));
       ("expires_at", VStamp (WallIso (7 + _validity (seq e))))].
Proof.
  intros e. eexists _, _.
  eapply (accepted_seq_request_allocates (clock 7) "B" None e).
  - apply run_engine_reachable, run_engine_reachable, (engine_new 1 20).
    reflexivity.
  - vm_compute. reflexivity.
  - reflexivity.
Defined.

(** X23. An asset whose binding has expired while it is SEQ_BOUND is stuck.
    As long as the clock shows a time past the expiry whenever the manager
    is consulted, no sequence of calls, on any uids, gets a decision ACCEPT
    for that asset: it stays SEQ_BOUND with the same binding.  (A new SeqID
    request is refused by its state gate, and no handler leads back.) *)
Theorem expired_in_seq_bound_is_stuck
    (cs : list (WallClock * Call)) (e : AssetLifecycleEnforcementEngine)
    (u : string) (b : SeqBinding) :
  current_state e u = SEQ_BOUND →
  get_by_uid u (seq e) = Some b →
  Forall (λ wc, expires_at b < at_seq (fst wc)) cs →
  accepted_events u (fst (run cs e)) = [] ∧
  current_state (snd (run cs e)) u = SEQ_BOUND ∧
  get_by_uid u (seq (snd (run cs e))) = Some b.
Proof.
  unfold get_by_uid. revert e.
  induction cs as [|[w c] cs IH]; intros e Hst Hl Hlate; simpl; [done|].
  apply Forall_cons in Hlate as [Hw Hlate]. simpl in Hw.
  destruct (call w c e) as [[o e1] tr] eqn:Hcall.
  pose proof (call_effect _ _ _ _ _ _ Hcall) as [Hoth Heff].
  assert (current_state e1 u = SEQ_BOUND ∧ _by_uid (seq e1) !! u = Some b ∧
          accepted_events u [o] = []) as (Hst1 & Hl1 & Hacc1).
  { destruct (decide (u = call_uid c)) as [->|Hne].
    2:{ rewrite (Hoth u Hne).
        rewrite (call_other_binding _ _ _ _ _ _ u Hcall Hne).
        split_and!; [done..|]. destruct o as [dd|x]; simpl; [|done].
        destruct Heff as (Hid & _). rewrite bool_decide_eq_false_2; [done|].
        intros [_ ?]. congruence. }
    destruct (call_binding_effect _ _ _ _ _ _ Hcall)
      as [[Hseq Hsame]|[(Hs0 & _)|[(_ & _ & s & b' & Hl' & _ & _ & Ht & _)
         |(_ & Hs0 & _)]]].
    - destruct Hsame as [Hsame|[_ Hn]]; [|done].
      rewrite Hseq, Hsame. split_and!; [done..|].
      destruct o as [dd|x]; simpl; [|done].
      destruct Heff as (_ & Hprev & Hnext & Hdec).
      rewrite bool_decide_eq_false_2; [done|]. intros [Ha _].
      rewrite Ha in Hdec. destruct Hdec as [_ Hidx].
      rewrite Hprev, Hnext, Hsame in Hidx. lia.
    - congruence.
    - rewrite Hl in Hl'. injection Hl' as <-. lia.
    - congruence. }
  destruct (IH e1 Hst1 Hl1 Hlate) as (IHa & IHs & IHl).
  destruct (run cs e1) as [os e2]. simpl in *.
  split_and!; [|done..].
  destruct o as [dd|x]; simpl in *; [|done].
  by destruct (bool_decide _).
Qed.

Lemma expired_in_seq_bound_is_stuck_witness :
  let b := {| uid := "A"; seq_id := 1; issued_at := 0;
              expires_at := 1200000000; used := false |} in
  let cs := [(clock 1260000000,
              XrfReport "A" 1 (996 # 10)%Q 10 true "PC01" None THRESHOLDS);
             (clock 1260000001, SeqRequest "A" None)] in
  accepted_events "A" (fst (run cs engine_A_seq_bound)) = [] ∧
  current_state (snd (run cs engine_A_seq_bound)) "A" = SEQ_BOUND ∧
  get_by_uid "A" (seq (snd (run cs engine_A_seq_bound))) = Some b.
Proof.
  intros b cs.
  apply (expired_in_seq_bound_is_stuck cs engine_A_seq_bound "A" b).
  - reflexivity.
  - vm_compute. reflexivity.
  - repeat constructor; simpl; lia.
Defined.

Lemma issue_result_stored u t wall m b m' :
  issue u t wall m = (Returned b, m') →
  _by_uid m' !! u = Some b ∧ used b = false.
Proof.
  destruct (issue_outcomes u t wall m)
    as [[_ ->]|[(_ & b0 & Hl & Ha & ->)|[(_ & _ & _ & ->)|(_ & _ & _ & ->)]]];
    try done; intros [= <- <-]; simpl; rewrite ?lookup_insert_eq; try done.
  unfold active in Ha. apply andb_prop in Ha as [_ Hu].
  by apply negb_true_iff in Hu.
Qed.

Lemma current_state_set m (fs : gmap string AssetLifecycleFSM) u f :
  current_state {| seq := m; _fsms := <[u := f]> fs |} u = _state f.
Proof. unfold current_state. simpl. by rewrite lookup_insert_eq. Qed.

(** X24. The legitimate path goes through.  For an asset in UNREGISTERED
    for which [issue] returns a binding: an RFID read, a SeqID request, a
    verification report that presents the issued identifier while the clock
    is not past its expiry and whose measurements meet the thresholds, a
    slot assignment and a storage confirmation, in this order, are all five
    answered ACCEPT; the asset ends STORED with its binding used.  No
    condition is put on the timestamps, gateway, slot or station names. *)
Theorem happy_path_is_accepted
    (e : AssetLifecycleEnforcementEngine) (u : string)
    (w1 w2 w3 w4 w5 : WallClock) (ts1 ts2 ts3 ts4 ts5 : option string)
    (g pc sl1 sl2 : string) (p : Q) (d : Z) (k : bool)
    (th : option Thresholds) (b : SeqBinding) (m' : SeqIdManager) :
  current_state e u = UNREGISTERED →
  issue u None (at_seq w2) (seq e) = (Returned b, m') →
  at_seq w3 <= expires_at b →
  (purity_min_of th <= p)%Q → scan_min_of th <= d →
  (contact_required_of th = true → k = true) →
  let r := run [(w1, RfidRead u g ts1); (w2, SeqRequest u ts2);
                (w3, XrfReport u (seq_id b) p d k pc ts3 th);
                (w4, SlotAssigned u sl1 ts4);
                (w5, StorageConfirmed u sl2 ts5)] e in
  accepted_events u (fst r) = happy_events ∧
  length (fst r) = 5%nat ∧
  current_state (snd r) u = STORED ∧
  get_by_uid u (seq (snd r)) = Some (as_used b).
Proof.
  intros Hst Hi Ht Hp Hd Hk. simpl.
  destruct (issue_result_stored _ _ _ _ _ _ Hi) as [Hl Hu].
  (* 1: RFID read *)
  rewrite rfid_read_run.
  destruct (decide (current_state e u = UNREGISTERED)) as [_|]; [|done].
  set (e1 := {| seq := seq e; _fsms := _ |}).
  assert (current_state e1 u = RFID_VERIFIED) as H1.
  { unfold e1. by rewrite current_state_set. }
  (* 2: SeqID request *)
  rewrite (seq_request_run w2 u ts2 e1 b m' H1 Hi).
  set (e2 := {| seq := m'; _fsms := _ |}).
  assert (current_state e2 u = SEQ_BOUND) as H2.
  { unfold e2. by rewrite current_state_set. }
  (* 3: verification report *)
  assert (fst (validate u (seq_id b) None (at_seq w3) (seq e2)) = Returned "OK")
    as Hv.
  { erewrite validate_found; [|exact Hl|done]. simpl. rewrite Hu.
    destruct (Z.ltb_spec (expires_at b) (at_seq w3)); [lia|done]. }
  rewrite (xrf_checked w3 u (seq_id b) p d k pc ts3 th e2 H2 Hv).
  assert (Qltb p (purity_min_of th) = false) as ->.
  { unfold Qltb. apply negb_false_iff. by apply Qle_bool_iff. }
  assert ((d <? scan_min_of th) = false) as -> by (apply Z.ltb_ge; lia).
  assert (contact_required_of th && negb k = false) as ->.
  { destruct (contact_required_of th); [|done]. by rewrite Hk. }
  rewrite (mark_used_found u (seq_id b) (seq e2) b Hl eq_refl). simpl.
  set (e3 := {| seq := _; _fsms := _ |}).
  assert (current_state e3 u = XRF_VERIFIED) as H3.
  { unfold e3. by rewrite current_state_set. }
  (* 4: slot assignment *)
  rewrite (slot_assigned_run w4 u sl1 ts4 e3 H3).
  set (e4 := {| seq := seq e3; _fsms := _ |}).
  assert (current_state e4 u = SLOT_BOUND) as H4.
  { unfold e4. by rewrite current_state_set. }
  (* 5: storage confirmation *)
  rewrite (storage_confirmed_run w5 u sl2 ts5 e4 H4). simpl.
  rewrite !bool_decide_eq_true_2 by done.
  split_and!; [done|done| |].
  - by rewrite current_state_set.
  - unfold get_by_uid. simpl. by rewrite lookup_insert_eq.
Qed.

Lemma happy_path_is_accepted_witness :
  let e := enforcement_engine.__init__ manager_1_20 in
  let b := {| uid := "UID123"; seq_id := 1; issued_at := 0;
              expires_at := 1200000000; used := false |} in
  let r := run [(clock 0, RfidRead "UID123" "GW01" None);
                (clock 0, SeqRequest "UID123" None);
                (clock 60000000,
                 XrfReport "UID123" (seq_id b) (996 # 10)%Q 10 true "PC01"
                   None THRESHOLDS);
                (clock 60000001, SlotAssigned "UID123" "S-07" None);
                (clock 60000002, StorageConfirmed "UID123" "S-07" None)] e in
  accepted_events "UID123" (fst r) = happy_events ∧
  length (fst r) = 5%nat ∧
  current_state (snd r) "UID123" = STORED ∧
  get_by_uid "UID123" (seq (snd r)) = Some (as_used b).
Proof.
  intros e b.
  apply (happy_path_is_accepted e "UID123" (clock 0) (clock 0)
           (clock 60000000) (clock 60000001) (clock 60000002)
           None None None None None "GW01" "PC01" "S-07" "S-07"
           (996 # 10)%Q 10 true THRESHOLDS b
           (snd (issue "UID123" None 0 (seq e)))).
  - reflexivity.
  - vm_compute. reflexivity.
  - simpl. lia.
  - vm_compute. discriminate.
  - vm_compute. discriminate.
  - reflexivity.
Defined.

(** ** The baseline engine *)

(** X25. The baseline accepts a verification report whenever the uid is not
    empty: in every stage, for every measurement, with no identifier asked
    for; the asset is then XRF_VERIFIED, and the same report presented again
    is accepted again and changes nothing more.  Only an empty uid is
    rejected, with NO_UID, and then nothing is written. *)
Theorem baseline_report_accepts_any_nonempty_uid
    (wall wall' : Z) (u : string) (p p' : Q) (d d' : Z) (k k' : bool)
    (pc pc' : string) (ts ts' : option string)
    (b : baseline_engine.BaselineEngine) :
  (u ≠ "" →
   ∃ dd dd' b1,
     baseline_engine.xrf_report wall u p d k pc ts b = (Returned dd, b1) ∧
     baseline_engine.decision dd = baseline_engine.ACCEPT ∧
     baseline_engine.reason dd = "XRF_OK_BASELINE" ∧
     baseline_engine.stage dd = "XRF_VERIFIED" ∧
     baseline_engine._get_stage u b1 = "XRF_VERIFIED" ∧
     baseline_engine.xrf_report wall' u p' d' k' pc' ts' b1 = (Returned dd', b1) ∧
     baseline_engine.decision dd' = baseline_engine.ACCEPT) ∧
  (u = "" →
   ∃ dd,
     baseline_engine.xrf_report wall u p d k pc ts b = (Returned dd, b) ∧
     baseline_engine.decision dd = baseline_engine.REJECT ∧
     baseline_engine.reason dd = "NO_UID" ∧
     baseline_engine.stage dd = baseline_engine._get_stage u b).
Proof.
  split.
  - intros Hu. unfold baseline_engine.xrf_report.
    assert (str_truthy u = true) as -> by by destruct u.
    simpl. eexists _, _, _. split; [reflexivity|]. simpl.
    unfold baseline_engine._get_stage. simpl. rewrite lookup_insert_eq.
    split_and!; try done; rewrite ?insert_insert_eq; reflexivity.
  - intros ->. by eexists.
Qed.

Lemma baseline_report_accepts_any_nonempty_uid_witness :
  ∃ dd dd' b1,
    baseline_engine.xrf_report 0 "UID999" (0 # 1)%Q 0 false "PC01" None
      baseline_engine.__init__ = (Returned dd, b1) ∧
    baseline_engine.decision dd = baseline_engine.ACCEPT ∧
    baseline_engine.reason dd = "XRF_OK_BASELINE" ∧
    baseline_engine.stage dd = "XRF_VERIFIED" ∧
    baseline_engine._get_stage "UID999" b1 = "XRF_VERIFIED" ∧
    baseline_engine.xrf_report 1 "UID999" (0 # 1)%Q 0 false "PC01" None b1
    = (Returned dd', b1) ∧
    baseline_engine.decision dd' = baseline_engine.ACCEPT.
Proof.
  apply (proj1 (baseline_report_accepts_any_nonempty_uid 0 1 "UID999"
                  (0 # 1)%Q (0 # 1)%Q 0 0 false false "PC01" "PC01" None None
                  baseline_engine.__init__)).
  discriminate.
Defined.

(** X26. The baseline enforces no order.  Every operation returns a
    decision; the stage it reports and leaves for the uid is the one the
    operation writes, whatever the stage was before (a storage confirmation
    on an unseen uid yields STORED), or the stage as it was when the
    operation writes none; the decision is REJECT only for a report with an
    empty uid and ALERT only for a motion; and no other uid's stage
    changes. *)
Theorem baseline_sets_stage_unconditionally
    (wall : Z) (c : baseline_engine.BCall) (b : baseline_engine.BaselineEngine) :
  ∃ dd b1,
    baseline_engine.bcall wall c b = (Returned dd, b1) ∧
    baseline_engine.asset_id dd = baseline_engine.bcall_uid c ∧
    baseline_engine.stage dd
    = baseline_engine._get_stage (baseline_engine.bcall_uid c) b1 ∧
    baseline_engine._get_stage (baseline_engine.bcall_uid c) b1
    = default (baseline_engine._get_stage (baseline_engine.bcall_uid c) b)
        (baseline_engine.target_stage c) ∧
    (∀ u', u' ≠ baseline_engine.bcall_uid c →
           baseline_engine._get_stage u' b1 = baseline_engine._get_stage u' b) ∧
    (baseline_engine.decision dd = baseline_engine.REJECT ↔
     ∃ p d k pc ts, c = baseline_engine.BXrfReport "" p d k pc ts) ∧
    (baseline_engine.decision dd = baseline_engine.ALERT ↔
     ∃ u sl ts, c = baseline_engine.BSlotMotion u sl ts).
Proof.
  destruct c as [u g ts|u p d k pc ts|u sl ts|u sl ts|u sl ts]; simpl.
  2:{ unfold baseline_engine.xrf_report. destruct u as [|a u]; simpl.
      - eexists _, _. split; [reflexivity|]. simpl. split_and!; try done.
        + split; [intros _; by eexists _, _, _, _, _|done].
        + split; [done|]. by intros (? & ? & ? & ?).
      - eexists _, _. split; [reflexivity|]. simpl.
        unfold baseline_engine._get_stage. simpl. rewrite lookup_insert_eq.
        split_and!; try done.
        + intros u' Hne. by rewrite lookup_insert_ne.
        + split; [done|]. by intros (? & ? & ? & ? & ? & ?).
        + split; [done|]. by intros (? & ? & ? & ?). }
  1-3: eexists _, _; (split; [reflexivity|]); simpl;
    unfold baseline_engine._get_stage; simpl; rewrite lookup_insert_eq;
    split_and!; try done;
    [ intros u' Hne; by rewrite lookup_insert_ne
    | split; [done|]; by intros (? & ? & ? & ? & ? & ?)
    | split; [done|]; by intros (? & ? & ? & ?) ].
  eexists _, _. split; [reflexivity|]. simpl. split_and!; try done.
  - split; [done|]. by intros (? & ? & ? & ? & ? & ?).
  - split; [intros _; by eexists _, _, _|done].
Qed.

(** X27. The baseline is strictly weaker than the enforcement engine on
    verification reports.  Whatever report an engine in use accepts, the
    baseline accepts too, in any state of its own.  And any report with a
    non-empty uid for an asset the engine does not hold in SEQ_BOUND is
    rejected by the engine and accepted by the baseline. *)
Theorem baseline_accepts_what_engine_accepts
    (w : WallClock) (wall : Z) (u : string) (s : Z) (p : Q) (d : Z) (k : bool)
    (pc : string) (ts : option string) (th : option Thresholds)
    (e : AssetLifecycleEnforcementEngine) (b : baseline_engine.BaselineEngine) :
  engine_reachable e →
  ∃ dd e' tr bd b1,
    handle_xrf_report w u s p d k pc ts th e = (Returned dd, e', tr) ∧
    baseline_engine.xrf_report wall u p d k pc ts b = (Returned bd, b1) ∧
    (decision dd = ACCEPT →
     baseline_engine.decision bd = baseline_engine.ACCEPT) ∧
    (u ≠ "" → current_state e u ≠ SEQ_BOUND →
     decision dd = REJECT ∧
     baseline_engine.decision bd = baseline_engine.ACCEPT).
Proof.
  intros Hr.
  destruct (handle_xrf_report w u s p d k pc ts th e) as [[o e'] tr] eqn:H.
  pose proof (call_effect w (XrfReport u s p d k pc ts th) e o e' tr H)
    as [_ Heff].
  destruct o as [dd|x]; [|by destruct Heff as ([? [=]] & _)].
  assert (∀ bd b1, u ≠ "" →
            baseline_engine.xrf_report wall u p d k pc ts b = (Returned bd, b1) →
            baseline_engine.decision bd = baseline_engine.ACCEPT) as Hbase.
  { intros bd b1 Hu. unfold baseline_engine.xrf_report.
    assert (str_truthy u = true) as -> by by destruct u.
    simpl. by intros [= <- <-]. }
  destruct (baseline_engine.xrf_report wall u p d k pc ts b) as [ob b1] eqn:Hb.
  assert (∃ bd, ob = Returned bd) as [bd ->].
  { revert Hb. unfold baseline_engine.xrf_report.
    destruct (negb (str_truthy u)); simpl; intros [= <- <-]; by eexists. }
  exists dd, e', tr, bd, b1. split_and!; [done|done| |].
  - intros Hacc. apply (Hbase bd b1); [|done].
    destruct (decide (current_state e u = SEQ_BOUND)) as [Hst|Hst];
      [|rewrite xrf_gate in H by done; by simplify_eq].
    destruct (engine_reachable_inv e Hr) as [Hm Hs].
    specialize (Hs u). unfold state_matches_binding in Hs. rewrite Hst in Hs.
    destruct Hs as (b0 & Hl & _).
    destruct (reachable_wf _ Hm) as [_ Hwf].
    destruct (Hwf _ _ Hl) as (Hbl & _). by intros ->.
  - intros Hu Hst. split; [|by apply (Hbase bd b1)].
    rewrite xrf_gate in H by done. by simplify_eq.
Qed.

Lemma baseline_accepts_what_engine_accepts_witness :
  ∃ dd e' tr bd b1,
    handle_xrf_report (clock 5) "A" 1 (996 # 10)%Q 10 true "PC01" None
      THRESHOLDS engine_A_seq_bound = (Returned dd, e', tr) ∧
    baseline_engine.xrf_report 5 "A" (996 # 10)%Q 10 true "PC01" None
      baseline_engine.__init__ = (Returned bd, b1) ∧
    (decision dd = ACCEPT →
     baseline_engine.decision bd = baseline_engine.ACCEPT) ∧
    ("A" ≠ "" → current_state engine_A_seq_bound "A" ≠ SEQ_BOUND →
     decision dd = REJECT ∧
     baseline_engine.decision bd = baseline_engine.ACCEPT).
Proof.
  apply (baseline_accepts_what_engine_accepts (clock 5) 5 "A" 1 (996 # 10)%Q
           10 true "PC01" None THRESHOLDS engine_A_seq_bound
           baseline_engine.__init__).
  apply run_engine_reachable, (engine_new 1 20). reflexivity.
Defined.

(** ** The attack script *)

Section attack_script.
Import attack_cases run_attacks.

#[local] Arguments handle_xrf_report : simpl never.
#[local] Arguments baseline_engine.xrf_report : simpl never.
#[local] Arguments ensure_fsm : simpl never.

Ltac eval_lookups :=
  repeat match goal with
         | |- context [@lookup string Value _ _ ?k ?m] =>
             let v := eval vm_compute in (m !! k) in
             progress change (m !! k) with v
         end.

Ltac gated_turn_case e Hdelay :=
  unfold attack_turn; eval_lookups; simpl; rewrite ?Hdelay; simpl;
  rewrite xrf_gate by done;
  eexists _, _, _, _; split; [reflexivity|]; simpl;
  split_and!; [done|done|done|intros; apply ensure_fsm_state].

(** A turn of the loop for one of the five attacks after the replay, on an
    engine that holds neither uid in SEQ_BOUND. *)
Lemma gated_turn add_delay ts0 ts1 clk cfg i a z e b :
  add_delay ts0 3600 = Returned ts1 →
  current_state e "UID123" ≠ SEQ_BOUND →
  current_state e "UID999" ≠ SEQ_BOUND →
  a ∈ tail (attacks cfg) →
  ∃ dd bd e' b',
    attack_turn add_delay ts0 clk cfg i a (valid_xrf ts0 (VInt z)) (e, b)
    = Some (dd, bd, (e', b')) ∧
    decision dd = REJECT ∧ reason dd = "STATE_NOT_SEQ_BOUND" ∧
    baseline_engine.decision bd = baseline_engine.ACCEPT ∧
    ∀ u, current_state e' u = current_state e u.
Proof.
  intros Hdelay H1 H2 Ha. simpl in Ha.
  repeat (apply elem_of_cons in Ha as [->|Ha]); [..|by apply elem_of_nil in Ha].
  all: gated_turn_case e Hdelay.
Qed.

(** X28. What the attack script measures.  Suppose the script gets through
    its set-up: the configuration lets a manager be built (start counter at
    least 1, validity between 1 and 1439999999999 minutes, the largest a
    [timedelta] holds), the expiry time of the identifier issued in the
    set-up is a [datetime], and [add_delay] returns the timestamp delayed by
    an hour.  Suppose moreover that the configuration does not ask more than
    the captured payload offers (purity 99.6, scan of 10 s) and that the
    first turn comes within the validity window.  Then the script runs to
    its end.  The payload was never submitted before the loop, so the REPLAY
    turn is its first presentation and the enforcement engine accepts it;
    the five turns after it are all rejected with STATE_NOT_SEQ_BOUND, by
    the state gate and not on the grounds each attack is named for; and the
    baseline accepts all six. *)
Theorem attack_script_outcome
    (add_delay : string → Z → Outcome string) (ts0 ts1 : string)
    (w_rfid w_seq : WallClock) (clk : nat → WallClock * Z)
    (cfg : SystemConfig) :
  1 <= seq_start_counter cfg →
  1 <= seq_validity_minutes cfg <= 1439999999999 →
  is_datetime (at_seq w_seq + seq_validity_minutes cfg * 60000000) = true →
  add_delay ts0 (60 * 60) = Returned ts1 →
  (cfg_purity_min_percent cfg <= 996 # 10)%Q →
  cfg_scan_duration_min_seconds cfg <= 10 →
  at_seq (fst (clk 0%nat))
  <= at_seq w_seq + seq_validity_minutes cfg * 60000000 →
  ∃ ds,
    main add_delay ts0 w_rfid w_seq clk cfg = Some ds ∧
    map (λ x, (decision (fst x), reason (fst x))) ds
    = [ (ACCEPT, "STATE_ADVANCED");
        (REJECT, "STATE_NOT_SEQ_BOUND"); (REJECT, "STATE_NOT_SEQ_BOUND");
        (REJECT, "STATE_NOT_SEQ_BOUND"); (REJECT, "STATE_NOT_SEQ_BOUND");
        (REJECT, "STATE_NOT_SEQ_BOUND") ] ∧
    map (λ x, baseline_engine.decision (snd x)) ds
    = replicate 6 baseline_engine.ACCEPT.
Proof.
  intros Hstart Hmins Hfit Hdelay Hp Hd Ht. unfold main.
  unfold seqid_manager.__init__, timedelta_minutes.
  destruct (Z.ltb_spec (seq_start_counter cfg) 1) as [?|_]; [lia|].
  destruct (Z.ltb_spec (seq_validity_minutes cfg) 1) as [?|_]; [lia|].
  assert (0 <= seq_validity_minutes cfg / 1440 < 1000000000) as Hdays.
  { split; [apply Z.div_pos; lia|apply Z.div_lt_upper_bound; lia]. }
  destruct (Z.leb_spec (-999999999) (seq_validity_minutes cfg / 1440)); [|lia].
  destruct (Z.leb_spec (seq_validity_minutes cfg / 1440) 999999999); [|lia].
  simpl negb. cbv iota. simpl andb. cbv iota.
  set (m0 := {| _counter := _; _validity := _; _by_uid := _; _by_seq := _ |}).
  rewrite rfid_read_run.
  destruct (decide (current_state (enforcement_engine.__init__ m0) uid = UNREGISTERED))
    as [_|]; [|done].
  set (e1 := {| seq := _; _fsms := _ |}).
  assert (current_state e1 uid = RFID_VERIFIED) as H1 by reflexivity.
  assert (issue uid None (at_seq w_seq) (seq e1)
          = (Returned (fresh_binding uid (at_seq w_seq) m0),
             with_fresh uid (at_seq w_seq) m0)) as Hi.
  { rewrite issue_cases by done. unfold allocate. simpl. by rewrite Hfit. }
  rewrite (seq_request_run w_seq uid (Some ts0) e1 _ _ H1 Hi). simpl.
  set (e2 := {| seq := with_fresh _ _ _; _fsms := _ |}).
  assert (current_state e2 uid = SEQ_BOUND) as H2 by reflexivity.
  (* the REPLAY turn *)
  assert (∃ dd bd e3 b3,
            attack_turn add_delay ts0 clk cfg 0 replay_event
              (valid_xrf ts0 (VInt (seq_start_counter cfg)))
              (e2, baseline_engine.__init__) = Some (dd, bd, (e3, b3)) ∧
            decision dd = ACCEPT ∧ reason dd = "STATE_ADVANCED" ∧
            baseline_engine.decision bd = baseline_engine.ACCEPT ∧
            current_state e3 "UID123" = XRF_VERIFIED ∧
            current_state e3 "UID999" = UNREGISTERED)
    as (dd0 & bd0 & e3 & b3 & -> & Hdd0 & Hr0 & Hbd0 & Hs3 & Hs3').
  { unfold attack_turn. eval_lookups. simpl.
    assert (fst (validate "UID123" (seq_start_counter cfg) None
                   (at_seq (fst (clk 0%nat))) (seq e2)) = Returned "OK") as Hv.
    { erewrite validate_found; [|reflexivity|reflexivity]. simpl.
      destruct (Z.ltb_spec (at_seq w_seq + seq_validity_minutes cfg * 60000000)
                  (at_seq (clk 0%nat).1)); [lia|done]. }
    rewrite (xrf_checked _ _ _ _ _ _ _ _ _ e2 H2 Hv).
    assert (Qltb (996 # 10) (purity_min_of (TH cfg)) = false) as ->.
    { unfold Qltb. apply negb_false_iff. by apply Qle_bool_iff. }
    assert ((10 <? scan_min_of (TH cfg)) = false) as ->
      by (apply Z.ltb_ge; unfold scan_min_of, TH; simpl; lia).
    rewrite andb_false_r.
    eexists _, _, _, _. split; [reflexivity|]. simpl.
    split_and!; try done. }
  simpl.
  destruct (gated_turn add_delay ts0 ts1 clk cfg 1 (delay_seconds (60 * 60))
              (seq_start_counter cfg) e3 b3)
    as (dd1 & bd1 & e4 & b4 & -> & Hdd1 & Hr1 & Hbd1 & Hs4);
    [exact Hdelay|by rewrite Hs3|by rewrite Hs3'|simpl; in_list|].
  simpl.
  destruct (gated_turn add_delay ts0 ts1 clk cfg 2 (uid_mismatch "UID999")
              (seq_start_counter cfg) e4 b4)
    as (dd2 & bd2 & e5 & b5 & -> & Hdd2 & Hr2 & Hbd2 & Hs5);
    [exact Hdelay|by rewrite Hs4, Hs3|by rewrite Hs4, Hs3'|simpl; in_list|].
  simpl.
  destruct (gated_turn add_delay ts0 ts1 clk cfg 3
              (purity_manipulation (cfg_purity_min_percent cfg - (1 # 2)))
              (seq_start_counter cfg) e5 b5)
    as (dd3 & bd3 & e6 & b6 & -> & Hdd3 & Hr3 & Hbd3 & Hs6);
    [exact Hdelay|by rewrite Hs5, Hs4, Hs3|by rewrite Hs5, Hs4, Hs3'|simpl; in_list|].
  simpl.
  destruct (gated_turn add_delay ts0 ts1 clk cfg 4
              (scan_too_short (Z.max 1 (cfg_scan_duration_min_seconds cfg - 3)))
              (seq_start_counter cfg) e6 b6)
    as (dd4 & bd4 & e7 & b7 & -> & Hdd4 & Hr4 & Hbd4 & Hs7);
    [exact Hdelay|by rewrite Hs6, Hs5, Hs4, Hs3|by rewrite Hs6, Hs5, Hs4, Hs3'
    |simpl; in_list|].
  simpl.
  destruct (gated_turn add_delay ts0 ts1 clk cfg 5 contact_fail
              (seq_start_counter cfg) e7 b7)
    as (dd5 & bd5 & e8 & b8 & -> & Hdd5 & Hr5 & Hbd5 & Hs8);
    [exact Hdelay|by rewrite Hs7, Hs6, Hs5, Hs4, Hs3|by rewrite Hs7, Hs6, Hs5, Hs4, Hs3'
    |simpl; in_list|].
  simpl. eexists. split; [reflexivity|]. simpl.
  rewrite Hdd0, Hr0, Hbd0, Hdd1, Hr1, Hbd1, Hdd2, Hr2, Hbd2, Hdd3, Hr3, Hbd3,
    Hdd4, Hr4, Hbd4, Hdd5, Hr5, Hbd5. done.
Qed.

Lemma attack_script_outcome_witness :
  ∃ ds,
    main (λ ts _, Returned ts) "2026-01-01T00:00:00+00:00" (clock 0) (clock 0)
      (λ i, (clock 60000000, 60000000)) default_config = Some ds ∧
    map (λ x, (decision (fst x), reason (fst x))) ds
    = [ (ACCEPT, "STATE_ADVANCED");
        (REJECT, "STATE_NOT_SEQ_BOUND"); (REJECT, "STATE_NOT_SEQ_BOUND");
        (REJECT, "STATE_NOT_SEQ_BOUND"); (REJECT, "STATE_NOT_SEQ_BOUND");
        (REJECT, "STATE_NOT_SEQ_BOUND") ] ∧
    map (λ x, baseline_engine.decision (snd x)) ds
    = replicate 6 baseline_engine.ACCEPT.
Proof.
  apply (attack_script_outcome (λ ts _, Returned ts)
           "2026-01-01T00:00:00+00:00" "2026-01-01T00:00:00+00:00"
           (clock 0) (clock 0) (λ i, (clock 60000000, 60000000))
           default_config).
  - simpl. lia.
  - simpl. lia.
  - reflexivity.
  - reflexivity.
  - vm_compute. discriminate.
  - simpl. lia.
  - simpl. lia.
Defined.

End attack_script.

(** ** The attack injectors *)

(** X29. [inject_replay]: whatever the rate and whatever numbers the
    generator yields, the replay injector draws exactly one number per input
    event, keeps every input event in its original order (the input is a
    sub-sequence of the output), adds nothing but copies of input events,
    and so returns between [n] and [2 n] events for [n] input events. *)
Theorem inject_replay_keeps_the_stream tape events rate pos :
  snd (attack_injector.inject_replay tape events rate pos)
  = (pos + length events)%nat ∧
  events `sublist_of` fst (attack_injector.inject_replay tape events rate pos) ∧
  (∀ e, e ∈ fst (attack_injector.inject_replay tape events rate pos) →
        e ∈ events) ∧
  (length events
   <= length (fst (attack_injector.inject_replay tape events rate pos))
   <= 2 * length events)%nat.
Proof.
  revert pos. induction events as [|e es IH]; intros pos; simpl.
  { split_and!; [lia|done|done|lia|lia]. }
  specialize (IH (S pos)).
  destruct (attack_injector.inject_replay tape es rate (S pos)) as [rest pos'].
  simpl in *. destruct IH as (-> & Hsub & Hin & Hlen).
  split; [lia|].
  destruct (Qltb (tape pos) rate); simpl.
  - split_and!; [| |lia|lia].
    + by apply sublist_cons, sublist_skip.
    + intros x Hx. rewrite !elem_of_cons in Hx. rewrite elem_of_cons.
      destruct Hx as [->|[->|Hx]]; auto.
  - split_and!; [| |lia|lia].
    + by apply sublist_skip.
    + intros x Hx. rewrite elem_of_cons in Hx. rewrite elem_of_cons.
      destruct Hx as [->|Hx]; auto.
Qed.

(** X30. [inject_uid_mismatch]: the identifier injector draws exactly one
    number per input event and returns one event per input event, in the
    same order; each returned event has the times, the reader and the window
    of the input event at its place, and its identifier is either the input's
    or the literal [FAKE_UID]. *)
Theorem inject_uid_mismatch_only_touches_uid tape events rate pos :
  snd (attack_injector.inject_uid_mismatch tape events rate pos)
  = (pos + length events)%nat ∧
  Forall2 (λ e o,
      attack_injector.ts_event o = attack_injector.ts_event e ∧
      attack_injector.ts_arrival o = attack_injector.ts_arrival e ∧
      attack_injector.reader_id o = attack_injector.reader_id e ∧
      attack_injector.window_id o = attack_injector.window_id e ∧
      (attack_injector.uid o = attack_injector.uid e ∨
       attack_injector.uid o = "FAKE_UID"))
    events (fst (attack_injector.inject_uid_mismatch tape events rate pos)).
Proof.
  revert pos. induction events as [|e es IH]; intros pos; simpl.
  { split; [lia|constructor]. }
  specialize (IH (S pos)).
  destruct (attack_injector.inject_uid_mismatch tape es rate (S pos))
    as [rest pos'].
  simpl in *. destruct IH as [-> Hall].
  split; [lia|]. constructor; [|done].
  destruct (Qltb (tape pos) rate); simpl; auto 10.
Qed.

